(** * ruvvector-service: learning-signal handlers and the decision-event feed

    A shallow embedding of the core logic of the service:

    - [ApprovalLearning]      handlers/learning/approvalLearning.ts
    - [FeedbackAssimilation]  handlers/learning/feedbackAssimilation.ts
    - [DecisionEvents]        handlers/decisionEvents.ts
    - [Config]                config.ts
    - [Validation]            middleware/validation.ts

    Modelling conventions.

    - JavaScript strings are Rocq strings of 8-bit characters.  The
      built-in string functions ([toLowerCase], [trim], [parseInt],
      [split], [includes]) follow their ECMAScript definition on ASCII
      text; bytes above 127 are passed through unchanged.
    - [localeCompare] compares by the collation of the host's locale,
      and the store compares row ids by the collation of the database;
      the program fixes neither.  Both are parameters: the locale
      ([Js.Locale]), of which only what ECMAScript requires is assumed,
      that [localeCompare] is a consistent comparator, and the
      collation ([Collation]), a strict order.
    - JavaScript numbers that hold timestamps, limits and counters are
      integers ([Z]).  A [Date] is its millisecond count; it is valid up
      to 8.64e15 milliseconds on either side of the epoch.  Numbers that
      hold signals and confidences are rationals ([Q]): every arithmetic
      operation is exact, IEEE-754 rounding of the individual operations
      is not modelled.
    - The relational store is a record of tables, each a list of rows in
      insertion order.  It keeps [created_at] to the microsecond, as the
      count of microseconds since the epoch.  The driver hands a stored
      timestamp to the program as a [Date], without the microseconds
      below the millisecond, and a [Date] parameter to the store as a
      whole number of milliseconds.  The stored instants lie in the
      range of [Date].
    - Statements never fail for lack of a connection.  The statements
      that raise are an INSERT that violates the unique index on
      [learning_events.inputs_hash], and a SELECT with a [Date]
      parameter that the store cannot read as a timestamp: an invalid
      [Date], or an instant before the store's first day, 24 November
      4714 BC.
    - [uuidv4()] and [new Date()] read from oracles carried by the world:
      a sequence of identifiers and a sequence of clock readings, each
      with a read position.
    - SHA-256 is implemented, so that fingerprints evaluate.
    - [process.env] and the headers of a request are finite maps from
      names to values. *)

From Stdlib Require Import ZArith QArith Qminmax Qabs Lqa.
From Stdlib Require Import Ascii String DecimalString DecimalZ.
From stdpp Require Import list strings sorting gmap.

Local Open Scope string_scope.
Local Open Scope list_scope.
Local Open Scope Z_scope.

(** ** ECMAScript string built-ins *)

Module Js.

(** [String.prototype.split] with a one-character separator. *)
Fixpoint split (sep : ascii) (s : string) : list string :=
  match s with
  | EmptyString => [EmptyString]
  | String c s' =>
      if Ascii.eqb c sep then EmptyString :: split sep s'
      else match split sep s' with
           | [] => [String c EmptyString]
           | p :: ps => String c p :: ps
           end
  end.

(** [Array.prototype.join]. *)
Definition join (sep : string) (parts : list string) : string :=
  String.concat sep parts.

(** [Array.prototype.slice(1, -1)]: drop the first and the last element. *)
Definition slice_1_m1 {A} (l : list A) : list A := removelast (tail l).

(** [String.prototype.includes]. *)
Fixpoint includes (s kw : string) : bool :=
  String.prefix kw s ||
  match s with
  | EmptyString => false
  | String _ s' => includes s' kw
  end.

Definition lower_char (c : ascii) : ascii :=
  let n := nat_of_ascii c in
  if (65 <=? n)%nat && (n <=? 90)%nat then ascii_of_nat (n + 32) else c.

(** [String.prototype.toLowerCase]. *)
Fixpoint toLowerCase (s : string) : string :=
  match s with
  | EmptyString => EmptyString
  | String c s' => String (lower_char c) (toLowerCase s')
  end.

(** White space as skipped by [trim] and [parseInt]: TAB, LF, VT, FF, CR
    and SPACE. *)
Definition is_white (c : ascii) : bool :=
  let n := nat_of_ascii c in
  ((9 <=? n)%nat && (n <=? 13)%nat) || (n =? 32)%nat.

Fixpoint trimStart (s : string) : string :=
  match s with
  | EmptyString => EmptyString
  | String c s' => if is_white c then trimStart s' else s
  end.

Fixpoint trimEnd (s : string) : string :=
  match s with
  | EmptyString => EmptyString
  | String c s' =>
      match trimEnd s' with
      | EmptyString => if is_white c then EmptyString else String c EmptyString
      | t => String c t
      end
  end.

(** [String.prototype.trim]. *)
Definition trim (s : string) : string := trimEnd (trimStart s).

Definition digit_of_char (c : ascii) : option Z :=
  let n := nat_of_ascii c in
  if (48 <=? n)%nat && (n <=? 57)%nat then Some (Z.of_nat n - 48) else None.

(** The value of the longest prefix of decimal digits of [s], read after
    the digits already accumulated in [acc]. *)
Fixpoint digits_value (s : string) (acc : Z) : Z :=
  match s with
  | EmptyString => acc
  | String c s' =>
      match digit_of_char c with
      | Some d => digits_value s' (10 * acc + d)
      | None => acc
      end
  end.

Definition starts_with_digit (s : string) : bool :=
  match s with
  | EmptyString => false
  | String c _ => bool_decide (is_Some (digit_of_char c))
  end.

(** [parseInt(s, 10)]; [None] is [NaN]. *)
Definition parseInt (s : string) : option Z :=
  match trimStart s with
  | String "-" r =>
      if starts_with_digit r then Some (- digits_value r 0) else None
  | String "+" r =>
      if starts_with_digit r then Some (digits_value r 0) else None
  | r => if starts_with_digit r then Some (digits_value r 0) else None
  end.

(** [Number.prototype.toString] on an integer. *)
Definition numberToString (n : Z) : string :=
  NilZero.string_of_int (Z.to_int n).

(** [x || d] on a string: the empty string is falsy. *)
Definition str_or (x : option string) (d : string) : string :=
  match x with
  | Some (String c s) => String c s
  | _ => d
  end.

(** Truthiness of an optional string. *)
Definition truthy (x : option string) : bool :=
  match x with
  | Some (String _ _) => true
  | _ => false
  end.

(** The largest time value of a [Date], in milliseconds on either side
    of the epoch; [new Date(ms)] is an invalid [Date] beyond it. *)
Definition MAX_TIME : Z := 8640000000000000.

Definition valid_time (ms : Z) : bool :=
  (- MAX_TIME <=? ms) && (ms <=? MAX_TIME).

(** [String.prototype.localeCompare] in the locale of the host: negative,
    zero or positive.  ECMAScript leaves the order to the locale and
    requires a consistent comparator: the sign flips with the arguments,
    and "not after" is transitive. *)
Class Locale := {
  localeCompare : string → string → Z;
  localeCompare_flip : ∀ a b,
    Z.sgn (localeCompare b a) = - Z.sgn (localeCompare a b);
  localeCompare_trans : ∀ a b c,
    localeCompare a b ≤ 0 → localeCompare b c ≤ 0 → localeCompare a c ≤ 0
}.

End Js.

(** ** The relational store *)

(** A row of the [decisions] relation.  [d_created_at] is a timestamp
    of the store: microseconds since the epoch. *)
Record DecisionRecord := {
  d_id : string;
  d_objective : string;
  d_recommendation : string;
  d_confidence : string;
  d_command : string;
  d_raw_output_hash : string;
  d_created_at : Z
}.

(** A row of the [approvals] relation.  [a_created_at] is a timestamp
    of the store: microseconds since the epoch. *)
Record ApprovalRecord := {
  a_id : string;
  a_decision_id : string;
  a_approved : bool;
  a_reward : Q;
  a_confidence_adjustment : option Q;
  a_created_at : Z
}.

(** A row of the [learning_events] relation, with the columns the two
    writers fill. *)
Record LearningEventRow := {
  le_id : string;
  le_agent_id : string;
  le_agent_version : string;
  le_decision_type : string;
  le_source_id : option string;
  le_outputs : string;
  le_inputs_hash : string;
  le_confidence : Q;
  le_constraints_applied : string;
  le_source_type : string;
  le_created_at : string
}.

Record Database := {
  decisions : list DecisionRecord;
  approvals : list ApprovalRecord;
  learning_events : list LearningEventRow
}.

(** The order in which the store compares row ids, in [ORDER BY] and in
    row comparisons: the collation of the database.  It is a strict
    order. *)
Class Collation := {
  text_lt : string → string → bool;
  text_lt_irrefl : ∀ a, text_lt a a = false;
  text_lt_trans : ∀ a b c,
    text_lt a b = true → text_lt b c = true → text_lt a c = true
}.

(** The [Date] the driver builds from a stored timestamp, as its
    millisecond count: the microseconds below the millisecond are
    dropped. *)
Definition dateOf (timestamp : Z) : Z := timestamp / 1000.

(** The timestamp the store reads from a [Date] parameter. *)
Definition timestampOf (date : Z) : Z := date * 1000.

(** The first instant a timestamp of the store can hold, 24 November
    4714 BC, in milliseconds from the epoch. *)
Definition MIN_TIMESTAMP : Z := -210866803200000.

(** A [Date] parameter the store can read as a timestamp: a valid
    [Date] within the range of the store.  The driver renders an
    invalid [Date] as text that is no timestamp. *)
Definition readable_date (date : Z) : bool :=
  Js.valid_time date && (MIN_TIMESTAMP <=? date).

(** The outcome of a handler: the status code with the JSON body. *)
Inductive HttpResponse (B : Type) : Type :=
  | Status200 (body : B)
  | Status201 (body : B)
  | Status400
  | Status500.
Arguments Status200 {B} body.
Arguments Status201 {B} body.
Arguments Status400 {B}.
Arguments Status500 {B}.

(** ** GET /events/decisions *)

Module DecisionEvents.

(** Supported decision event types. *)
Inductive DecisionEventType :=
  | plan_created
  | plan_approved
  | plan_rejected
  | plan_deferred.

Global Instance DecisionEventType_eq_dec : EqDecision DecisionEventType.
Proof. solve_decision. Defined.

(** The string literal of each member of the union type. *)
Definition type_tag (t : DecisionEventType) : string :=
  match t with
  | plan_created => "plan_created"
  | plan_approved => "plan_approved"
  | plan_rejected => "plan_rejected"
  | plan_deferred => "plan_deferred"
  end.

Definition validTypes : list DecisionEventType :=
  [plan_created; plan_approved; plan_rejected; plan_deferred].

(** Decision event payload structure: the fields set for a row of
    [decisions] and the fields set for a joined row of [approvals]. *)
Inductive DecisionEventPayload :=
  | CreatedPayload
      (plan_id decision_id objective recommendation confidence
         command checksum : string)
  | ReviewedPayload
      (plan_id decision_id simulation_id objective recommendation : string)
      (reward : Q) (confidence_adjustment : option Q)
      (reviewer_outcome : string).

(** Decision event response structure.  [timestamp] is the ISO-8601
    rendering of a [Date]; it is kept as the millisecond count that
    [new Date(timestamp).getTime()] reads back from it. *)
Record DecisionEvent := {
  id : string;
  type : DecisionEventType;
  timestamp : Z;
  payload : DecisionEventPayload
}.

(** Response structure for GET /events/decisions. *)
Record DecisionEventsResponse := {
  events : list DecisionEvent;
  next_cursor : option string
}.

(** The query string of a request. *)
Record Query := {
  types : option string;
  after : option string;
  limit : option string
}.

Definition DEFAULT_LIMIT : Z := 100.
Definition MAX_LIMIT : Z := 1000.

(** [parseInt(limit, 10) || DEFAULT_LIMIT], then the two bounds.  An
    absent parameter is the string "undefined" to [parseInt]. *)
Definition parseLimit (limit : option string) : Z :=
  let parsed :=
    match Js.parseInt (default "undefined" limit) with
    | Some n => if n =? 0 then DEFAULT_LIMIT else n
    | None => DEFAULT_LIMIT
    end in
  Z.min (Z.max parsed 1) MAX_LIMIT.

Definition type_of_tag (s : string) : option DecisionEventType :=
  list_find (λ t, type_tag t = s) validTypes ≫= λ p, Some p.2.

(** Parse comma-separated event types filter. *)
Definition parseEventTypes (typesParam : option string)
  : option (list DecisionEventType) :=
  if Js.truthy typesParam then
    let requestedTypes :=
      map (λ t, Js.toLowerCase (Js.trim t))
        (Js.split "," (default EmptyString typesParam)) in
    let filteredTypes := omap type_of_tag requestedTypes in
    match filteredTypes with
    | [] => None
    | _ => Some filteredTypes
    end
  else None.

(** [!eventTypes || eventTypes.includes(t)]. *)
Definition includes_type (eventTypes : option (list DecisionEventType))
    (t : DecisionEventType) : bool :=
  match eventTypes with
  | None => true
  | Some l => bool_decide (t ∈ l)
  end.

(** Map approval outcome to event type. *)
Definition mapApprovalToEventType (approved : bool) : DecisionEventType :=
  if approved then plan_approved else plan_rejected.

(** Build a composite event ID for cursor-based pagination.
    Format: <type>:<id>:<timestamp_unix_ms>. *)
Definition buildEventId (type : string) (id : string) (timestamp : Z)
  : string :=
  type +:+ ":" +:+ id +:+ ":" +:+ Js.numberToString timestamp.

Record Cursor := {
  c_type : string;
  c_id : string;
  c_timestamp : Z
}.

(** Parse cursor string back into components. *)
Definition parseCursor (cursor : string) : option Cursor :=
  let parts := Js.split ":" cursor in
  if bool_decide (length parts < 3)%nat then None
  else
    let type := hd EmptyString parts in
    let timestampMs := Js.parseInt (List.last parts EmptyString) in
    let id := Js.join ":" (Js.slice_1_m1 parts) in
    match timestampMs with
    | None => None
    | Some ms => Some {| c_type := type; c_id := id; c_timestamp := ms |}
    end.

(** The cursor a query applies: [after && typeof after === 'string'],
    then [parseCursor]. *)
Definition cursorParts (after : option string) : option Cursor :=
  if Js.truthy after then parseCursor (default EmptyString after) else None.

Section Feed.
Context `{!Collation} `{!Js.Locale}.

(** Row comparison [(created_at, id) > ($1, $2)], [$1] the [Date] of
    the cursor as the store reads it. *)
Definition row_after (c : Cursor) (created_at : Z) (id : string) : bool :=
  (timestampOf (c_timestamp c) <? created_at)
  || ((timestampOf (c_timestamp c) =? created_at) && text_lt (c_id c) id).

(** The cursor condition of a query, absent when there is no cursor. *)
Definition cursor_cond (c : option Cursor) (created_at : Z) (id : string)
  : bool :=
  match c with
  | None => true
  | Some c => row_after c created_at id
  end.

(** [ORDER BY created_at ASC, id ASC] as a relation on sort keys. *)
Definition key_le (k1 k2 : Z * string) : Prop :=
  k1.1 < k2.1 ∨ (k1.1 = k2.1 ∧ text_lt k2.2 k1.2 = false).

Global Instance key_le_dec k1 k2 : Decision (key_le k1 k2).
Proof. unfold key_le. apply _. Defined.

(** The order of a query on its rows, [key] giving [(created_at, id)]. *)
Definition row_le {R} (key : R → Z * string) (r1 r2 : R) : Prop :=
  key_le (key r1) (key r2).

Global Instance row_le_dec {R} (key : R → Z * string) :
  RelDecision (row_le key).
Proof. intros r1 r2. unfold row_le. apply _. Defined.

(** [SELECT ... WHERE cond ORDER BY created_at ASC, id ASC LIMIT n]. *)
Definition select_ordered {R} (key : R → Z * string) (cond : R → bool)
    (n : Z) (rows : list R) : list R :=
  take (Z.to_nat n)
    (merge_sort (row_le key) (filter (λ r, cond r = true) rows)).

(** The outcome of [dbClient.query] for a statement that binds the
    cursor, when there is one: the rows, or [None] when the promise is
    rejected because the store cannot read the cursor's [Date]. *)
Definition query {R} (cursor : option Cursor) (rows : list R)
  : option (list R) :=
  match cursor with
  | Some c => if readable_date (c_timestamp c) then Some rows else None
  | None => Some rows
  end.

Definition decision_key (row : DecisionRecord) : Z * string :=
  (d_created_at row, d_id row).

Definition approval_key (row : ApprovalRecord * DecisionRecord)
  : Z * string :=
  (a_created_at row.1, a_id row.1).

(** [FROM approvals a JOIN decisions d ON d.id = a.decision_id]. *)
Definition approvals_join (db : Database)
  : list (ApprovalRecord * DecisionRecord) :=
  a ← approvals db;
  d ← filter (λ d, d_id d = a_decision_id a) (decisions db);
  [(a, d)].

(** The event pushed for a row of the decisions query; [row.timestamp]
    is the [Date] of [created_at]. *)
Definition created_event (row : DecisionRecord) : DecisionEvent :=
  {| id := buildEventId "plan_created" (d_id row)
             (dateOf (d_created_at row));
     type := plan_created;
     timestamp := dateOf (d_created_at row);
     payload :=
       CreatedPayload (d_id row) (d_id row) (d_objective row)
         (d_recommendation row) (d_confidence row) (d_command row)
         (d_raw_output_hash row) |}.

(** The event pushed for a row of the approvals query. *)
Definition reviewed_event (row : ApprovalRecord * DecisionRecord)
  : DecisionEvent :=
  let eventType := mapApprovalToEventType (a_approved row.1) in
  {| id := buildEventId (type_tag eventType) (a_id row.1)
             (dateOf (a_created_at row.1));
     type := eventType;
     timestamp := dateOf (a_created_at row.1);
     payload :=
       ReviewedPayload (a_decision_id row.1) (a_decision_id row.1)
         (a_decision_id row.1) (d_objective row.2)
         (d_recommendation row.2) (a_reward row.1)
         (a_confidence_adjustment row.1)
         (if a_approved row.1 then "approved" else "rejected") |}.

(** The WHERE condition on [a.approved]: present only when exactly one
    of [plan_approved] and [plan_rejected] is requested. *)
Definition approval_filter (includeApproved includeRejected : bool)
    (approved : bool) : bool :=
  match includeApproved, includeRejected with
  | true, false => approved
  | false, true => negb approved
  | _, _ => true
  end.

(** The comparator handed to [events.sort]. *)
Definition compareEvents (a b : DecisionEvent) : Z :=
  let timeA := timestamp a in
  let timeB := timestamp b in
  if bool_decide (timeA ≠ timeB) then timeA - timeB
  else Js.localeCompare (id a) (id b).

(** [Array.prototype.sort] is a stable sort; [a] stays before [b] when
    the comparator does not return a positive number. *)
Definition event_le (a b : DecisionEvent) : Prop := compareEvents a b ≤ 0.

Global Instance event_le_dec : RelDecision event_le.
Proof. intros a b. unfold event_le. apply _. Defined.

Definition sortEvents (l : list DecisionEvent) : list DecisionEvent :=
  merge_sort event_le l.

(** GET /events/decisions - Fetch decision events for downstream
    execution engines.  A rejected query is caught and answered 500. *)
Definition listDecisionEventsHandler (req : Query) (db : Database)
  : HttpResponse DecisionEventsResponse :=
  let parsedLimit := parseLimit (limit req) in
  let eventTypes := parseEventTypes (types req) in
  let includeCreated := includes_type eventTypes plan_created in
  let includeApproved := includes_type eventTypes plan_approved in
  let includeRejected := includes_type eventTypes plan_rejected in
  let includeDeferred := includes_type eventTypes plan_deferred in
  let created :=
    if includeCreated then
      let cursor := cursorParts (after req) in
      rows ← query cursor
                (select_ordered decision_key
                   (λ row, cursor_cond cursor (d_created_at row) (d_id row))
                   parsedLimit (decisions db));
      Some (map created_event rows)
    else Some [] in
  let reviewed :=
    if includeApproved || includeRejected || includeDeferred then
      let cursor := cursorParts (after req) in
      rows ← query cursor
                (select_ordered approval_key
                   (λ row,
                      approval_filter includeApproved includeRejected
                        (a_approved row.1)
                      && cursor_cond cursor (a_created_at row.1)
                           (a_id row.1))
                   parsedLimit (approvals_join db));
      Some (map reviewed_event rows)
    else Some [] in
  match created, reviewed with
  | Some created, Some reviewed =>
      let sorted := sortEvents (created ++ reviewed) in
      let trimmedEvents := take (Z.to_nat parsedLimit) sorted in
      let nextCursor := id <$> last trimmedEvents in
      Status200 {| events := trimmedEvents; next_cursor := nextCursor |}
  | _, _ => Status500
  end.

End Feed.

End DecisionEvents.

(** ** SHA-256 ([createHash('sha256').update(s).digest('hex')]) *)

Module Sha256.

Definition w32 (x : Z) : Z := x mod 2 ^ 32.
Definition add32 (x y : Z) : Z := w32 (x + y).
Definition rotr (n x : Z) : Z :=
  Z.lor (Z.shiftr x n) (w32 (Z.shiftl x (32 - n))).
Definition not32 (x : Z) : Z := Z.lxor x 0xffffffff.

Definition Ch (x y z : Z) : Z :=
  Z.lxor (Z.land x y) (Z.land (not32 x) z).
Definition Maj (x y z : Z) : Z :=
  Z.lxor (Z.lxor (Z.land x y) (Z.land x z)) (Z.land y z).
Definition Sigma0 (x : Z) : Z :=
  Z.lxor (Z.lxor (rotr 2 x) (rotr 13 x)) (rotr 22 x).
Definition Sigma1 (x : Z) : Z :=
  Z.lxor (Z.lxor (rotr 6 x) (rotr 11 x)) (rotr 25 x).
Definition sigma0 (x : Z) : Z :=
  Z.lxor (Z.lxor (rotr 7 x) (rotr 18 x)) (Z.shiftr x 3).
Definition sigma1 (x : Z) : Z :=
  Z.lxor (Z.lxor (rotr 17 x) (rotr 19 x)) (Z.shiftr x 10).

(** The first [n] primes, by trial division from [candidate] on. *)
Fixpoint primes_from (fuel n : nat) (candidate : Z) (found : list Z)
  : list Z :=
  match fuel, n with
  | S fuel, S m =>
      if forallb (λ p, negb (candidate mod p =? 0)) found
      then primes_from fuel m (candidate + 1) (found ++ [candidate])
      else primes_from fuel n (candidate + 1) found
  | _, _ => found
  end.

Definition primes (n : nat) : list Z := primes_from 400 n 2 [].

(** The integer cube root, one bit at a time. *)
Fixpoint cube_root (bits : nat) (x r : Z) : Z :=
  match bits with
  | 0%nat => r
  | S bits =>
      let r' := r + 2 ^ Z.of_nat bits in
      if r' * r' * r' <=? x then cube_root bits x r' else cube_root bits x r
  end.

(** The round constants: the first 32 bits of the fractional parts of
    the cube roots of the first 64 primes. *)
Definition K : list Z :=
  Eval vm_compute in map (λ p, w32 (cube_root 40 (p * 2 ^ 96) 0)) (primes 64).

(** The initial hash value: the first 32 bits of the fractional parts of
    the square roots of the first 8 primes. *)
Definition H0 : list Z :=
  Eval vm_compute in map (λ p, w32 (Z.sqrt (p * 2 ^ 64))) (primes 8).

Definition bytes_of_string (s : string) : list Z :=
  map (λ c, Z.of_nat (nat_of_ascii c)) (list_ascii_of_string s).

(** The message, the bit 1, zero bits up to 448 modulo 512, and the
    length in bits as a 64-bit big-endian integer. *)
Definition pad (msg : list Z) : list Z :=
  let len := Z.of_nat (length msg) in
  let zeros := Z.to_nat ((55 - len) mod 64) in
  let bits := 8 * len in
  msg ++ [0x80] ++ replicate zeros 0
    ++ map (λ i, Z.shiftr bits (8 * (7 - Z.of_nat i)) mod 256) (seq 0 8).

Fixpoint words (fuel : nat) (bytes : list Z) : list Z :=
  match fuel, bytes with
  | S fuel, b0 :: b1 :: b2 :: b3 :: rest =>
      (Z.shiftl b0 24 + Z.shiftl b1 16 + Z.shiftl b2 8 + b3)
        :: words fuel rest
  | _, _ => []
  end.

Fixpoint blocks (fuel : nat) (ws : list Z) : list (list Z) :=
  match fuel, ws with
  | _, [] => []
  | 0%nat, _ => []
  | S fuel, _ => take 16 ws :: blocks fuel (drop 16 ws)
  end.

(** The message schedule: [n] more words after the 16 in [window]. *)
Fixpoint schedule (n : nat) (window : list Z) : list Z :=
  match n with
  | 0%nat => []
  | S n =>
      let w i := nth i window 0 in
      let new :=
        add32 (add32 (sigma1 (w 14%nat)) (w 9%nat))
              (add32 (sigma0 (w 1%nat)) (w 0%nat)) in
      new :: schedule n (tail window ++ [new])
  end.

Definition round (st : list Z) (kw : Z * Z) : list Z :=
  match st with
  | [a; b; c; d; e; f; g; h] =>
      let t1 :=
        add32 (add32 (add32 h (Sigma1 e)) (add32 (Ch e f g) kw.1)) kw.2 in
      let t2 := add32 (Sigma0 a) (Maj a b c) in
      [add32 t1 t2; a; b; c; add32 d t1; e; f; g]
  | _ => st
  end.

Definition compress (h : list Z) (block : list Z) : list Z :=
  let w := block ++ schedule 48 block in
  zip_with add32 h (foldl round h (zip K w)).

Definition hex_digit (n : Z) : ascii :=
  nth (Z.to_nat n)
    (list_ascii_of_string "0123456789abcdef") "0"%char.

Definition hex32 (x : Z) : string :=
  string_of_list_ascii
    (map (λ i, hex_digit (Z.shiftr x (4 * (7 - Z.of_nat i)) mod 16))
       (seq 0 8)).

Definition digest_hex (s : string) : string :=
  let bytes := pad (bytes_of_string s) in
  let ws := words (length bytes) bytes in
  String.concat EmptyString (map hex32 (foldl compress H0 (blocks (length ws) ws))).

End Sha256.

(** ** JSON values and [JSON.stringify] *)

Module Json.

(** A JavaScript value that [JSON.stringify] renders.  An object is its
    list of own properties in enumeration order, with distinct keys; the
    rule that puts integer-like keys first is not modelled. *)
#[warnings="-register-all"]
Inductive value :=
  | Null
  | Bool (b : bool)
  | Number (q : Q)
  | Str (s : string)
  | Array (items : list value)
  | Object (props : list (string * value)).

Definition hex4 (n : Z) : string :=
  string_of_list_ascii
    (map (λ i, Sha256.hex_digit (Z.shiftr n (4 * (3 - Z.of_nat i)) mod 16))
       (seq 0 4)).

(** The one-character string holding the double quote. *)
Definition dquote : string := String (ascii_of_nat 34) EmptyString.

Definition backslash : string := String (ascii_of_nat 92) EmptyString.

Definition escape_char (c : ascii) : string :=
  let n := Z.of_nat (nat_of_ascii c) in
  if n =? 34 then backslash +:+ dquote
  else if n =? 92 then backslash +:+ backslash
  else if n =? 8 then backslash +:+ "b"
  else if n =? 9 then backslash +:+ "t"
  else if n =? 10 then backslash +:+ "n"
  else if n =? 12 then backslash +:+ "f"
  else if n =? 13 then backslash +:+ "r"
  else if n <? 32 then backslash +:+ "u" +:+ hex4 n
  else String c EmptyString.

(** [QuoteJSONString]. *)
Definition quote (s : string) : string :=
  dquote +:+ String.concat EmptyString
               (map escape_char (list_ascii_of_string s))
         +:+ dquote.

Fixpoint fraction_digits (fuel : nat) (r d : Z) : string :=
  match fuel with
  | 0%nat => EmptyString
  | S fuel =>
      if r =? 0 then EmptyString
      else String (ascii_of_nat (48 + Z.to_nat (10 * r / d)))
             (fraction_digits fuel (10 * r mod d) d)
  end.

(** [Number.prototype.toString] on a number written as a decimal
    fraction: the integer part, then the digits of the fraction (at
    most 17, all of them when the expansion terminates earlier). *)
Definition numberToString (q : Q) : string :=
  let n := Qnum q in
  let d := Z.pos (Qden q) in
  let r := Z.abs n mod d in
  (if n <? 0 then "-" else EmptyString)
    +:+ Js.numberToString (Z.abs n / d)
    +:+ (if r =? 0 then EmptyString else "." +:+ fraction_digits 17 r d).

(** The value of the property [key], when there is one. *)
Definition lookup {V} (key : string) (props : list (string * V)) : option V :=
  (λ found, found.2.2) <$> list_find (λ kv, kv.1 = key) props.

(** [JSON.stringify(v, replacer)] with an optional array replacer.  The
    replacer's strings are the property list: every object, at every
    depth, is rendered with exactly the listed properties it has, in
    the order of the list.  Without a replacer an object is rendered
    with its own properties in enumeration order. *)
Fixpoint stringify (propertyList : option (list string)) (v : value)
  : string :=
  match v with
  | Null => "null"
  | Bool b => if b then "true" else "false"
  | Number q => numberToString q
  | Str s => quote s
  | Array items =>
      "[" +:+ String.concat "," (map (stringify propertyList) items)
          +:+ "]"
  | Object props =>
      let rendered :=
        map (λ kv, (fst kv, stringify propertyList (snd kv))) props in
      let keys := default (map fst props) propertyList in
      "{" +:+ String.concat ","
                (omap (λ k, (λ r, quote k +:+ ":" +:+ r)
                              <$> lookup k rendered) keys)
          +:+ "}"
  end.

(** [Object.keys(o)]. *)
Definition keys (v : value) : list string :=
  match v with
  | Object props => map fst props
  | _ => []
  end.

(** [o[key]], [Null] standing for an absent property. *)
Definition get (v : value) (key : string) : value :=
  match v with
  | Object props => default Null (lookup key props)
  | _ => Null
  end.

(** [Array.prototype.sort] on strings, without a comparator. *)
Definition sort_strings (l : list string) : list string :=
  merge_sort String.le l.

End Json.

(** ** The world of a handler: store, identifier source and clock *)

(** The state a write handler runs in.  [uuid_source] and [clock_source]
    are the values the successive calls of [uuidv4()] and of
    [new Date().toISOString()] return; the counters say how many have
    been read. *)
Record World := {
  db : Database;
  uuid_source : nat → string;
  uuid_reads : nat;
  clock_source : nat → string;
  clock_reads : nat
}.

(** What a handler's [try] block can throw. *)
Inductive Exception :=
  | ZodError
  | QueryError.

(** Computations that read and write the world and may throw. *)
Definition M (A : Type) : Type := World → (Exception + A) * World.

Global Instance M_ret : MRet M := λ A a w, (inr a, w).

Global Instance M_bind : MBind M := λ A B f m w,
  match m w with
  | (inr a, w') => f a w'
  | (inl e, w') => (inl e, w')
  end.

Definition throw {A} (e : Exception) : M A := λ w, (inl e, w).

(** [uuidv4()]. *)
Definition uuidv4 : M string := λ w,
  (inr (uuid_source w (uuid_reads w)),
   {| db := db w;
      uuid_source := uuid_source w; uuid_reads := S (uuid_reads w);
      clock_source := clock_source w; clock_reads := clock_reads w |}).

(** [new Date().toISOString()]. *)
Definition isoNow : M string := λ w,
  (inr (clock_source w (clock_reads w)),
   {| db := db w;
      uuid_source := uuid_source w; uuid_reads := uuid_reads w;
      clock_source := clock_source w; clock_reads := S (clock_reads w) |}).

(** [x || new Date().toISOString()]: the clock is read only when [x] is
    falsy. *)
Definition str_or_now (x : option string) : M string :=
  if Js.truthy x then mret (default EmptyString x) else isoNow.

Definition set_learning_events (rows : list LearningEventRow) (w : World)
  : World :=
  {| db := {| decisions := decisions (db w);
              approvals := approvals (db w);
              learning_events := rows |};
     uuid_source := uuid_source w; uuid_reads := uuid_reads w;
     clock_source := clock_source w; clock_reads := clock_reads w |}.

(** [SELECT ... FROM decisions WHERE id = $1]. *)
Definition select_decision (id : string) : M (list DecisionRecord) := λ w,
  (inr (filter (λ d, d_id d = id) (decisions (db w))), w).

(** [SELECT id FROM learning_events WHERE inputs_hash = $1 AND
    decision_type = $2]. *)
Definition select_learning_event_ids (inputs_hash decision_type : string)
  : M (list string) := λ w,
  (inr (le_id <$>
          filter (λ r, le_inputs_hash r = inputs_hash
                       ∧ le_decision_type r = decision_type)
            (learning_events (db w))), w).

(** Modelled from the spec: the schema of [learning_events] is not part
    of the sources; its unique index on [inputs_hash] is the one the
    statement [ON CONFLICT (inputs_hash)] names and the spec requires
    ("a uniqueness constraint on the fingerprint").  [hash_taken] is the
    index lookup. *)
Definition hash_taken (inputs_hash : string) (rows : list LearningEventRow)
  : bool :=
  bool_decide (inputs_hash ∈ le_inputs_hash <$> rows).

(** [INSERT INTO learning_events ... ON CONFLICT (inputs_hash) DO
    NOTHING]. *)
Definition insert_on_conflict_do_nothing (row : LearningEventRow) : M unit :=
  λ w,
  let rows := learning_events (db w) in
  if hash_taken (le_inputs_hash row) rows then (inr (), w)
  else (inr (), set_learning_events (rows ++ [row]) w).

(** [INSERT INTO learning_events ...]: a row whose fingerprint is taken
    violates the unique index and the statement throws. *)
Definition insert_row (row : LearningEventRow) : M unit := λ w,
  let rows := learning_events (db w) in
  if hash_taken (le_inputs_hash row) rows then (inl QueryError, w)
  else (inr (), set_learning_events (rows ++ [row]) w).

(** [x || d] on a number: zero is falsy. *)
Definition num_or (x : option Q) (d : Q) : Q :=
  match x with
  | Some q => if Qeq_bool q 0%Q then d else q
  | None => d
  end.

(** [s || null] as a JSON value. *)
Definition str_or_null (x : option string) : Json.value :=
  if Js.truthy x then Json.Str (default EmptyString x) else Json.Null.

(** ** POST /learning/learn *)

Module ApprovalLearning.

(** The request body, typed as [createApprovalLearningSchema] types it. *)
Record ApprovalLearningInput := {
  decision_id : option string;
  approved : bool;
  confidence_adjustment : option Q;
  reviewer_role : option string;
  review_scope : option string;
  artifact_type : option string;
  feedback : option string;
  timestamp : option string
}.

(** The constraints of [createApprovalLearningSchema] beyond the types:
    [decision_id] has at least one character and
    [confidence_adjustment] lies in [-1, 1]. *)
Definition schema_ok (body : ApprovalLearningInput) : bool :=
  match decision_id body with
  | Some EmptyString => false
  | _ => true
  end
  && match confidence_adjustment body with
     | Some a => Qle_bool (-1)%Q a && Qle_bool a 1%Q
     | None => true
     end.

(** Learning Decision Event structure. *)
Record LearningDecisionEvent := {
  id : string;
  agent_id : string;
  agent_version : string;
  decision_type : string;
  source_decision_id : option string;
  inputs : Json.value;
  inputs_hash : string;
  output : Json.value;
  confidence : Q;
  constraints_applied : Json.value;
  created_at : string
}.

(** The 201 body. *)
Record ApprovalLearningResponse := {
  r_id : string;
  r_decision_type : string;
  r_normalized_signal : Q;
  r_confidence : Q;
  r_inputs_hash : string;
  r_idempotent : bool;
  r_learning_applied : bool
}.

(** Normalize approval signal to -1 to +1 range. *)
Definition normalizeApprovalSignal (approved : bool)
    (confidence_adjustment : option Q) : Q :=
  let baseSignal : Q := (if approved then 1 else -1)%Q in
  match confidence_adjustment with
  | Some adjustment =>
      let adjustmentFactor := (1 + adjustment)%Q in
      Qmax (-1) (Qmin 1 (baseSignal * adjustmentFactor))%Q
  | None => baseSignal
  end.

(** [acc[key] = v]. *)
Fixpoint assign (props : list (string * Json.value)) (key : string)
    (v : Json.value) : list (string * Json.value) :=
  match props with
  | [] => [(key, v)]
  | (k, old) :: rest =>
      if decide (k = key) then (k, v) :: rest
      else (k, old) :: assign rest key v
  end.

(** Compute deterministic SHA-256 hash of inputs: the top-level keys are
    sorted and the object is rebuilt in that order before it is
    rendered. *)
Definition computeInputsHash (inputs : Json.value) : string :=
  let sortedKeys := Json.sort_strings (Json.keys inputs) in
  let deterministicJson :=
    Json.stringify None
      (Json.Object
         (foldl (λ acc key, assign acc key (Json.get inputs key))
            [] sortedKeys)) in
  Sha256.digest_hex deterministicJson.

(** The row of the INSERT of [emitLearningDecisionEvent]. *)
Definition rowOf (event : LearningDecisionEvent) : LearningEventRow :=
  {| le_id := id event;
     le_agent_id := agent_id event;
     le_agent_version := agent_version event;
     le_decision_type := decision_type event;
     le_source_id :=
       if Js.truthy (source_decision_id event)
       then source_decision_id event else None;
     le_outputs := Json.stringify None (output event);
     le_inputs_hash := inputs_hash event;
     le_confidence := confidence event;
     le_constraints_applied :=
       Json.stringify None (constraints_applied event);
     le_source_type := "approval_learning";
     le_created_at := created_at event |}.

(** Emit learning decision event via append-only INSERT. *)
Definition emitLearningDecisionEvent (event : LearningDecisionEvent)
  : M unit :=
  insert_on_conflict_do_nothing (rowOf event).

(** [reviewer_role && reviewer_role !== 'unknown']. *)
Definition role_known (reviewer_role : option string) : bool :=
  Js.truthy reviewer_role
  && negb (String.eqb (default EmptyString reviewer_role) "unknown").

(** The object built "for deterministic hashing"; [timestamp] is the
    value of [timestamp || new Date().toISOString()]. *)
Definition hashedInputs (validatedData : ApprovalLearningInput)
    (timestamp : string) : Json.value :=
  Json.Object
    [("decision_id", Json.Str (Js.str_or (decision_id validatedData) "none"));
     ("approved", Json.Bool (approved validatedData));
     ("confidence_adjustment",
       Json.Number (num_or (confidence_adjustment validatedData) 0%Q));
     ("reviewer_role",
       Json.Str (Js.str_or (reviewer_role validatedData) "unknown"));
     ("review_scope",
       Json.Str (Js.str_or (review_scope validatedData) "general"));
     ("artifact_type",
       Json.Str (Js.str_or (artifact_type validatedData) "unknown"));
     ("timestamp", Json.Str timestamp)].

(** Compute confidence based on signal strength and context
    availability. *)
Definition contextConfidence (normalizedSignal : Q)
    (sourceDecision : option DecisionRecord) (reviewer_role : option string)
  : Q :=
  let confidence := Qabs normalizedSignal in
  let confidence :=
    if bool_decide (is_Some sourceDecision)
    then Qmin 1 (confidence + 0.1)%Q else confidence in
  if role_known reviewer_role
  then Qmin 1 (confidence + 0.05)%Q else confidence.

(** The [output] object of the event. *)
Definition outputOf (validatedData : ApprovalLearningInput)
    (sourceDecision : option DecisionRecord) (normalizedSignal : Q)
  : Json.value :=
  Json.Object
    [("normalized_signal", Json.Number normalizedSignal);
     ("signal_type",
       Json.Str (if approved validatedData then "approval" else "rejection"));
     ("signal_strength", Json.Number (Qabs normalizedSignal));
     ("feedback", str_or_null (feedback validatedData));
     ("source_recommendation",
       str_or_null (d_recommendation <$> sourceDecision));
     ("source_confidence", str_or_null (d_confidence <$> sourceDecision))].

(** Build constraints applied metadata. *)
Definition constraintsAppliedOf (validatedData : ApprovalLearningInput)
    (sourceDecision : option DecisionRecord) : Json.value :=
  Json.Object
    [("reviewer_role",
       Json.Str (Js.str_or (reviewer_role validatedData) "unknown"));
     ("review_scope",
       Json.Str (Js.str_or (review_scope validatedData) "general"));
     ("artifact_type",
       Json.Str (Js.str_or (artifact_type validatedData) "unknown"));
     ("has_source_context", Json.Bool (bool_decide (is_Some sourceDecision)));
     ("has_feedback", Json.Bool (Js.truthy (feedback validatedData)))].

(** Create learning decision event. *)
Definition learningEventOf (validatedData : ApprovalLearningInput)
    (sourceDecision : option DecisionRecord)
    (inputs_timestamp eventId created_at : string) : LearningDecisionEvent :=
  let normalizedSignal :=
    normalizeApprovalSignal (approved validatedData)
      (confidence_adjustment validatedData) in
  let inputs := hashedInputs validatedData inputs_timestamp in
  {| id := eventId;
     agent_id := "approval-learning-agent";
     agent_version := "1.0.0";
     decision_type := "approval_learning";
     source_decision_id := decision_id validatedData;
     inputs := inputs;
     inputs_hash := computeInputsHash inputs;
     output := outputOf validatedData sourceDecision normalizedSignal;
     confidence :=
       contextConfidence normalizedSignal sourceDecision
         (reviewer_role validatedData);
     constraints_applied := constraintsAppliedOf validatedData sourceDecision;
     created_at := created_at |}.

(** The JSON body of the 201 response: the handler's [eventId],
    [normalizedSignal], [confidence] and [inputsHash]. *)
Definition responseOf (validatedData : ApprovalLearningInput)
    (learningEvent : LearningDecisionEvent) : ApprovalLearningResponse :=
  {| r_id := id learningEvent;
     r_decision_type := "approval_learning";
     r_normalized_signal :=
       normalizeApprovalSignal (approved validatedData)
         (confidence_adjustment validatedData);
     r_confidence := confidence learningEvent;
     r_inputs_hash := inputs_hash learningEvent;
     r_idempotent := true;
     r_learning_applied := true |}.

(** Load source decision if provided. *)
Definition loadSourceDecision (decision_id : option string)
  : M (option DecisionRecord) :=
  if Js.truthy decision_id then
    rows ← select_decision (default EmptyString decision_id);
    mret (head rows)
  else mret None.

(** The body of the handler's [try] block, in the order of its effects:
    the schema, the source decision, the clock for the hashed inputs, the
    identifier, the clock for [created_at], the INSERT. *)
Definition handle (body : ApprovalLearningInput)
  : M ApprovalLearningResponse :=
  validatedData ← (if schema_ok body then mret body else throw ZodError);
  sourceDecision ← loadSourceDecision (decision_id validatedData);
  inputs_timestamp ← str_or_now (timestamp validatedData);
  eventId ← uuidv4;
  created_at ← str_or_now (timestamp validatedData);
  let learningEvent :=
    learningEventOf validatedData sourceDecision inputs_timestamp eventId
      created_at in
  emitLearningDecisionEvent learningEvent;;
  mret (responseOf validatedData learningEvent).

(** POST /learn/approval - Approval Learning Agent endpoint: the [try]
    block, with a [ZodError] answered by 400 and every other error by
    500. *)
Definition createApprovalLearningHandler (body : ApprovalLearningInput)
    (w : World) : HttpResponse ApprovalLearningResponse * World :=
  match handle body w with
  | (inr response, w') => (Status201 response, w')
  | (inl ZodError, w') => (Status400, w')
  | (inl QueryError, w') => (Status500, w')
  end.

End ApprovalLearning.

(** ** POST /learning/assimilate *)

Module FeedbackAssimilation.

Record FeedbackSignal := {
  dimension : string;
  value : Q;
  confidence : Q
}.

(** The members of [z.enum(['qualitative', 'quantitative', 'mixed'])]. *)
Inductive FeedbackType :=
  | qualitative
  | quantitative
  | mixed.

Definition feedback_type_tag (t : FeedbackType) : string :=
  match t with
  | qualitative => "qualitative"
  | quantitative => "quantitative"
  | mixed => "mixed"
  end.

Record AssimilationMetadata := {
  feedback_source : string;
  processing_method : string
}.

(** The request body, typed as [createFeedbackAssimilationSchema] types
    it.  [outputs] and [constraints_applied] are [z.object({})]: when
    present they are validated to the empty object. *)
Record FeedbackAssimilationInput := {
  in_agent_id : option string;
  in_agent_version : option string;
  in_source_artifact_id : string;
  in_feedback_type : FeedbackType;
  in_raw_feedback : string;
  in_normalized_signals : option (list FeedbackSignal);
  in_assimilation_metadata : AssimilationMetadata;
  in_outputs : option unit;
  in_confidence : option Q;
  in_constraints_applied : option unit;
  in_execution_ref : option string;
  in_inputs_hash : option string;
  in_timestamp : option string
}.

Definition in_range (lo hi x : Q) : bool := Qle_bool lo x && Qle_bool x hi.

(** The constraints of [createFeedbackAssimilationSchema] beyond the
    types. *)
Definition schema_ok (body : FeedbackAssimilationInput) : bool :=
  negb (String.eqb (in_source_artifact_id body) EmptyString)
  && negb (String.eqb (in_raw_feedback body) EmptyString)
  && forallb (λ s, in_range (-1) 1 (value s) && in_range 0 1 (confidence s))
       (default [] (in_normalized_signals body))
  && match in_confidence body with
     | Some c => in_range 0 1 c
     | None => true
     end.

Record FeedbackAssimilationEvent := {
  agent_id : string;
  agent_version : string;
  decision_type : string;
  source_artifact_id : string;
  feedback_type : FeedbackType;
  raw_feedback : string;
  normalized_signals : list FeedbackSignal;
  assimilation_metadata : AssimilationMetadata;
  inputs_hash : string;
  outputs : Json.value;
  event_confidence : Q;
  constraints_applied : Json.value;
  execution_ref : string;
  timestamp : string
}.

(** The 201 body. *)
Record CreateFeedbackAssimilationResponse := {
  r_id : string;
  r_agent_id : string;
  r_decision_type : string;
  r_source_artifact_id : string;
  r_feedback_type : FeedbackType;
  r_normalized_signals_count : nat;
  r_created : bool;
  r_timestamp : string
}.

(** Compute SHA-256 hash of inputs for idempotency: the sorted top-level
    keys are handed to [JSON.stringify] as its replacer. *)
Definition computeInputsHash (inputs : Json.value) : string :=
  let sortedJson :=
    Json.stringify (Some (Json.sort_strings (Json.keys inputs))) inputs in
  Sha256.digest_hex sortedJson.

Record StructuredRatings := {
  quality : option Q;
  clarity : option Q;
  accuracy : option Q;
  completeness : option Q
}.

Definition positiveKeywords : list string :=
  ["excellent"; "great"; "good"; "clear"; "accurate"; "complete";
   "well-done"].

Definition negativeKeywords : list string :=
  ["poor"; "bad"; "unclear"; "inaccurate"; "incomplete"; "confusing";
   "missing"].

(** [keywords.filter(kw => lowerText.includes(kw)).length]. *)
Definition keywordCount (keywords : list string) (lowerText : string) : Z :=
  Z.of_nat (length (filter (λ kw, Js.includes lowerText kw = true) keywords)).

(** The [switch] on the feedback type. *)
Definition baseSentiment (feedbackType : string) : Q :=
  if String.eqb feedbackType "approval" then 0.8
  else if String.eqb feedbackType "rejection" then -0.8
  else if String.eqb feedbackType "suggestion" then 0.3
  else if String.eqb feedbackType "critique" then -0.3
  else if String.eqb feedbackType "rating" then 0
  else 0.

(** Derive sentiment value from feedback type and text analysis. *)
Definition deriveSentimentFromFeedbackType (feedbackType rawFeedback : string)
  : Q :=
  let sentiment := baseSentiment feedbackType in
  let lowerText := Js.toLowerCase rawFeedback in
  let positiveCount := keywordCount positiveKeywords lowerText in
  let negativeCount := keywordCount negativeKeywords lowerText in
  let keywordAdjustment :=
    (inject_Z (positiveCount - negativeCount) * 0.2)%Q in
  Qmax (-1) (Qmin 1 (sentiment + keywordAdjustment)%Q).

(** [if (r.dim !== undefined) signals.push(...)]. *)
Definition rated (dim : string) (rating : option Q) : list FeedbackSignal :=
  match rating with
  | Some v => [{| dimension := dim; value := v; confidence := 1 |}]
  | None => []
  end.

(** Parse feedback dimensions from structured ratings and text
    analysis. *)
Definition parseFeedbackDimensions (rawFeedback feedbackType : string)
    (structuredRatings : option StructuredRatings) : list FeedbackSignal :=
  let signals :=
    match structuredRatings with
    | Some r =>
        rated "quality" (quality r) ++ rated "clarity" (clarity r)
          ++ rated "accuracy" (accuracy r)
          ++ rated "completeness" (completeness r)
    | None => []
    end in
  match signals with
  | [] =>
      let sentimentValue :=
        deriveSentimentFromFeedbackType feedbackType rawFeedback in
      let confidence := 0.6%Q in
      [{| dimension := "quality"; value := sentimentValue;
          confidence := confidence |};
       {| dimension := "clarity"; value := sentimentValue;
          confidence := confidence |};
       {| dimension := "accuracy"; value := sentimentValue;
          confidence := confidence |};
       {| dimension := "completeness"; value := sentimentValue;
          confidence := confidence |}]
  | _ => signals
  end.

Definition nat_to_Q (n : nat) : Q := inject_Z (Z.of_nat n).

(** [l.reduce((sum, s) => sum + f(s), 0) / l.length]. *)
Definition average (f : FeedbackSignal → Q) (l : list FeedbackSignal) : Q :=
  (foldl (λ sum s, sum + f s) 0 l / nat_to_Q (length l))%Q.

Record ProcessingMetadata := {
  method : string;
  dimensions_extracted : nat;
  had_structured_ratings : bool;
  feedback_length : nat;
  avg_signal_value : Q
}.

Record Normalized := {
  n_normalized_signals : list FeedbackSignal;
  n_feedback_summary : string;
  n_processing_metadata : ProcessingMetadata
}.

Definition nat_to_string (n : nat) : string :=
  Js.numberToString (Z.of_nat n).

(** Normalize feedback into machine-readable structured signals. *)
Definition normalizeFeedback (rawFeedback feedbackType : string)
    (structuredRatings : option StructuredRatings) : Normalized :=
  let normalizedSignals :=
    parseFeedbackDimensions rawFeedback feedbackType structuredRatings in
  let avgValue := average value normalizedSignals in
  let sentiment :=
    if negb (Qle_bool avgValue 0.3) then "positive"
    else if negb (Qle_bool (-0.3) avgValue) then "negative"
    else "neutral" in
  let feedbackSummary :=
    feedbackType +:+ " feedback with " +:+ sentiment +:+ " sentiment ("
      +:+ nat_to_string (length normalizedSignals) +:+ " dimensions)" in
  {| n_normalized_signals := normalizedSignals;
     n_feedback_summary := feedbackSummary;
     n_processing_metadata :=
       {| method := "heuristic-sentiment-analysis";
          dimensions_extracted := length normalizedSignals;
          had_structured_ratings := bool_decide (is_Some structuredRatings);
          feedback_length := String.length rawFeedback;
          avg_signal_value := avgValue |} |}.

(** The row of the INSERT of [emitLearningEvent]. *)
Definition rowOf (event : FeedbackAssimilationEvent)
    (eventId created_at : string) : LearningEventRow :=
  {| le_id := eventId;
     le_agent_id := agent_id event;
     le_agent_version := agent_version event;
     le_decision_type := decision_type event;
     le_source_id := Some (source_artifact_id event);
     le_outputs := Json.stringify None (outputs event);
     le_inputs_hash := inputs_hash event;
     le_confidence := event_confidence event;
     le_constraints_applied :=
       Json.stringify None (constraints_applied event);
     le_source_type := "feedback_assimilation";
     le_created_at := created_at |}.

(** Emit learning event to database (append-only): look the fingerprint
    up, return the id found, otherwise insert under a new id. *)
Definition emitLearningEvent (event : FeedbackAssimilationEvent) : M string :=
  existing ←
    select_learning_event_ids (inputs_hash event) (decision_type event);
  match existing with
  | existing_id :: _ => mret existing_id
  | [] =>
      eventId ← uuidv4;
      created_at ← isoNow;
      insert_row (rowOf event eventId created_at);;
      mret eventId
  end.

Definition signal_json (s : FeedbackSignal) : Json.value :=
  Json.Object
    [("dimension", Json.Str (dimension s));
     ("value", Json.Number (value s));
     ("confidence", Json.Number (confidence s))].

(** Normalize feedback into structured signals if not provided: the
    signals, the aggregate confidence and the processing method. *)
Definition normalizedOf (validatedData : FeedbackAssimilationInput)
  : list FeedbackSignal * Q * string :=
  match in_normalized_signals validatedData with
  | Some (s :: rest) =>
      let providedSignals := s :: rest in
      (providedSignals,
       num_or (in_confidence validatedData)
         (average confidence providedSignals),
       processing_method (in_assimilation_metadata validatedData))
  | _ =>
      let normalized :=
        normalizeFeedback (in_raw_feedback validatedData)
          (feedback_type_tag (in_feedback_type validatedData)) None in
      (n_normalized_signals normalized,
       average confidence (n_normalized_signals normalized),
       method (n_processing_metadata normalized))
  end.

(** Prepare inputs for hash computation (deterministic). *)
Definition hashedInputs (validatedData : FeedbackAssimilationInput)
  : Json.value :=
  Json.Object
    [("source_artifact_id", Json.Str (in_source_artifact_id validatedData));
     ("feedback_type",
       Json.Str (feedback_type_tag (in_feedback_type validatedData)));
     ("raw_feedback", Json.Str (in_raw_feedback validatedData));
     ("feedback_source",
       Json.Str (feedback_source (in_assimilation_metadata validatedData)))].

(** [providedHash || computeInputsHash(inputs)]. *)
Definition inputsHashOf (validatedData : FeedbackAssimilationInput) : string :=
  if Js.truthy (in_inputs_hash validatedData)
  then default EmptyString (in_inputs_hash validatedData)
  else computeInputsHash (hashedInputs validatedData).

(** Create outputs object. *)
Definition outputsOf (validatedData : FeedbackAssimilationInput) : Json.value :=
  let '(normalizedSignals, _, processingMethod) :=
    normalizedOf validatedData in
  match in_outputs validatedData with
  | Some _ => Json.Object []
  | None =>
      Json.Object
        [("normalized_signals",
           Json.Array (signal_json <$> normalizedSignals));
         ("feedback_summary",
           Json.Str (feedback_type_tag (in_feedback_type validatedData)
                     +:+ " feedback with "
                     +:+ nat_to_string (length normalizedSignals)
                     +:+ " dimensions"));
         ("processing_metadata",
           Json.Object
             [("method", Json.Str processingMethod);
              ("dimensions_extracted",
                Json.Number (nat_to_Q (length normalizedSignals)));
              ("feedback_length",
                Json.Number
                  (nat_to_Q
                     (String.length (in_raw_feedback validatedData))))])]
  end.

(** Create constraints_applied object. *)
Definition constraintsAppliedOf (validatedData : FeedbackAssimilationInput)
  : Json.value :=
  match in_constraints_applied validatedData with
  | Some _ => Json.Object []
  | None =>
      Json.Object
        [("feedback_source",
           Json.Str
             (feedback_source (in_assimilation_metadata validatedData)));
         ("processing_method", Json.Str (normalizedOf validatedData).2)]
  end.

(** Create feedback assimilation event. *)
Definition learningEventOf (validatedData : FeedbackAssimilationInput)
    (eventTimestamp execution_ref : string) : FeedbackAssimilationEvent :=
  {| agent_id :=
       default "feedback-assimilation-agent" (in_agent_id validatedData);
     agent_version := default "1.0.0" (in_agent_version validatedData);
     decision_type := "feedback_assimilation";
     source_artifact_id := in_source_artifact_id validatedData;
     feedback_type := in_feedback_type validatedData;
     raw_feedback := in_raw_feedback validatedData;
     normalized_signals := (normalizedOf validatedData).1.1;
     assimilation_metadata := in_assimilation_metadata validatedData;
     inputs_hash := inputsHashOf validatedData;
     outputs := outputsOf validatedData;
     event_confidence := (normalizedOf validatedData).1.2;
     constraints_applied := constraintsAppliedOf validatedData;
     execution_ref := execution_ref;
     timestamp := eventTimestamp |}.

(** Build response following CreateFeedbackAssimilationResponse spec. *)
Definition responseOf (validatedData : FeedbackAssimilationInput)
    (storedEventId eventTimestamp : string)
  : CreateFeedbackAssimilationResponse :=
  {| r_id := storedEventId;
     r_agent_id :=
       default "feedback-assimilation-agent" (in_agent_id validatedData);
     r_decision_type := "feedback_assimilation";
     r_source_artifact_id := in_source_artifact_id validatedData;
     r_feedback_type := in_feedback_type validatedData;
     r_normalized_signals_count := length (normalizedOf validatedData).1.1;
     r_created := true;
     r_timestamp := eventTimestamp |}.

(** [execution_ref || `exec-${uuidv4()}`]: an identifier is drawn only
    when no reference is given. *)
Definition executionRefOf (execution_ref : option string) : M string :=
  if Js.truthy execution_ref then mret (default EmptyString execution_ref)
  else u ← uuidv4; mret ("exec-" +:+ u).

(** The body of the handler's [try] block, in the order of its effects:
    the schema, the clock for the event timestamp, the identifier of the
    execution reference, then [emitLearningEvent]. *)
Definition handle (body : FeedbackAssimilationInput)
  : M CreateFeedbackAssimilationResponse :=
  validatedData ← (if schema_ok body then mret body else throw ZodError);
  eventTimestamp ← str_or_now (in_timestamp validatedData);
  execution_ref ← executionRefOf (in_execution_ref validatedData);
  let learningEvent :=
    learningEventOf validatedData eventTimestamp execution_ref in
  storedEventId ← emitLearningEvent learningEvent;
  mret (responseOf validatedData storedEventId eventTimestamp).

(** POST /learning/assimilate - Process feedback and emit learning
    signal: the [try] block, with a [ZodError] answered by 400 and every
    other error by 500. *)
Definition createFeedbackAssimilationHandler
    (body : FeedbackAssimilationInput) (w : World)
  : HttpResponse CreateFeedbackAssimilationResponse * World :=
  match handle body w with
  | (inr response, w') => (Status201 response, w')
  | (inl ZodError, w') => (Status400, w')
  | (inl QueryError, w') => (Status500, w')
  end.

End FeedbackAssimilation.

(** * Specification-side definitions

    The notions the properties below are stated with. *)

(** [x] forced into the interval from [lo] to [hi]. *)
Definition clamp (lo hi x : Q) : Q :=
  if Qlt_le_dec x lo then lo else if Qlt_le_dec hi x then hi else x.

Section ApprovalLearningNotions.
Import ApprovalLearning.

(** The confidence of an approval as the spec words it: the strength of
    the signal, plus 0.10 when a source record was found, plus 0.05 when
    the reviewer's role is known, capped at 1 after each addition. *)
Definition confidence_spec (signal : Q) (found known : bool) : Q :=
  let c0 := Qabs signal in
  let c1 := if found then Qmin 1 (c0 + 0.1) else c0 in
  if known then Qmin 1 (c1 + 0.05) else c1.

(** A source decision record is found when a decision id is given and a
    row of [decisions] carries it. *)
Definition source_found (body : ApprovalLearningInput) (w : World) : bool :=
  match decision_id body with
  | Some i => bool_decide (i ≠ EmptyString ∧ i ∈ d_id <$> decisions (db w))
  | None => false
  end.

(** The reviewer's role is known when it is given, not empty and not the
    placeholder. *)
Definition reviewer_known (body : ApprovalLearningInput) : bool :=
  match reviewer_role body with
  | Some r => bool_decide (r ≠ EmptyString ∧ r ≠ "unknown")
  | None => false
  end.

(** A rejection, damped by half, of a decision that is on record, by a
    reviewer whose role is given. *)
Definition sample_rejection : ApprovalLearningInput :=
  {| decision_id := Some "d1"; approved := false;
     confidence_adjustment := Some (-0.5)%Q;
     reviewer_role := Some "lead"; review_scope := None;
     artifact_type := None; feedback := None;
     timestamp := Some "2024-01-01T00:00:00.000Z" |}.

(** A world whose store holds the decision [d1]. *)
Definition world_with_decision : World :=
  {| db := {| decisions :=
                [{| d_id := "d1"; d_objective := "o";
                    d_recommendation := "r"; d_confidence := "0.9";
                    d_command := "c"; d_raw_output_hash := "h";
                    d_created_at := 10000 |}];
              approvals := []; learning_events := [] |};
     uuid_source := λ n, "u" +:+ Js.numberToString (Z.of_nat n);
     uuid_reads := 0;
     clock_source := λ n, "t" +:+ Js.numberToString (Z.of_nat n);
     clock_reads := 0 |}.

(** The source decision the handler loads in world [w]. *)
Definition sourceDecisionOf (body : ApprovalLearningInput) (w : World)
  : option DecisionRecord :=
  if Js.truthy (decision_id body)
  then head (filter (λ d, d_id d = default EmptyString (decision_id body))
               (decisions (db w)))
  else None.

(** The timestamp that enters the fingerprint in world [w]. *)
Definition inputsTimestampOf (body : ApprovalLearningInput) (w : World)
  : string :=
  if Js.truthy (timestamp body) then default EmptyString (timestamp body)
  else clock_source w (clock_reads w).

(** The fingerprint of a request handled in world [w]. *)
Definition fingerprintOf (body : ApprovalLearningInput) (w : World) : string :=
  computeInputsHash (hashedInputs body (inputsTimestampOf body w)).

End ApprovalLearningNotions.

Section FeedbackAssimilationNotions.
Import FeedbackAssimilation.

(** The fixed table from feedback type to base sentiment. *)
Definition base_sentiment_table : list (string * Q) :=
  [("approval", 0.8); ("rejection", -0.8); ("suggestion", 0.3);
   ("critique", -0.3); ("rating", 0)]%Q.

(** The base sentiment of a type: its entry in the table, 0 for a type
    the table does not list. *)
Fixpoint table_lookup (table : list (string * Q)) (feedbackType : string)
  : Q :=
  match table with
  | [] => 0
  | (t, v) :: rest =>
      if decide (t = feedbackType) then v else table_lookup rest feedbackType
  end.

(** The number of positive, and of negative, keywords that occur in the
    lower-cased text. *)
Definition positive_count (rawFeedback : string) : Z :=
  keywordCount positiveKeywords (Js.toLowerCase rawFeedback).

Definition negative_count (rawFeedback : string) : Z :=
  keywordCount negativeKeywords (Js.toLowerCase rawFeedback).

(** The sentiment as the spec words it. *)
Definition sentiment_spec (feedbackType rawFeedback : string) : Q :=
  clamp (-1) 1
    (table_lookup base_sentiment_table feedbackType
     + inject_Z (positive_count rawFeedback - negative_count rawFeedback)
       * 0.2).

(** The one value [v] on each of the four dimensions, at confidence
    0.6. *)
Definition replicated (v : Q) : list FeedbackSignal :=
  [{| dimension := "quality"; value := v; confidence := 0.6 |};
   {| dimension := "clarity"; value := v; confidence := 0.6 |};
   {| dimension := "accuracy"; value := v; confidence := 0.6 |};
   {| dimension := "completeness"; value := v; confidence := 0.6 |}].

(** Structured ratings that rate no dimension. *)
Definition no_ratings : StructuredRatings :=
  {| quality := None; clarity := None; accuracy := None;
     completeness := None |}.

End FeedbackAssimilationNotions.

(** ** A sample locale

    Letters in alphabetical order, a lower-case letter right before its
    capital, after every other character; the other characters by their
    codes. *)

Definition collation_rank (c : ascii) : N :=
  let n := N_of_ascii c in
  if (97 <=? n)%N && (n <=? 122)%N then (256 + 2 * (n - 97))%N
  else if (65 <=? n)%N && (n <=? 90)%N then (257 + 2 * (n - 65))%N
  else n.

(** The ranks of the characters of a text, and the order of two texts
    by the first rank in which they differ; a text sorts after its
    proper prefixes. *)
Fixpoint collation_ranks (s : string) : list N :=
  match s with
  | EmptyString => []
  | String c s' => collation_rank c :: collation_ranks s'
  end.

Fixpoint by_first_difference (k l : list N) : comparison :=
  match k with
  | [] => if l is [] then Eq else Lt
  | x :: k' =>
      match l with
      | [] => Gt
      | y :: l' =>
          if decide (x = y) then by_first_difference k' l'
          else if decide (x < y)%N then Lt else Gt
      end
  end.

Definition alphabetical (a b : string) : comparison :=
  by_first_difference (collation_ranks a) (collation_ranks b).

Definition sign_of (c : comparison) : Z :=
  match c with
  | Lt => -1
  | Eq => 0
  | Gt => 1
  end.

Lemma by_first_difference_flip k l :
  by_first_difference l k = CompOpp (by_first_difference k l).
Proof.
  revert l. induction k as [|x k IH]; intros [|y l]; try reflexivity.
  cbn [by_first_difference].
  repeat case_decide; first [apply IH|reflexivity|lia].
Qed.

Lemma by_first_difference_trans k l m :
  by_first_difference k l ≠ Gt → by_first_difference l m ≠ Gt →
  by_first_difference k m ≠ Gt.
Proof.
  revert l m. induction k as [|x k IH]; intros [|y l] [|z m]; try done.
  cbn [by_first_difference].
  repeat case_decide; first [apply IH|done|lia].
Qed.

Lemma alphabetical_flip a b : alphabetical b a = CompOpp (alphabetical a b).
Proof. apply by_first_difference_flip. Qed.

Lemma alphabetical_trans a b c :
  alphabetical a b ≠ Gt → alphabetical b c ≠ Gt → alphabetical a c ≠ Gt.
Proof. apply by_first_difference_trans. Qed.

Definition sample_locale : Js.Locale.
Proof.
  refine {| Js.localeCompare := λ a b, sign_of (alphabetical a b) |}.
  - intros a b. rewrite alphabetical_flip. by destruct (alphabetical a b).
  - intros a b c Hab Hbc.
    pose proof (alphabetical_trans a b c) as Htrans.
    destruct (alphabetical a b), (alphabetical b c), (alphabetical a c);
      cbn [sign_of] in *; try lia; exfalso; by apply Htrans.
Defined.

(** ** A sample collation: text by code units *)

Lemma ltb_irreflexive a : String.ltb a a = false.
Proof.
  unfold String.ltb. pose proof (String.compare_antisym a a) as Hflip.
  destruct (String.compare a a); try reflexivity; discriminate.
Qed.

Lemma ltb_le a b : String.ltb a b = true → String.le a b ∧ a ≠ b.
Proof.
  intros Hab. split.
  - unfold String.le, String.leb. unfold String.ltb in Hab.
    by destruct (String.compare a b).
  - intros ->. by rewrite ltb_irreflexive in Hab.
Qed.

Lemma ltb_transitive a b c :
  String.ltb a b = true → String.ltb b c = true → String.ltb a c = true.
Proof.
  intros [Hab Hne]%ltb_le [Hbc Hne']%ltb_le.
  assert (String.le a c) as Hac by (by etrans).
  unfold String.ltb. destruct (String.compare a c) eqn:Hcmp.
  - apply String.compare_eq_iff in Hcmp as ->.
    destruct Hne. by apply (anti_symm String.le).
  - reflexivity.
  - unfold String.le, String.leb in Hac. by rewrite Hcmp in Hac.
Qed.

Definition code_units : Collation :=
  {| text_lt := String.ltb;
     text_lt_irrefl := ltb_irreflexive;
     text_lt_trans := ltb_transitive |}.

Section DecisionEventsNotions.
Import DecisionEvents.
Context `{!Collation} `{!Js.Locale}.

(** The cursor of a request binds: there is none, or the store can read
    its [Date].  Otherwise the queries are rejected. *)
Definition cursor_binds (c : option Cursor) : Prop :=
  match c with
  | Some c => readable_date (c_timestamp c) = true
  | None => True
  end.

Global Instance cursor_binds_dec c : Decision (cursor_binds c).
Proof. destruct c; simpl; apply _. Defined.

(** The events the two queries of a request select, before they are
    sorted and cut. *)
Definition selected_events (eventTypes : option (list DecisionEventType))
    (c : option Cursor) (parsedLimit : Z) (db : Database)
  : list DecisionEvent :=
  (if includes_type eventTypes plan_created then
     created_event <$>
       select_ordered decision_key
         (λ row, cursor_cond c (d_created_at row) (d_id row))
         parsedLimit (decisions db)
   else [])
  ++ (if includes_type eventTypes plan_approved
         || includes_type eventTypes plan_rejected
         || includes_type eventTypes plan_deferred then
        reviewed_event <$>
          select_ordered approval_key
            (λ row,
               approval_filter (includes_type eventTypes plan_approved)
                 (includes_type eventTypes plan_rejected) (a_approved row.1)
               && cursor_cond c (a_created_at row.1) (a_id row.1))
            parsedLimit (approvals_join db)
      else []).

(** The response to a query whose type filter selects no decision rows
    and puts no condition on [a.approved]. *)
Definition reviews_page (after limit : option string) (db : Database)
  : list DecisionEvent :=
  take (Z.to_nat (parseLimit limit))
    (sortEvents
       (reviewed_event <$>
          select_ordered approval_key
            (λ row, true && cursor_cond (cursorParts after)
                              (a_created_at row.1) (a_id row.1))
            (parseLimit limit) (approvals_join db))).

(** A store with three decisions and two reviews, at five distinct
    instants, each a whole number of milliseconds. *)
Definition sample_db : Database :=
  {| decisions :=
       [{| d_id := "d1"; d_objective := "o1"; d_recommendation := "r1";
           d_confidence := "0.9"; d_command := "c1";
           d_raw_output_hash := "h1"; d_created_at := 10000 |};
        {| d_id := "d2"; d_objective := "o2"; d_recommendation := "r2";
           d_confidence := "0.8"; d_command := "c2";
           d_raw_output_hash := "h2"; d_created_at := 30000 |};
        {| d_id := "d3"; d_objective := "o3"; d_recommendation := "r3";
           d_confidence := "0.7"; d_command := "c3";
           d_raw_output_hash := "h3"; d_created_at := 50000 |}];
     approvals :=
       [{| a_id := "a1"; a_decision_id := "d1"; a_approved := true;
           a_reward := 1; a_confidence_adjustment := None;
           a_created_at := 20000 |};
        {| a_id := "a2"; a_decision_id := "d2"; a_approved := false;
           a_reward := -1; a_confidence_adjustment := Some 0.5%Q;
           a_created_at := 40000 |}];
     learning_events := [] |}.

(** The event of the first review of [sample_db]. *)
Definition sample_review : DecisionEvent :=
  {| id := "plan_approved:a1:20";
     type := plan_approved;
     timestamp := 20;
     payload :=
       ReviewedPayload "d1" "d1" "d1" "o1" "r1" 1 None "approved" |}.

(** The colon-separated segments of a cursor. *)
Definition segments (cursor : string) : list string := Js.split ":" cursor.

(** The segments between the first and the last. *)
Definition middle_segments (parts : list string) : list string :=
  take (length parts - 2) (drop 1 parts).

Definition is_digit (c : ascii) : bool :=
  let n := nat_of_ascii c in (48 <=? n)%nat && (n <=? 57)%nat.

Fixpoint all_digits (s : string) : bool :=
  match s with
  | EmptyString => true
  | String c s' => is_digit c && all_digits s'
  end.

Fixpoint all_white (s : string) : bool :=
  match s with
  | EmptyString => true
  | String c s' => Js.is_white c && all_white s'
  end.

(** A segment is numeric, as the spec has it, when it is a decimal
    numeral: one or more digits, possibly after a minus sign. *)
Definition numeric (s : string) : bool :=
  match s with
  | String "-" (String c r) => all_digits (String c r)
  | String c r => all_digits (String c r)
  | EmptyString => false
  end.

(** A cursor fails to parse, as the spec has it, when it has fewer than
    three segments or its last segment is not numeric. *)
Definition malformed (cursor : string) : Prop :=
  (length (segments cursor) < 3)%nat
  ∨ numeric (List.last (segments cursor) EmptyString) = false.

(** The text begins with a number: white space, at most one sign, and
    then a decimal digit. *)
Definition begins_with_number (s : string) : Prop :=
  ∃ white sign d rest,
    s = white +:+ sign +:+ String d rest
    ∧ all_white white = true
    ∧ (sign = "" ∨ sign = "+" ∨ sign = "-")
    ∧ is_digit d = true.

(** A cursor fails to parse, as the code has it, when it has fewer than
    three segments or its last segment does not begin with a number. *)
Definition unparsable (cursor : string) : Prop :=
  (length (segments cursor) < 3)%nat
  ∨ ¬ begins_with_number (List.last (segments cursor) EmptyString).

(** The page size as the spec words it: the limit forced into the
    interval from 1 to 1000, and 100 without a limit. *)
Definition page_size_spec (limit : option Z) : Z :=
  match limit with
  | Some n => Z.min (Z.max n 1) 1000
  | None => 100
  end.

End DecisionEventsNotions.

(** [c] occurs in [s]. *)
Fixpoint contains_char (c : ascii) (s : string) : bool :=
  match s with
  | EmptyString => false
  | String c' s' => Ascii.eqb c' c || contains_char c s'
  end.

(** [a] comes strictly before [b] by the integer key [k]. *)
Definition key_lt {A} (k : A → Z) (a b : A) : Prop := k a < k b.

Section PaginationNotions.
Import DecisionEvents.
Context `{!Collation} `{!Js.Locale}.

(** Every event of the feed: one per row of [decisions] and one per
    joined row of [approvals]. *)
Definition allEvents (db : Database) : list DecisionEvent :=
  (created_event <$> decisions db) ++ (reviewed_event <$> approvals_join db).

(** The instant [t] lies after the cursor, when there is one. *)
Definition ts_after (c : option Cursor) (t : Z) : Prop :=
  match c with
  | None => True
  | Some c => c_timestamp c < t
  end.

Global Instance ts_after_dec c t : Decision (ts_after c t).
Proof. destruct c; simpl; apply _. Defined.

(** A cursor that names its row: a row created within the cursor's
    millisecond has the cursor's row id and was created at the start of
    that millisecond. *)
Definition cursor_names_row (c : option Cursor) (db : Database) : Prop :=
  match c with
  | None => True
  | Some c =>
      (∀ d, d ∈ decisions db → dateOf (d_created_at d) = c_timestamp c →
            d_id d = c_id c
            ∧ d_created_at d = timestampOf (c_timestamp c))
      ∧ (∀ j, j ∈ approvals_join db →
              dateOf (a_created_at j.1) = c_timestamp c →
              a_id j.1 = c_id c
              ∧ a_created_at j.1 = timestampOf (c_timestamp c))
  end.

(** Every row of the store was created at a whole number of
    milliseconds. *)
Definition whole_milliseconds (db : Database) : Prop :=
  (∀ d, d ∈ decisions db → (1000 | d_created_at d))
  ∧ (∀ a, a ∈ approvals db → (1000 | a_created_at a)).

(** Every row of the store was created at an instant the store reads
    back from a [Date]. *)
Definition readable_dates (db : Database) : Prop :=
  (∀ d, d ∈ decisions db → readable_date (dateOf (d_created_at d)) = true)
  ∧ (∀ a, a ∈ approvals db →
          readable_date (dateOf (a_created_at a)) = true).

(** A poll with a page size of 2 and no type filter. *)
Definition poll (db : Database) (after : option string)
  : HttpResponse DecisionEventsResponse :=
  listDecisionEventsHandler
    {| types := None; after := after; limit := Some "2" |} db.

Definition events_of (r : HttpResponse DecisionEventsResponse)
  : list DecisionEvent :=
  match r with
  | Status200 body => events body
  | _ => []
  end.

Definition next_cursor_of (r : HttpResponse DecisionEventsResponse)
  : option string :=
  match r with
  | Status200 body => next_cursor body
  | _ => None
  end.

(** The first three polls, each with the cursor of the one before, and
    a fourth. *)
Definition first_poll (db : Database) := poll db None.
Definition second_poll (db : Database) :=
  poll db (next_cursor_of (first_poll db)).
Definition third_poll (db : Database) :=
  poll db (next_cursor_of (second_poll db)).
Definition fourth_poll (db : Database) :=
  poll db (next_cursor_of (third_poll db)).

End PaginationNotions.

Section LearningStoreNotions.

(** The invariant of the store: no two rows of [learning_events] carry
    the same fingerprint. *)
Definition unique_fingerprints (w : World) : Prop :=
  NoDup (le_inputs_hash <$> learning_events (db w)).

(** The number of rows that carry the fingerprint [h]. *)
Definition count_fingerprint (h : string) (w : World) : nat :=
  length (filter (λ r, le_inputs_hash r = h) (learning_events (db w))).

(** The ids [emitLearningEvent] selects for the fingerprint [h], and
    the one it returns. *)
Definition selected_ids (h : string) (w : World) : list string :=
  le_id <$>
    filter (λ r, le_inputs_hash r = h
                 ∧ le_decision_type r = "feedback_assimilation")
      (learning_events (db w)).

Definition stored_feedback_id (h : string) (w : World) : option string :=
  head (selected_ids h w).

(** A world with an empty store, identifiers [uuid-0], [uuid-1], ... and
    a clock that reads a later instant at every reading. *)
Definition sample_world : World :=
  {| db := {| decisions := []; approvals := []; learning_events := [] |};
     uuid_source := λ n, "uuid-" +:+ Js.numberToString (Z.of_nat n);
     uuid_reads := 0;
     clock_source :=
       λ n, "2024-01-01T00:00:0" +:+ Js.numberToString (Z.of_nat n)
            +:+ ".000Z";
     clock_reads := 0 |}.

(** An approval without a timestamp, and the same approval with one. *)
Definition approval_without_timestamp : ApprovalLearning.ApprovalLearningInput :=
  {| ApprovalLearning.decision_id := None;
     ApprovalLearning.approved := true;
     ApprovalLearning.confidence_adjustment := None;
     ApprovalLearning.reviewer_role := None;
     ApprovalLearning.review_scope := None;
     ApprovalLearning.artifact_type := None;
     ApprovalLearning.feedback := None;
     ApprovalLearning.timestamp := None |}.

Definition approval_with_timestamp : ApprovalLearning.ApprovalLearningInput :=
  {| ApprovalLearning.decision_id := None;
     ApprovalLearning.approved := true;
     ApprovalLearning.confidence_adjustment := None;
     ApprovalLearning.reviewer_role := None;
     ApprovalLearning.review_scope := None;
     ApprovalLearning.artifact_type := None;
     ApprovalLearning.feedback := None;
     ApprovalLearning.timestamp := Some "2024-01-01T00:00:00.000Z" |}.

(** A feedback on an artifact. *)
Definition sample_feedback : FeedbackAssimilation.FeedbackAssimilationInput :=
  {| FeedbackAssimilation.in_agent_id := None;
     FeedbackAssimilation.in_agent_version := None;
     FeedbackAssimilation.in_source_artifact_id := "artifact-1";
     FeedbackAssimilation.in_feedback_type := FeedbackAssimilation.qualitative;
     FeedbackAssimilation.in_raw_feedback := "Clear and complete";
     FeedbackAssimilation.in_normalized_signals := None;
     FeedbackAssimilation.in_assimilation_metadata :=
       {| FeedbackAssimilation.feedback_source := "reviewer";
          FeedbackAssimilation.processing_method := "manual" |};
     FeedbackAssimilation.in_outputs := None;
     FeedbackAssimilation.in_confidence := None;
     FeedbackAssimilation.in_constraints_applied := None;
     FeedbackAssimilation.in_execution_ref := None;
     FeedbackAssimilation.in_inputs_hash := None;
     FeedbackAssimilation.in_timestamp := None |}.

(** The id of a 201 response, and whether the response is a 201. *)
Definition approval_id
    (r : HttpResponse ApprovalLearning.ApprovalLearningResponse)
  : option string :=
  match r with
  | Status201 body => Some (ApprovalLearning.r_id body)
  | _ => None
  end.

Definition approval_hash
    (r : HttpResponse ApprovalLearning.ApprovalLearningResponse)
  : option string :=
  match r with
  | Status201 body => Some (ApprovalLearning.r_inputs_hash body)
  | _ => None
  end.

Definition is_201 {B} (r : HttpResponse B) : bool :=
  match r with
  | Status201 _ => true
  | _ => false
  end.

(** Two submissions of the same approval, one after the other. *)
Definition submit_twice (body : ApprovalLearning.ApprovalLearningInput)
    (w : World)
  : HttpResponse ApprovalLearning.ApprovalLearningResponse
    * HttpResponse ApprovalLearning.ApprovalLearningResponse * World :=
  let '(r1, w1) := ApprovalLearning.createApprovalLearningHandler body w in
  let '(r2, w2) := ApprovalLearning.createApprovalLearningHandler body w1 in
  (r1, r2, w2).

(** A write request to one of the two learning endpoints. *)
Inductive WriteRequest :=
  | Learn (body : ApprovalLearning.ApprovalLearningInput)
  | Assimilate (body : FeedbackAssimilation.FeedbackAssimilationInput).

(** The world after a write request, and after a sequence of them. *)
Definition serve (w : World) (req : WriteRequest) : World :=
  match req with
  | Learn body => (ApprovalLearning.createApprovalLearningHandler body w).2
  | Assimilate body =>
      (FeedbackAssimilation.createFeedbackAssimilationHandler body w).2
  end.

Definition serve_all (w : World) (reqs : list WriteRequest) : World :=
  foldl serve w reqs.

(** Two feedback submissions and an approval between them. *)
Definition sample_requests : list WriteRequest :=
  [Learn approval_with_timestamp; Assimilate sample_feedback;
   Learn approval_without_timestamp].

End LearningStoreNotions.
(** ** Configuration from the environment (config.ts) *)

Module Config.

(** [process.env]. *)
Abbreviation Env := (gmap string string).

(** The outcome of a computation that can throw an [Error]: the message
    of the error, or the value. *)
Definition Loading (A : Type) : Type := (string + A)%type.

Global Instance Loading_ret : MRet Loading := λ A a, inr a.

Global Instance Loading_bind : MBind Loading := λ A B f m,
  match m with
  | inr a => f a
  | inl message => inl message
  end.

(** RuvVector connection.  The groups of the configuration are records
    of their own; a field name that occurs in more than one group
    ([timeout], [port]) carries the name of its group. *)
Record RuvVectorConfig := {
  serviceUrl : string;
  apiKey : option string;
  ruvVector_timeout : Z;
  poolSize : Z
}.

(** PostgreSQL Database configuration. *)
Record DatabaseConfig := {
  host : string;
  database_port : Z;
  name : string;
  user : string;
  password : string;
  maxConnections : Z;
  idleTimeoutMs : Z;
  connectionTimeoutMs : Z;
  ssl : bool
}.

(** Circuit breaker configuration. *)
Record CircuitBreakerConfig := {
  threshold : Z;
  circuitBreaker_timeout : Z;
  resetTimeout : Z
}.

(** Metrics configuration. *)
Record MetricsConfig := {
  enabled : bool;
  metrics_port : Z
}.

(** Shutdown configuration. *)
Record ShutdownConfig := {
  shutdown_timeout : Z
}.

(** Configuration interface. *)
Record Config := {
  port : Z;
  logLevel : string;
  ruvVector : RuvVectorConfig;
  database : DatabaseConfig;
  circuitBreaker : CircuitBreakerConfig;
  metrics : MetricsConfig;
  shutdown : ShutdownConfig
}.

(** Get optional environment variable with default. *)
Definition getEnvVar (env : Env) (key defaultValue : string) : string :=
  match env !! key with
  | Some value =>
      if negb (String.eqb value EmptyString) then value else defaultValue
  | None => defaultValue
  end.

(** Get optional environment variable (may be undefined). *)
Definition getOptionalEnvVar (env : Env) (key : string) : option string :=
  match env !! key with
  | Some value =>
      if negb (String.eqb value EmptyString) then Some value else None
  | None => None
  end.

(** The message of the error [getEnvNumber] throws. *)
Definition invalid_number (key : string) : string :=
  "Environment variable " +:+ key +:+ " must be a valid number".

Definition getEnvNumber (env : Env) (key : string) (defaultValue : Z)
  : Loading Z :=
  match env !! key with
  | None => mret defaultValue
  | Some value =>
      match Js.parseInt value with
      | None => inl (invalid_number key)
      | Some parsed => mret parsed
      end
  end.

Definition getEnvBoolean (env : Env) (key : string) (defaultValue : bool)
  : bool :=
  match env !! key with
  | None => defaultValue
  | Some value => String.eqb (Js.toLowerCase value) "true"
  end.

(** Configuration object: the properties of the literal are evaluated
    in the order they are written, and the first error ends the
    evaluation. *)
Definition config (env : Env) : Loading Config :=
  port ← getEnvNumber env "PORT" 3000;
  let logLevel := getEnvVar env "LOG_LEVEL" "info" in
  let serviceUrl :=
    getEnvVar env "RUVVECTOR_SERVICE_URL" "http://localhost:6379" in
  let apiKey := getOptionalEnvVar env "RUVVECTOR_API_KEY" in
  timeout ← getEnvNumber env "RUVVECTOR_TIMEOUT" 30000;
  poolSize ← getEnvNumber env "RUVVECTOR_POOL_SIZE" 10;
  let host := getEnvVar env "RUVVECTOR_DB_HOST" "localhost" in
  database_port ← getEnvNumber env "RUVVECTOR_DB_PORT" 5432;
  let name := getEnvVar env "RUVVECTOR_DB_NAME" "ruvector-postgres" in
  let user := getEnvVar env "RUVVECTOR_DB_USER" "postgres" in
  let password := getEnvVar env "RUVVECTOR_DB_PASSWORD" EmptyString in
  maxConnections ← getEnvNumber env "RUVVECTOR_DB_MAX_CONNECTIONS" 20;
  idleTimeoutMs ← getEnvNumber env "RUVVECTOR_DB_IDLE_TIMEOUT" 30000;
  connectionTimeoutMs ←
    getEnvNumber env "RUVVECTOR_DB_CONNECTION_TIMEOUT" 10000;
  let ssl := getEnvBoolean env "RUVVECTOR_DB_SSL" false in
  threshold ← getEnvNumber env "CIRCUIT_BREAKER_THRESHOLD" 5;
  breaker_timeout ← getEnvNumber env "CIRCUIT_BREAKER_TIMEOUT" 30000;
  resetTimeout ← getEnvNumber env "CIRCUIT_BREAKER_RESET" 60000;
  let enabled := getEnvBoolean env "METRICS_ENABLED" true in
  metrics_port ← getEnvNumber env "METRICS_PORT" 9090;
  shutdown_timeout ← getEnvNumber env "SHUTDOWN_TIMEOUT" 30000;
  mret
    {| port := port;
       logLevel := logLevel;
       ruvVector :=
         {| serviceUrl := serviceUrl; apiKey := apiKey;
            ruvVector_timeout := timeout; poolSize := poolSize |};
       database :=
         {| host := host; database_port := database_port; name := name;
            user := user; password := password;
            maxConnections := maxConnections;
            idleTimeoutMs := idleTimeoutMs;
            connectionTimeoutMs := connectionTimeoutMs; ssl := ssl |};
       circuitBreaker :=
         {| threshold := threshold;
            circuitBreaker_timeout := breaker_timeout;
            resetTimeout := resetTimeout |};
       metrics := {| enabled := enabled; metrics_port := metrics_port |};
       shutdown := {| shutdown_timeout := shutdown_timeout |} |}.

End Config.
(** ** Request validation middleware (middleware/validation.ts) *)

Module Validation.

(** The value of a request header: [string | string[]]. *)
Inductive HeaderValue :=
  | Text (s : string)
  | Texts (l : list string).

Global Instance HeaderValue_eq_dec : EqDecision HeaderValue.
Proof. solve_decision. Defined.

(** [req.headers], and the headers set on the response. *)
Abbreviation Headers := (gmap string HeaderValue).

(** The two modules the middleware imports, utils/correlation and
    utils/entitlement, are no part of the sources at hand: the
    middleware is modelled over any implementation of the functions it
    calls and of the fields of [EntitlementResult] it reads. *)
Class Utils := {
  EntitlementResult : Type;
  allowed : EntitlementResult → bool;
  reason : EntitlementResult → option string;
  checkEntitlement : HeaderValue → EntitlementResult;
  getOrCreateCorrelationId : Headers → string
}.

(** The request as the middleware sees it: the headers and the two
    custom properties. *)
Record Request `{Utils} := {
  headers : Headers;
  correlationId : option HeaderValue;
  entitlement : option EntitlementResult
}.

(** The JSON body of an error response. *)
Record ErrorBody := {
  error : string;
  message : string;
  body_correlationId : HeaderValue
}.

(** What a middleware does: it calls [next()], with the request and the
    response headers as it leaves them, or it ends the request with a
    status and a JSON body. *)
Inductive Outcome `{Utils} :=
  | Next (req : Request) (res : Headers)
  | Respond (status : Z) (json : ErrorBody) (res : Headers).

(** Truthiness of a header: absent and the empty string are falsy, an
    array is truthy. *)
Definition truthy (v : option HeaderValue) : bool :=
  match v with
  | Some (Text s) => negb (String.eqb s EmptyString)
  | Some (Texts _) => true
  | None => false
  end.

(** [typeof v === 'string']. *)
Definition is_string (v : option HeaderValue) : bool :=
  match v with
  | Some (Text _) => true
  | _ => false
  end.

(** [contentType?.includes('application/json')], [undefined] being
    falsy. *)
Definition includes_json (contentType : option HeaderValue) : bool :=
  match contentType with
  | Some (Text s) => Js.includes s "application/json"
  | Some (Texts l) => bool_decide ("application/json" ∈ l)
  | None => false
  end.

(** [Buffer.prototype.toString('base64')]. *)
Definition base64_digit (n : Z) : ascii :=
  nth (Z.to_nat n)
    (list_ascii_of_string
       "ABCDEFGHIJKLMNOPQRSTUVWXYZabcdefghijklmnopqrstuvwxyz0123456789+/")
    "A"%char.

Fixpoint base64 (bytes : list Z) : string :=
  match bytes with
  | [] => EmptyString
  | [a] =>
      String (base64_digit (Z.shiftr a 2))
        (String (base64_digit (Z.shiftl (Z.land a 3) 4)) "==")
  | [a; b] =>
      String (base64_digit (Z.shiftr a 2))
        (String (base64_digit
                   (Z.lor (Z.shiftl (Z.land a 3) 4) (Z.shiftr b 4)))
           (String (base64_digit (Z.shiftl (Z.land b 15) 2)) "="))
  | a :: b :: c :: rest =>
      String (base64_digit (Z.shiftr a 2))
        (String (base64_digit
                   (Z.lor (Z.shiftl (Z.land a 3) 4) (Z.shiftr b 4)))
           (String (base64_digit
                      (Z.lor (Z.shiftl (Z.land b 15) 2) (Z.shiftr c 6)))
              (String (base64_digit (Z.land c 63)) (base64 rest))))
  end.

(** Default to system execution listener context. *)
Definition defaultEntitlementContext : string :=
  base64
    (Sha256.bytes_of_string
       (Json.stringify None
          (Json.Object
             [("tenant", Json.Str "system");
              ("scope", Json.Str "execution-listener")]))).

Section Middleware.
Context `{Utils}.

Definition set_correlationId (req : Request) (v : HeaderValue) : Request :=
  {| headers := headers req; correlationId := Some v;
     entitlement := entitlement req |}.

Definition set_entitlement (req : Request) (r : EntitlementResult)
  : Request :=
  {| headers := headers req; correlationId := correlationId req;
     entitlement := Some r |}.

(** The 403 of a refused entitlement. *)
Definition entitlementError (result : EntitlementResult)
    (correlationId : HeaderValue) : ErrorBody :=
  {| error := "entitlement_error";
     message := Js.str_or (reason result) "Entitlement check failed";
     body_correlationId := correlationId |}.

(** Middleware to extract and validate correlation ID. *)
Definition extractCorrelationId (req : Request) (res : Headers) : Outcome :=
  let correlationId := headers req !! "x-correlation-id" in
  if negb (truthy correlationId) || negb (is_string correlationId) then
    let generatedId := getOrCreateCorrelationId (headers req) in
    Respond 400
      {| error := "missing_header";
         message := "Missing required header: x-correlation-id";
         body_correlationId := Text generatedId |} res
  else
    let id := default (Text EmptyString) correlationId in
    Next (set_correlationId req id) (<["x-correlation-id" := id]> res).

(** Middleware to validate entitlement context. *)
Definition validateEntitlement (req : Request) (res : Headers) : Outcome :=
  let entitlementHeader := headers req !! "x-entitlement-context" in
  let correlationId :=
    if truthy (correlationId req)
    then default (Text EmptyString) (correlationId req)
    else Text (getOrCreateCorrelationId (headers req)) in
  if negb (truthy entitlementHeader) || negb (is_string entitlementHeader)
  then
    Respond 400
      {| error := "missing_header";
         message := "Missing required header: x-entitlement-context";
         body_correlationId := correlationId |} res
  else
    let result :=
      checkEntitlement (default (Text EmptyString) entitlementHeader) in
    if negb (allowed result)
    then Respond 403 (entitlementError result correlationId) res
    else Next (set_entitlement req result) res.

(** [typeof correlationId === 'string' ? correlationId :
    getOrCreateCorrelationId(req.headers)]. *)
Definition stringOrGenerated (req : Request) (v : option HeaderValue)
  : HeaderValue :=
  match v with
  | Some (Text s) => Text s
  | _ => Text (getOrCreateCorrelationId (headers req))
  end.

(** Combined middleware for required headers. *)
Definition validateRequiredHeaders (req : Request) (res : Headers)
  : Outcome :=
  let correlationId := headers req !! "x-correlation-id" in
  let entitlementContext := headers req !! "x-entitlement-context" in
  let contentType := headers req !! "content-type" in
  let missing :=
    (if negb (truthy correlationId) then ["x-correlation-id"] else [])
    ++ (if negb (truthy entitlementContext)
        then ["x-entitlement-context"] else []) in
  if negb (includes_json contentType) then
    Respond 400
      {| error := "validation_error";
         message := "Content-Type must be application/json";
         body_correlationId := stringOrGenerated req correlationId |} res
  else if bool_decide (0 < length missing)%nat then
    Respond 400
      {| error := "missing_header";
         message := "Missing required headers: " +:+ Js.join ", " missing;
         body_correlationId := stringOrGenerated req correlationId |} res
  else
    let id := default (Text EmptyString) correlationId in
    let req := set_correlationId req id in
    let res := <["x-correlation-id" := id]> res in
    let result :=
      checkEntitlement (default (Text EmptyString) entitlementContext) in
    if negb (allowed result)
    then Respond 403 (entitlementError result id) res
    else Next (set_entitlement req result) res.

(** Tolerant middleware for internal polling endpoints. *)
Definition validateInternalPolling (req : Request) (res : Headers)
  : Outcome :=
  let correlationId :=
    let given := headers req !! "x-correlation-id" in
    if negb (truthy given) || negb (is_string given)
    then Text (getOrCreateCorrelationId (headers req))
    else default (Text EmptyString) given in
  let req := set_correlationId req correlationId in
  let res := <["x-correlation-id" := correlationId]> res in
  let entitlementContext :=
    let given := headers req !! "x-entitlement-context" in
    if negb (truthy given) || negb (is_string given)
    then Text defaultEntitlementContext
    else default (Text EmptyString) given in
  let result := checkEntitlement entitlementContext in
  if negb (allowed result)
  then Respond 403 (entitlementError result correlationId) res
  else Next (set_entitlement req result) res.

End Middleware.

End Validation.
(** * Further notions for the decision-event feed *)

Section FeedNotions.
Import DecisionEvents.
Context `{!Collation} `{!Js.Locale}.

(** The tokens of a [types] parameter as the filter reads them: the
    pieces between commas, trimmed and in lower case. *)
Definition type_tokens (typesParam : string) : list string :=
  (λ t, Js.toLowerCase (Js.trim t)) <$> Js.split "," typesParam.

(** A row created at [created_at] under the id [row_id] lies strictly
    after the cursor: at a later instant than the cursor's, which is
    the start of a millisecond, or at that instant with a row id that
    the store sorts after the cursor's. *)
Definition strictly_after (c : option Cursor) (created_at : Z)
    (row_id : string) : Prop :=
  match c with
  | None => True
  | Some c =>
      timestampOf (c_timestamp c) < created_at
      ∨ (timestampOf (c_timestamp c) = created_at
         ∧ text_lt (c_id c) row_id = true)
  end.

(** The order of a page: by the milliseconds of the events, events of
    one millisecond by event id, in the order of the locale. *)
Definition event_order (a b : DecisionEvent) : Prop :=
  timestamp a < timestamp b
  ∨ (timestamp a = timestamp b ∧ Js.localeCompare (id a) (id b) ≤ 0).

(** The request that continues a listing: the same filter and limit,
    with the cursor the response handed out. *)
Definition next_request (req : Query) (db : Database) : Query :=
  {| types := types req;
     after := next_cursor_of (listDecisionEventsHandler req db);
     limit := limit req |}.

(** The events of [k] successive polls: the one of [req], then each
    with the cursor the poll before it handed out. *)
Fixpoint follow (k : nat) (req : Query) (db : Database)
  : list DecisionEvent :=
  match k with
  | O => []
  | S k =>
      events_of (listDecisionEventsHandler req db)
        ++ follow k (next_request req db) db
  end.

(** The first request of a listing. *)
Definition first_request (kinds limit : option string) : Query :=
  {| types := kinds; after := None; limit := limit |}.

(** The types of events a filter lists: [plan_created] when it is
    requested; [plan_approved] when it is requested, or when
    [plan_deferred] is requested and [plan_rejected] is not;
    [plan_rejected] likewise; no event has the type [plan_deferred].
    Without a filter every type is requested. *)
Definition listed_type (eventTypes : option (list DecisionEventType))
    (t : DecisionEventType) : bool :=
  let requested := includes_type eventTypes in
  match t with
  | plan_created => requested plan_created
  | plan_approved =>
      requested plan_approved
      || (requested plan_deferred && negb (requested plan_rejected))
  | plan_rejected =>
      requested plan_rejected
      || (requested plan_deferred && negb (requested plan_approved))
  | plan_deferred => false
  end.

(** The events of the store that a filter lists, by instant. *)
Definition matching (kinds : option string) (db : Database)
  : list DecisionEvent :=
  filter (λ e, listed_type (parseEventTypes kinds) (type e) = true)
    (sortEvents (allEvents db)).

(** The events a request is to list: those the filter lists that lie
    after the cursor. *)
Definition wanted (eventTypes : option (list DecisionEventType))
    (c : option Cursor) (e : DecisionEvent) : Prop :=
  listed_type eventTypes (type e) = true ∧ ts_after c (timestamp e).

Global Instance wanted_dec eventTypes c e : Decision (wanted eventTypes c e).
Proof. unfold wanted. apply _. Defined.

(** The page size of a request. *)
Definition page_size (limit : option string) : nat :=
  Z.to_nat (parseLimit limit).

(** A store in which a decision and a review carry ids with colons. *)
Definition colon_db : Database :=
  {| decisions :=
       [{| d_id := "urn:plan:7"; d_objective := "o"; d_recommendation := "r";
           d_confidence := "0.5"; d_command := "c";
           d_raw_output_hash := "h"; d_created_at := 1700000000000000 |}];
     approvals :=
       [{| a_id := "urn:review:1"; a_decision_id := "urn:plan:7";
           a_approved := false; a_reward := 0;
           a_confidence_adjustment := None;
           a_created_at := 1700000000500000 |};
        {| a_id := "urn:review:2"; a_decision_id := "urn:plan:gone";
           a_approved := true; a_reward := 1;
           a_confidence_adjustment := None;
           a_created_at := 1700000000900000 |}];
     learning_events := [] |}.

(** A poll of [colon_db] that resumes after its decision, and the event
    it returns. *)
Definition colon_request : Query :=
  {| types := None; after := Some "plan_created:urn:plan:7:1700000000000";
     limit := None |}.

Definition colon_review : DecisionEvent :=
  {| id := "plan_rejected:urn:review:1:1700000000500";
     type := plan_rejected;
     timestamp := 1700000000500;
     payload :=
       ReviewedPayload "urn:plan:7" "urn:plan:7" "urn:plan:7" "o" "r" 0 None
         "rejected" |}.

(** The event [e] stems from a row that was created at a fraction of a
    millisecond. *)
Definition sub_millisecond (db : Database) (e : DecisionEvent) : Prop :=
  (∃ d, d ∈ decisions db ∧ e = created_event d
        ∧ ¬ (1000 | d_created_at d))
  ∨ (∃ j, j ∈ approvals_join db ∧ e = reviewed_event j
          ∧ ¬ (1000 | a_created_at j.1)).

(** A store whose first decision was created half a millisecond after
    the tenth millisecond, and the event of that decision. *)
Definition fraction_db : Database :=
  {| decisions :=
       [{| d_id := "d1"; d_objective := "o1"; d_recommendation := "r1";
           d_confidence := "0.9"; d_command := "c1";
           d_raw_output_hash := "h1"; d_created_at := 10500 |};
        {| d_id := "d2"; d_objective := "o2"; d_recommendation := "r2";
           d_confidence := "0.8"; d_command := "c2";
           d_raw_output_hash := "h2"; d_created_at := 30000 |}];
     approvals := [];
     learning_events := [] |}.

Definition fraction_event : DecisionEvent :=
  {| id := "plan_created:d1:10";
     type := plan_created;
     timestamp := 10;
     payload := CreatedPayload "d1" "d1" "o1" "r1" "0.9" "c1" "h1" |}.

(** A store with two decisions created at the same instant, under the
    ids [B] and [a]. *)
Definition tie_db : Database :=
  {| decisions :=
       [{| d_id := "B"; d_objective := "o1"; d_recommendation := "r1";
           d_confidence := "0.9"; d_command := "c1";
           d_raw_output_hash := "h1"; d_created_at := 10000 |};
        {| d_id := "a"; d_objective := "o2"; d_recommendation := "r2";
           d_confidence := "0.8"; d_command := "c2";
           d_raw_output_hash := "h2"; d_created_at := 10000 |}];
     approvals := [];
     learning_events := [] |}.

(** A poll for rejections only, and the rejection of [sample_db]. *)
Definition rejections_request : Query :=
  {| types := Some "plan_rejected"; after := None; limit := None |}.

Definition sample_rejected_event : DecisionEvent :=
  {| id := "plan_rejected:a2:40";
     type := plan_rejected;
     timestamp := 40;
     payload :=
       ReviewedPayload "d2" "d2" "d2" "o2" "r2" (-1) (Some 0.5%Q)
         "rejected" |}.

End FeedNotions.
(** * Further notions for the two write endpoints *)

Section WriteNotions.

Definition is_400 {B} (r : HttpResponse B) : bool :=
  match r with
  | Status400 => true
  | _ => false
  end.

Definition is_500 {B} (r : HttpResponse B) : bool :=
  match r with
  | Status500 => true
  | _ => false
  end.

(** What [createApprovalLearningSchema] refuses in a body of the right
    types: an empty [decision_id], or a [confidence_adjustment] outside
    [-1, 1]. *)
Definition approval_body_invalid
    (body : ApprovalLearning.ApprovalLearningInput) : Prop :=
  ApprovalLearning.decision_id body = Some EmptyString
  ∨ ∃ a, ApprovalLearning.confidence_adjustment body = Some a
         ∧ ¬ (-1 <= a <= 1)%Q.

(** What [createFeedbackAssimilationSchema] refuses in a body of the
    right types: an empty [source_artifact_id] or [raw_feedback], a
    signal whose value lies outside [-1, 1] or whose confidence lies
    outside [0, 1], or a [confidence] outside [0, 1]. *)
Definition feedback_body_invalid
    (body : FeedbackAssimilation.FeedbackAssimilationInput) : Prop :=
  FeedbackAssimilation.in_source_artifact_id body = EmptyString
  ∨ FeedbackAssimilation.in_raw_feedback body = EmptyString
  ∨ (∃ s, s ∈ default [] (FeedbackAssimilation.in_normalized_signals body)
          ∧ ¬ ((-1 <= FeedbackAssimilation.value s <= 1)%Q
               ∧ (0 <= FeedbackAssimilation.confidence s <= 1)%Q))
  ∨ ∃ c, FeedbackAssimilation.in_confidence body = Some c
         ∧ ¬ (0 <= c <= 1)%Q.

(** The approval [body] with the feedback text [f] in place of its
    own. *)
Definition with_feedback (body : ApprovalLearning.ApprovalLearningInput)
    (f : option string) : ApprovalLearning.ApprovalLearningInput :=
  {| ApprovalLearning.decision_id := ApprovalLearning.decision_id body;
     ApprovalLearning.approved := ApprovalLearning.approved body;
     ApprovalLearning.confidence_adjustment :=
       ApprovalLearning.confidence_adjustment body;
     ApprovalLearning.reviewer_role := ApprovalLearning.reviewer_role body;
     ApprovalLearning.review_scope := ApprovalLearning.review_scope body;
     ApprovalLearning.artifact_type := ApprovalLearning.artifact_type body;
     ApprovalLearning.feedback := f;
     ApprovalLearning.timestamp := ApprovalLearning.timestamp body |}.

(** The feedback [body] with the fingerprint [h] supplied by the
    client. *)
Definition with_inputs_hash
    (body : FeedbackAssimilation.FeedbackAssimilationInput) (h : string)
  : FeedbackAssimilation.FeedbackAssimilationInput :=
  {| FeedbackAssimilation.in_agent_id :=
       FeedbackAssimilation.in_agent_id body;
     FeedbackAssimilation.in_agent_version :=
       FeedbackAssimilation.in_agent_version body;
     FeedbackAssimilation.in_source_artifact_id :=
       FeedbackAssimilation.in_source_artifact_id body;
     FeedbackAssimilation.in_feedback_type :=
       FeedbackAssimilation.in_feedback_type body;
     FeedbackAssimilation.in_raw_feedback :=
       FeedbackAssimilation.in_raw_feedback body;
     FeedbackAssimilation.in_normalized_signals :=
       FeedbackAssimilation.in_normalized_signals body;
     FeedbackAssimilation.in_assimilation_metadata :=
       FeedbackAssimilation.in_assimilation_metadata body;
     FeedbackAssimilation.in_outputs := FeedbackAssimilation.in_outputs body;
     FeedbackAssimilation.in_confidence :=
       FeedbackAssimilation.in_confidence body;
     FeedbackAssimilation.in_constraints_applied :=
       FeedbackAssimilation.in_constraints_applied body;
     FeedbackAssimilation.in_execution_ref :=
       FeedbackAssimilation.in_execution_ref body;
     FeedbackAssimilation.in_inputs_hash := Some h;
     FeedbackAssimilation.in_timestamp :=
       FeedbackAssimilation.in_timestamp body |}.

(** The response and the world of a request served in [w]. *)
Definition learn (body : ApprovalLearning.ApprovalLearningInput) (w : World) :=
  ApprovalLearning.createApprovalLearningHandler body w.

Definition assimilate
    (body : FeedbackAssimilation.FeedbackAssimilationInput) (w : World) :=
  FeedbackAssimilation.createFeedbackAssimilationHandler body w.

(** What a write request leaves alone, and by how much the store of
    learning events grows. *)
Definition grows_by_at_most (n : nat) (w w' : World) : Prop :=
  decisions (db w') = decisions (db w)
  ∧ approvals (db w') = approvals (db w)
  ∧ uuid_source w' = uuid_source w
  ∧ clock_source w' = clock_source w
  ∧ ∃ suffix,
      learning_events (db w') = learning_events (db w) ++ suffix
      ∧ (length suffix ≤ n)%nat.

(** The world after the approval of [sample_world] that carries its
    timestamp, and a feedback that supplies that approval's fingerprint
    as its own. *)
Definition world_after_approval : World :=
  (learn approval_with_timestamp sample_world).2.

Definition feedback_with_approval_hash
  : FeedbackAssimilation.FeedbackAssimilationInput :=
  with_inputs_hash sample_feedback
    (fingerprintOf approval_with_timestamp sample_world).

(** A second feedback, on another artifact. *)
Definition other_feedback : FeedbackAssimilation.FeedbackAssimilationInput :=
  {| FeedbackAssimilation.in_agent_id := Some "reviewer-bot";
     FeedbackAssimilation.in_agent_version := None;
     FeedbackAssimilation.in_source_artifact_id := "artifact-2";
     FeedbackAssimilation.in_feedback_type := FeedbackAssimilation.mixed;
     FeedbackAssimilation.in_raw_feedback := "Unclear and incomplete";
     FeedbackAssimilation.in_normalized_signals :=
       Some [{| FeedbackAssimilation.dimension := "clarity";
                FeedbackAssimilation.value := (-0.5)%Q;
                FeedbackAssimilation.confidence := 0.9%Q |};
             {| FeedbackAssimilation.dimension := "accuracy";
                FeedbackAssimilation.value := 0.25%Q;
                FeedbackAssimilation.confidence := 0.5%Q |}];
     FeedbackAssimilation.in_assimilation_metadata :=
       {| FeedbackAssimilation.feedback_source := "panel";
          FeedbackAssimilation.processing_method := "rubric" |};
     FeedbackAssimilation.in_outputs := None;
     FeedbackAssimilation.in_confidence := None;
     FeedbackAssimilation.in_constraints_applied := None;
     FeedbackAssimilation.in_execution_ref := Some "exec-7";
     FeedbackAssimilation.in_inputs_hash := None;
     FeedbackAssimilation.in_timestamp := Some "2024-02-02T00:00:00.000Z" |}.

(** The [created_at] of the row an approval stores in world [w]: the
    timestamp of the body, or the reading of the clock after the one
    that entered the fingerprint. *)
Definition createdAtOf (body : ApprovalLearning.ApprovalLearningInput)
    (w : World) : string :=
  if Js.truthy (ApprovalLearning.timestamp body)
  then default EmptyString (ApprovalLearning.timestamp body)
  else clock_source w (S (clock_reads w)).

(** The [source_id] of the row an approval stores: the decision id of
    the body when it is given, whether or not a decision carries it. *)
Definition sourceIdOf (body : ApprovalLearning.ApprovalLearningInput)
  : option string :=
  match ApprovalLearning.decision_id body with
  | Some (String c s) => Some (String c s)
  | _ => None
  end.

(** The text of which the fingerprint of a feedback is the digest. *)
Definition fingerprint_text
    (body : FeedbackAssimilation.FeedbackAssimilationInput) : string :=
  Json.stringify
    (Some (Json.sort_strings
             (Json.keys (FeedbackAssimilation.hashedInputs body))))
    (FeedbackAssimilation.hashedInputs body).

(** The decoder of one character of a JSON string literal: the
    character that the front of [s] stands for, and what follows it;
    nothing at the closing quote. *)
Definition unescape (s : string) : option (ascii * string) :=
  match s with
  | String c0 rest =>
      if Ascii.eqb c0 (ascii_of_nat 92) then
        match rest with
        | String c1 rest' =>
            if Ascii.eqb c1 (ascii_of_nat 34)
            then Some (ascii_of_nat 34, rest')
            else if Ascii.eqb c1 (ascii_of_nat 92)
            then Some (ascii_of_nat 92, rest')
            else if Ascii.eqb c1 "b" then Some (ascii_of_nat 8, rest')
            else if Ascii.eqb c1 "t" then Some (ascii_of_nat 9, rest')
            else if Ascii.eqb c1 "n" then Some (ascii_of_nat 10, rest')
            else if Ascii.eqb c1 "f" then Some (ascii_of_nat 12, rest')
            else if Ascii.eqb c1 "r" then Some (ascii_of_nat 13, rest')
            else if Ascii.eqb c1 "u" then
              match rest' with
              | String _ (String _ (String h (String l rest''))) =>
                  let digit c :=
                    let n := nat_of_ascii c in
                    if (n <=? 57)%nat then (n - 48)%nat else (n - 87)%nat in
                  Some (ascii_of_nat (16 * digit h + digit l), rest'')
              | _ => None
              end
            else None
        | EmptyString => None
        end
      else if Ascii.eqb c0 (ascii_of_nat 34) then None
      else Some (c0, rest)
  | EmptyString => None
  end.

(** The characters of [s], each escaped as [JSON.stringify] escapes
    it. *)
Definition escaped (s : string) : string :=
  String.concat EmptyString (map Json.escape_char (list_ascii_of_string s)).

(** The rows a request adds to [learning_events]. *)
Definition rows_added (w w' : World) : list LearningEventRow :=
  drop (length (learning_events (db w))) (learning_events (db w')).

(** A feedback body brings no signals of its own when the field is
    absent or holds the empty array. *)
Definition no_signals (body : FeedbackAssimilation.FeedbackAssimilationInput)
  : Prop :=
  default [] (FeedbackAssimilation.in_normalized_signals body) = [].

(** The sentiment the keywords alone give: 0.2 for each positive keyword
    that occurs, minus 0.2 for each negative one, clamped to [-1, 1]. *)
Definition keyword_sentiment (rawFeedback : string) : Q :=
  clamp (-1) 1
    (inject_Z (positive_count rawFeedback - negative_count rawFeedback)
     * 0.2)%Q.

(** Ratings of two of the four dimensions. *)
Definition two_ratings : FeedbackAssimilation.StructuredRatings :=
  {| FeedbackAssimilation.quality := None;
     FeedbackAssimilation.clarity := Some 0.5%Q;
     FeedbackAssimilation.accuracy := None;
     FeedbackAssimilation.completeness := Some (-1)%Q |}.

(** The hashed inputs of a feedback, and the same properties in
    another order. *)
Definition inputs_in_order : list (string * Json.value) :=
  [("source_artifact_id", Json.Str "artifact-1");
   ("feedback_type", Json.Str "qualitative");
   ("raw_feedback", Json.Str "Clear and complete");
   ("feedback_source", Json.Str "reviewer")].

Definition inputs_reordered : list (string * Json.value) :=
  [("feedback_source", Json.Str "reviewer");
   ("raw_feedback", Json.Str "Clear and complete");
   ("source_artifact_id", Json.Str "artifact-1");
   ("feedback_type", Json.Str "qualitative")].

End WriteNotions.
(** * Notions for the configuration *)

Section ConfigNotions.
Import Config.

(** The variables read as numbers, in the order [config] reads them. *)
Definition numericKeys : list string :=
  ["PORT"; "RUVVECTOR_TIMEOUT"; "RUVVECTOR_POOL_SIZE"; "RUVVECTOR_DB_PORT";
   "RUVVECTOR_DB_MAX_CONNECTIONS"; "RUVVECTOR_DB_IDLE_TIMEOUT";
   "RUVVECTOR_DB_CONNECTION_TIMEOUT"; "CIRCUIT_BREAKER_THRESHOLD";
   "CIRCUIT_BREAKER_TIMEOUT"; "CIRCUIT_BREAKER_RESET"; "METRICS_PORT";
   "SHUTDOWN_TIMEOUT"].

(** The variable [key] is set to a text that does not start, after white
    space and a sign, with a decimal digit. *)
Definition not_a_number (env : Env) (key : string) : Prop :=
  match env !! key with
  | Some value => Js.parseInt value = None
  | None => False
  end.

Global Instance not_a_number_dec env key : Decision (not_a_number env key).
Proof. unfold not_a_number. destruct (env !! key); apply _. Defined.

(** The first numeric variable, in reading order, that is set to such a
    text. *)
Definition first_invalid (env : Env) : option string :=
  snd <$> list_find (not_a_number env) numericKeys.

(** The environment the Dockerfile of the service sets. *)
Definition docker_env : Env :=
  list_to_map
    [("NODE_ENV", "production"); ("PORT", "8080"); ("LOG_LEVEL", "info");
     ("RUVVECTOR_SERVICE_URL", "http://localhost:6379");
     ("RUVVECTOR_TIMEOUT", "30000"); ("RUVVECTOR_POOL_SIZE", "10");
     ("RUVVECTOR_DB_HOST", "localhost"); ("RUVVECTOR_DB_PORT", "5432");
     ("RUVVECTOR_DB_NAME", "ruvector-postgres");
     ("RUVVECTOR_DB_USER", "postgres");
     ("RUVVECTOR_DB_PASSWORD", EmptyString);
     ("RUVVECTOR_DB_MAX_CONNECTIONS", "20");
     ("RUVVECTOR_DB_IDLE_TIMEOUT", "30000");
     ("RUVVECTOR_DB_CONNECTION_TIMEOUT", "10000");
     ("RUVVECTOR_DB_SSL", "false");
     ("CIRCUIT_BREAKER_THRESHOLD", "5"); ("CIRCUIT_BREAKER_TIMEOUT", "30000");
     ("CIRCUIT_BREAKER_RESET", "60000");
     ("METRICS_ENABLED", "true"); ("METRICS_PORT", "9090");
     ("SHUTDOWN_TIMEOUT", "30000")].

(** The number a numeric variable stands for once the configuration has
    loaded: the number its text starts with, or the default when it is
    not set. *)
Definition number_of (env : Env) (key : string) (defaultValue : Z) : Z :=
  match env !! key with
  | Some value => default defaultValue (Js.parseInt value)
  | None => defaultValue
  end.

(** The integers a JavaScript number holds exactly. *)
Definition safe_integer (n : Z) : Prop :=
  -9007199254740991 ≤ n ≤ 9007199254740991.

End ConfigNotions.
(** * Notions for the middleware *)

Section ValidationNotions.
Import Validation.
Context `{Utils}.

(** The status a middleware answers with; none when it calls
    [next()]. *)
Definition status_of (o : Outcome) : option Z :=
  match o with
  | Next _ _ => None
  | Respond status _ _ => Some status
  end.

(** The headers on the response when the middleware is done. *)
Definition response_headers (o : Outcome) : Headers :=
  match o with
  | Next _ res => res
  | Respond _ _ res => res
  end.

(** [extractCorrelationId], then, if it calls [next()],
    [validateEntitlement]. *)
Definition extract_then_validate (req : Request) (res : Headers) : Outcome :=
  match extractCorrelationId req res with
  | Next req' res' => validateEntitlement req' res'
  | o => o
  end.

(** The header [key] is absent or a single text, as a header that is
    not repeated is. *)
Definition plain_header (req : Request) (key : string) : Prop :=
  ∀ l, headers req !! key ≠ Some (Texts l).

(** The correlation id the polling middleware settles on. *)
Definition polling_correlationId (req : Request) : HeaderValue :=
  match headers req !! "x-correlation-id" with
  | Some (Text (String c s)) => Text (String c s)
  | _ => Text (getOrCreateCorrelationId (headers req))
  end.

(** The entitlement context the polling middleware checks. *)
Definition polling_context (req : Request) : HeaderValue :=
  match headers req !! "x-entitlement-context" with
  | Some (Text (String c s)) => Text (String c s)
  | _ => Text "eyJ0ZW5hbnQiOiJzeXN0ZW0iLCJzY29wZSI6ImV4ZWN1dGlvbi1saXN0ZW5lciJ9"
  end.

End ValidationNotions.

Section ValidationSamples.
Import Validation.

(** An implementation of the imported functions to evaluate with: the
    context "deny" is refused, every other one allowed, and the
    generated correlation id is a fixed text. *)
Definition sample_utils : Utils :=
  {| EntitlementResult := bool * option string;
     allowed := fst;
     reason := snd;
     checkEntitlement := λ context,
       if decide (context = Text "deny")
       then (false, Some "tenant suspended") else (true, None);
     getOrCreateCorrelationId := λ _, "generated-id" |}.

(** A request with the three headers of the strict middleware. *)
Definition sample_request : @Request sample_utils :=
  {| headers :=
       list_to_map
         [("content-type", Text "application/json; charset=utf-8");
          ("x-correlation-id", Text "corr-1");
          ("x-entitlement-context", Text "e30=")];
     correlationId := None;
     entitlement := None |}.

End ValidationSamples.

(** * Properties *)

(** ** The approval signal and its confidence *)

Section ApprovalLearningFacts.
Import ApprovalLearning.

Lemma max_min_clamp (x : Q) : Qmax (-1) (Qmin 1 x) == clamp (-1) 1 x.
Proof.
  unfold clamp.
  destruct (Qlt_le_dec x (-1)) as [Hlo|Hlo].
  - rewrite Q.max_l; [reflexivity|].
    apply Qle_trans with x; [apply Q.le_min_r | lra].
  - destruct (Qlt_le_dec 1 x) as [Hhi|Hhi].
    + rewrite Q.min_l by lra. rewrite Q.max_r by lra. reflexivity.
    + rewrite Q.min_r by lra. rewrite Q.max_r by lra. reflexivity.
Qed.

Lemma clamp_range (x : Q) : (-1 <= clamp (-1) 1 x <= 1)%Q.
Proof.
  unfold clamp.
  destruct (Qlt_le_dec x (-1)); [lra|].
  destruct (Qlt_le_dec 1 x); lra.
Qed.


Lemma normalizeApprovalSignal_range approved adjustment :
  (-1 <= normalizeApprovalSignal approved adjustment <= 1)%Q.
Proof.
  destruct adjustment as [a|]; simpl.
  - rewrite max_min_clamp. apply clamp_range.
  - destruct approved; lra.
Qed.

(** C5. Without an adjustment the signal is the base signal, +1 for an
    approval and -1 for a rejection; with an adjustment [a] it is the
    base signal times [1 + a], clamped to [-1, 1].  The four values the
    spec lists follow. *)
Theorem normalizeApprovalSignal_spec :
  (∀ approved : bool,
     normalizeApprovalSignal approved None
       == (if approved then 1 else -1))%Q
  ∧ (∀ (approved : bool) (a : Q),
       normalizeApprovalSignal approved (Some a)
         == clamp (-1) 1 ((if approved then 1 else -1) * (1 + a)))%Q
  ∧ (normalizeApprovalSignal true None == 1)%Q
  ∧ (normalizeApprovalSignal false None == -1)%Q
  ∧ (normalizeApprovalSignal true (Some (-1)%Q) == 0)%Q
  ∧ (normalizeApprovalSignal true (Some 1%Q) == 1)%Q.
Proof.
  split_and!.
  - intros []; reflexivity.
  - intros approved a. unfold normalizeApprovalSignal.
    rewrite max_min_clamp. destruct approved; reflexivity.
  - reflexivity.
  - reflexivity.
  - reflexivity.
  - reflexivity.
Qed.

Lemma confidence_spec_range signal found known :
  (-1 <= signal <= 1)%Q → (0 <= confidence_spec signal found known <= 1)%Q.
Proof.
  intros Hs. unfold confidence_spec.
  assert (0 <= Qabs signal <= 1)%Q as H0.
  { split; [apply Qabs_nonneg | apply Qabs_Qle_condition; lra]. }
  assert (0 <= (if found then Qmin 1 (Qabs signal + 0.1) else Qabs signal)
          <= 1)%Q as H1.
  { destruct found; [|exact H0]. split.
    - apply Q.min_glb; lra.
    - apply Q.le_min_l. }
  destruct known; [|exact H1]. split.
  - apply Q.min_glb; lra.
  - apply Q.le_min_l.
Qed.

Lemma truthy_Some (x : option string) :
  Js.truthy x = true ↔ ∃ s, x = Some s ∧ s ≠ EmptyString.
Proof.
  destruct x as [[|c s]|]; simpl; split; try done.
  - intros (s & [= <-] & Hs). done.
  - intros _. eauto.
  - intros (s & ? & _). done.
Qed.

Lemma role_known_spec body : role_known (reviewer_role body) = reviewer_known body.
Proof.
  unfold role_known, reviewer_known.
  destruct (reviewer_role body) as [[|c s]|]; [done| |done].
  change (negb (String.eqb (String c s) "unknown")
          = bool_decide (String c s ≠ EmptyString ∧ String c s ≠ "unknown")).
  destruct (String.eqb_spec (String c s) "unknown") as [->|Hne].
  - symmetry. apply bool_decide_eq_false_2. intros [_ ?]. done.
  - symmetry. apply bool_decide_eq_true_2. done.
Qed.

Lemma approval_handler_201 body w :
  schema_ok body = true →
  ∃ created_at w',
    let event :=
      learningEventOf body (sourceDecisionOf body w) (inputsTimestampOf body w)
        (uuid_source w (uuid_reads w)) created_at in
    createApprovalLearningHandler body w = (Status201 (responseOf body event), w')
    ∧ learning_events (db w') =
        (if hash_taken (fingerprintOf body w) (learning_events (db w))
         then learning_events (db w)
         else learning_events (db w) ++ [rowOf event])
    ∧ decisions (db w') = decisions (db w)
    ∧ approvals (db w') = approvals (db w)
    ∧ uuid_source w' = uuid_source w
    ∧ uuid_reads w' = S (uuid_reads w)
    ∧ clock_source w' = clock_source w.
Proof.
  intros Hok.
  unfold fingerprintOf, sourceDecisionOf, inputsTimestampOf.
  unfold createApprovalLearningHandler, handle, loadSourceDecision,
    str_or_now, emitLearningDecisionEvent, insert_on_conflict_do_nothing,
    select_decision, uuidv4, isoNow.
  unfold mbind, M_bind, mret, M_ret, throw. rewrite Hok.
  destruct (Js.truthy (decision_id body));
    destruct (Js.truthy (timestamp body));
    cbn [db learning_events clock_source clock_reads uuid_source uuid_reads
         inputs_hash learningEventOf rowOf le_inputs_hash];
    match goal with
    | |- context [hash_taken ?h ?l] => destruct (hash_taken h l)
    end;
    eexists _, _; split_and!; reflexivity.
Qed.

Lemma sourceDecisionOf_found body w :
  bool_decide (is_Some (sourceDecisionOf body w)) = source_found body w.
Proof.
  unfold sourceDecisionOf, source_found.
  destruct (decision_id body) as [[|c i]|]; [done| |done].
  cbn. apply bool_decide_ext. rewrite head_is_Some. split.
  - intros Hne. split; [done|].
    destruct (filter _ _) as [|d l] eqn:Hf; [done|].
    assert (d ∈ filter (λ d, d_id d = String c i) (decisions (db w))) as Hd
      by (rewrite Hf; left).
    apply list_elem_of_filter in Hd as [<- Hd].
    by apply list_elem_of_fmap_2.
  - intros [_ (d & Hid & Hd)%list_elem_of_fmap] Hnil.
    assert (d ∈ filter (λ d, d_id d = String c i) (decisions (db w))) as Hin
      by (apply list_elem_of_filter; auto).
    rewrite Hnil in Hin. by apply elem_of_nil in Hin.
Qed.

(** C7. A request that passes the schema is answered 201 with a
    confidence equal to the strength of the signal, plus 0.10 when the
    source decision was found, plus 0.05 when the reviewer's role is
    known, capped at 1 after each addition; it lies in [0, 1], and the
    row the request stores carries the same confidence. *)
Theorem approval_confidence_formula body w :
  schema_ok body = true →
  ∃ r w',
    createApprovalLearningHandler body w = (Status201 r, w')
    ∧ (r_confidence r
       == confidence_spec (r_normalized_signal r) (source_found body w)
            (reviewer_known body))%Q
    ∧ (0 <= r_confidence r <= 1)%Q
    ∧ (∀ row, row ∈ learning_events (db w') →
              row ∉ learning_events (db w) →
              le_confidence row = r_confidence r).
Proof.
  intros Hok.
  destruct (approval_handler_201 body w Hok)
    as (created_at & w' & Hrun & Hrows & _).
  eexists _, w'. split; [exact Hrun|].
  assert (r_confidence (responseOf body
            (learningEventOf body (sourceDecisionOf body w)
               (inputsTimestampOf body w) (uuid_source w (uuid_reads w))
               created_at))
          = confidence_spec
              (normalizeApprovalSignal (approved body)
                 (confidence_adjustment body))
              (source_found body w) (reviewer_known body)) as Hconf.
  { cbn [r_confidence responseOf confidence learningEventOf].
    unfold contextConfidence, confidence_spec.
    by rewrite sourceDecisionOf_found, role_known_spec. }
  split; [|split].
  - rewrite Hconf. reflexivity.
  - rewrite Hconf. apply confidence_spec_range, normalizeApprovalSignal_range.
  - intros row Hin Hout. rewrite Hrows in Hin.
    destruct (hash_taken _ _); [done|].
    apply elem_of_app in Hin as [Hin|Hin]; [done|].
    apply list_elem_of_singleton in Hin as ->. reflexivity.
Qed.

Lemma approval_confidence_formula_witness :
  schema_ok sample_rejection = true
  ∧ ∃ r w',
      createApprovalLearningHandler sample_rejection world_with_decision
      = (Status201 r, w')
      ∧ (r_confidence r
         == confidence_spec (r_normalized_signal r)
              (source_found sample_rejection world_with_decision)
              (reviewer_known sample_rejection))%Q
      ∧ (0 <= r_confidence r <= 1)%Q
      ∧ (∀ row, row ∈ learning_events (db w') →
                row ∉ learning_events (db world_with_decision) →
                le_confidence row = r_confidence r).
Proof.
  split; [reflexivity|].
  apply (approval_confidence_formula sample_rejection world_with_decision).
  reflexivity.
Defined.

End ApprovalLearningFacts.

(** ** The feedback normalizer *)

Section FeedbackAssimilationFacts.
Import FeedbackAssimilation.

Lemma baseSentiment_table feedbackType :
  baseSentiment feedbackType = table_lookup base_sentiment_table feedbackType.
Proof.
  unfold baseSentiment, base_sentiment_table, table_lookup.
  repeat match goal with
  | |- context [String.eqb feedbackType ?s] =>
      destruct (String.eqb_spec feedbackType s) as [->|?]
  end;
  repeat case_decide; congruence.
Qed.

Lemma deriveSentiment_spec feedbackType rawFeedback :
  (deriveSentimentFromFeedbackType feedbackType rawFeedback
   == sentiment_spec feedbackType rawFeedback)%Q.
Proof.
  unfold deriveSentimentFromFeedbackType, sentiment_spec.
  rewrite max_min_clamp, baseSentiment_table. reflexivity.
Qed.

(** C6. Without structured ratings the normalizer derives one sentiment,
    the base sentiment of the type plus 0.2 for each positive keyword
    and minus 0.2 for each negative keyword, clamped to [-1, 1], and
    returns it on all four dimensions at confidence 0.6; three positive
    and one negative keyword with the type "suggestion" give 0.7. *)
Theorem feedback_sentiment_replicated :
  (∀ rawFeedback feedbackType,
     ∃ v, (v == sentiment_spec feedbackType rawFeedback)%Q
          ∧ parseFeedbackDimensions rawFeedback feedbackType None
            = replicated v
          ∧ parseFeedbackDimensions rawFeedback feedbackType (Some no_ratings)
            = replicated v
          ∧ n_normalized_signals
              (normalizeFeedback rawFeedback feedbackType None)
            = replicated v)
  ∧ (∀ rawFeedback,
       positive_count rawFeedback = 3 →
       negative_count rawFeedback = 1 →
       ∃ v, (v == 0.7)%Q
            ∧ parseFeedbackDimensions rawFeedback "suggestion" None
              = replicated v).
Proof.
  split.
  - intros rawFeedback feedbackType.
    exists (deriveSentimentFromFeedbackType feedbackType rawFeedback).
    split; [apply deriveSentiment_spec|]. split_and!; reflexivity.
  - intros rawFeedback Hpos Hneg.
    exists (deriveSentimentFromFeedbackType "suggestion" rawFeedback).
    split; [|reflexivity].
    rewrite deriveSentiment_spec. unfold sentiment_spec.
    rewrite Hpos, Hneg. reflexivity.
Qed.

Lemma feedback_sentiment_replicated_witness :
  positive_count "Excellent and great, good work, but poor naming" = 3
  ∧ negative_count "Excellent and great, good work, but poor naming" = 1
  ∧ ∃ v, (v == 0.7)%Q
         ∧ parseFeedbackDimensions
             "Excellent and great, good work, but poor naming"
             "suggestion" None
           = replicated v.
Proof.
  split; [reflexivity|]. split; [reflexivity|].
  apply (proj2 feedback_sentiment_replicated); reflexivity.
Defined.

End FeedbackAssimilationFacts.

(** ** Strings: splitting, joining and the decimal form of integers *)

Lemma split_nonempty sep s : Js.split sep s ≠ [].
Proof.
  destruct s as [|c s]; [done|]. cbn [Js.split].
  destruct (Ascii.eqb c sep); [done|]. by destruct (Js.split sep s).
Qed.

Lemma split_no_sep sep t :
  contains_char sep t = false → Js.split sep t = [t].
Proof.
  induction t as [|c t IH]; [done|]. cbn [contains_char Js.split].
  intros [Hc Ht]%orb_false_elim. rewrite Hc, (IH Ht). done.
Qed.

Lemma split_app_l sep a b :
  contains_char sep a = false →
  Js.split sep (a +:+ String sep b) = a :: Js.split sep b.
Proof.
  induction a as [|c a IH]; cbn [contains_char].
  - intros _. change (EmptyString +:+ String sep b) with (String sep b).
    cbn [Js.split]. by rewrite Ascii.eqb_refl.
  - intros [Hc Ha]%orb_false_elim.
    change (String c a +:+ String sep b) with (String c (a +:+ String sep b)).
    cbn [Js.split]. by rewrite Hc, (IH Ha).
Qed.

Lemma split_app_r sep a t :
  contains_char sep t = false →
  Js.split sep (a +:+ String sep t) = Js.split sep a ++ [t].
Proof.
  intros Ht. induction a as [|c a IH].
  - change (EmptyString +:+ String sep t) with (String sep t).
    cbn [Js.split]. by rewrite Ascii.eqb_refl, (split_no_sep _ _ Ht).
  - change (String c a +:+ String sep t) with (String c (a +:+ String sep t)).
    cbn [Js.split]. rewrite IH. destruct (Ascii.eqb c sep); [done|].
    pose proof (split_nonempty sep a). by destruct (Js.split sep a).
Qed.

Lemma join_split sep s :
  Js.join (String sep EmptyString) (Js.split sep s) = s.
Proof.
  unfold Js.join. induction s as [|c s IH]; [done|]. cbn [Js.split].
  pose proof (split_nonempty sep s) as Hne.
  destruct (Js.split sep s) as [|p ps]; [done|].
  destruct (Ascii.eqb c sep) eqn:Hc.
  - apply Ascii.eqb_eq in Hc as ->.
    change (String sep (String.concat (String sep EmptyString) (p :: ps))
            = String sep s).
    by rewrite IH.
  - destruct ps as [|q qs].
    + cbn in *. by rewrite IH.
    + change (String c (String.concat (String sep EmptyString) (p :: q :: qs))
              = String c s).
      by rewrite IH.
Qed.

Lemma digits_value_uint_acc d acc :
  Js.digits_value (NilEmpty.string_of_uint d) (Z.pos acc)
  = Z.pos (Pos.of_uint_acc d acc).
Proof.
  revert acc. induction d; intros acc; cbn [NilEmpty.string_of_uint];
    [done|..];
    cbn [Js.digits_value Pos.of_uint_acc];
    match goal with
    | |- context [Js.digit_of_char ?c] =>
        change (Js.digit_of_char c) with (Some (Z.of_nat (nat_of_ascii c) - 48))
    end; rewrite <- IHd; f_equal;
    match goal with
    | |- context [Z.of_nat (nat_of_ascii ?c)] =>
        let v := eval vm_compute in (Z.of_nat (nat_of_ascii c)) in
        change (Z.of_nat (nat_of_ascii c)) with v
    end; lia.
Qed.

Lemma digits_value_uint d :
  Js.digits_value (NilEmpty.string_of_uint d) 0 = Z.of_uint d.
Proof.
  unfold Z.of_uint.
  induction d; cbn [NilEmpty.string_of_uint Pos.of_uint]; [done|..];
    cbn [Js.digits_value];
    match goal with
    | |- context [Js.digit_of_char ?c] =>
        let v := eval vm_compute in (Js.digit_of_char c) in
        change (Js.digit_of_char c) with v
    end; cbv iota beta;
    try exact IHd;
    match goal with
    | |- Js.digits_value _ ?a = _ =>
        let v := eval vm_compute in a in change a with v
    end; apply digits_value_uint_acc.
Qed.

Lemma uint_starts_with_digit d :
  d ≠ Decimal.Nil → Js.starts_with_digit (NilEmpty.string_of_uint d) = true.
Proof. by destruct d. Qed.

Lemma uint_trimStart d :
  Js.trimStart (NilEmpty.string_of_uint d) = NilEmpty.string_of_uint d.
Proof. by destruct d. Qed.

Lemma uint_no_colon d :
  contains_char ":" (NilEmpty.string_of_uint d) = false.
Proof. induction d; cbn [NilEmpty.string_of_uint contains_char]; done. Qed.

Lemma parseInt_uint d :
  d ≠ Decimal.Nil →
  Js.parseInt (NilEmpty.string_of_uint d) = Some (Z.of_uint d).
Proof.
  intros Hd. unfold Js.parseInt. rewrite uint_trimStart.
  pose proof (uint_starts_with_digit d Hd) as Hs.
  pose proof (digits_value_uint d) as Hv.
  destruct d; [done|..]; cbn [NilEmpty.string_of_uint] in *;
    rewrite Hs, Hv; reflexivity.
Qed.

Lemma parseInt_numberToString n : Js.parseInt (Js.numberToString n) = Some n.
Proof.
  unfold Js.numberToString.
  rewrite <- (DecimalZ.of_to n) at 2.
  destruct n as [|p|p]; cbn [Z.to_int NilZero.string_of_int Z.of_int].
  - reflexivity.
  - pose proof (DecimalPos.Unsigned.to_uint_nonnil p) as Hp.
    unfold NilZero.string_of_uint.
    destruct (Pos.to_uint p) eqn:Hd; [done|..]; rewrite <- Hd in *;
      by apply parseInt_uint.
  - pose proof (DecimalPos.Unsigned.to_uint_nonnil p) as Hp.
    replace (NilZero.string_of_uint (Pos.to_uint p))
      with (NilEmpty.string_of_uint (Pos.to_uint p))
      by (unfold NilZero.string_of_uint; by destruct (Pos.to_uint p)).
    unfold Js.parseInt.
    change (Js.trimStart (String "-" ?s)) with (String "-" s).
    cbv iota beta.
    by rewrite (uint_starts_with_digit _ Hp), digits_value_uint.
Qed.

Lemma numberToString_no_colon n :
  contains_char ":" (Js.numberToString n) = false.
Proof.
  unfold Js.numberToString.
  destruct (Z.to_int n) as [d|d]; cbn [NilZero.string_of_int];
    unfold NilZero.string_of_uint; destruct d eqn:Hd; try done;
    rewrite <- Hd; cbn [contains_char]; by rewrite ?uint_no_colon.
Qed.


(** ** Lists: filters and keys *)

Lemma filter_fmap {A B} (f : A → B) (P : B → Prop) `{!∀ y, Decision (P y)}
    (l : list A) :
  filter P (f <$> l) = f <$> filter (λ x, P (f x)) l.
Proof.
  induction l as [|x l IH]; [done|].
  rewrite fmap_cons, !filter_cons, IH. by destruct (decide (P (f x))).
Qed.

Lemma filter_ext_elem_of {A} (P Q : A → Prop) `{!∀ x, Decision (P x)}
    `{!∀ x, Decision (Q x)} (l : list A) :
  (∀ x, x ∈ l → P x ↔ Q x) → filter P l = filter Q l.
Proof.
  induction l as [|x l IH]; intros Hext; [done|].
  rewrite !filter_cons, IH by (intros; apply Hext; by right).
  pose proof (Hext x (list_elem_of_here x l)).
  destruct (decide (P x)), (decide (Q x)); tauto.
Qed.

Lemma filter_Forall_all {A} (P : A → Prop) `{!∀ x, Decision (P x)} l :
  Forall P l → filter P l = l.
Proof.
  induction 1 as [|x l Hx _ IH]; [done|].
  by rewrite filter_cons_True, IH.
Qed.

Lemma filter_Forall_none {A} (P : A → Prop) `{!∀ x, Decision (P x)} l :
  Forall (λ x, ¬ P x) l → filter P l = [].
Proof.
  induction 1 as [|x l Hx _ IH]; [done|].
  by rewrite filter_cons_False, IH.
Qed.

Lemma unique_match {A} (f : A → string) (x : string) (l : list A) :
  NoDup (f <$> l) → x ∈ f <$> l → ∃ d, filter (λ d, f d = x) l = [d].
Proof.
  induction l as [|d l IH]; intros Hnd Hx.
  - by apply elem_of_nil in Hx.
  - rewrite fmap_cons in Hnd, Hx. apply NoDup_cons in Hnd as [Hd Hnd].
    rewrite filter_cons. destruct (decide (f d = x)) as [<-|Hne].
    + exists d. f_equal.
      destruct (filter (λ d0, f d0 = f d) l) as [|d' l'] eqn:Hf; [done|].
      exfalso. apply Hd.
      assert (d' ∈ filter (λ d0, f d0 = f d) l) as Hd' by (rewrite Hf; left).
      apply list_elem_of_filter in Hd' as [<- Hd'].
      by apply list_elem_of_fmap_2.
    + apply IH; [done|]. apply elem_of_cons in Hx as [Hx|Hx]; [|done].
      by subst.
Qed.

Lemma filter_no_match {A} (f : A → string) (x : string) (l : list A) :
  x ∉ f <$> l → filter (λ d, f d = x) l = [].
Proof.
  intros Hx. apply filter_Forall_none, Forall_forall.
  intros d Hd <-. apply Hx. by apply list_elem_of_fmap_2.
Qed.

Lemma NoDup_fmap_eq {A B} (f : A → B) (l : list A) x y :
  NoDup (f <$> l) → x ∈ l → y ∈ l → f x = f y → x = y.
Proof.
  intros Hnd [i Hi]%list_elem_of_lookup [j Hj]%list_elem_of_lookup Hxy.
  assert (i = j) as ->.
  { eapply NoDup_lookup; [exact Hnd| |];
      rewrite list_lookup_fmap; [by rewrite Hi|by rewrite Hj, Hxy]. }
  congruence.
Qed.
(** ** The decision-event feed: limit, type filter and failing queries *)

Section DecisionEventsFacts.
Import DecisionEvents.
Context `{!Collation} `{!Js.Locale}.

Lemma parseLimit_range limit : 1 ≤ parseLimit limit ≤ 1000.
Proof. unfold parseLimit, MAX_LIMIT. lia. Qed.

Lemma parseLimit_absent : parseLimit None = 100.
Proof. reflexivity. Qed.

(** A limit that parses to a number other than zero is clamped; zero and
    text that does not parse fall back to the default. *)
Lemma parseLimit_clamps s n :
  Js.parseInt s = Some n → n ≠ 0 →
  parseLimit (Some s) = Z.min (Z.max n 1) 1000.
Proof.
  intros Hs Hn. unfold parseLimit.
  change (default "undefined" (Some s)) with s. rewrite Hs.
  by rewrite (proj2 (Z.eqb_neq n 0) Hn).
Qed.

Lemma parseLimit_default s :
  Js.parseInt s = None ∨ Js.parseInt s = Some 0 →
  parseLimit (Some s) = 100.
Proof.
  intros [Hs|Hs]; unfold parseLimit;
    change (default "undefined" (Some s)) with s; by rewrite Hs.
Qed.

Lemma query_binds {R} c (rows : list R) :
  cursor_binds c → query c rows = Some rows.
Proof. destruct c as [c|]; [|done]. cbn. by intros ->. Qed.

Lemma query_rejected {R} c (rows : list R) :
  ¬ cursor_binds c → query c rows = None.
Proof.
  destruct c as [c|]; cbn; [|tauto].
  by destruct (readable_date (c_timestamp c)).
Qed.

(** Every request runs at least one of the two queries. *)
Lemma some_query_runs kinds :
  includes_type (parseEventTypes kinds) plan_created
  || (includes_type (parseEventTypes kinds) plan_approved
      || includes_type (parseEventTypes kinds) plan_rejected
      || includes_type (parseEventTypes kinds) plan_deferred) = true.
Proof.
  unfold parseEventTypes. destruct (Js.truthy kinds); [|done].
  destruct (omap _ _) as [|t l]; [done|]. cbn [includes_type].
  destruct t;
    repeat match goal with
    | |- context [bool_decide (?t ∈ ?t :: ?l)] =>
        rewrite (bool_decide_eq_true_2 (t ∈ t :: l)) by left
    end; by rewrite ?orb_true_r.
Qed.

(** The answer to a request whose cursor binds, and to one whose cursor
    does not. *)
Lemma handler_binds req db :
  cursor_binds (cursorParts (after req)) →
  listDecisionEventsHandler req db
  = Status200
      {| events :=
           take (Z.to_nat (parseLimit (limit req)))
             (sortEvents
                (selected_events (parseEventTypes (types req))
                   (cursorParts (after req)) (parseLimit (limit req)) db));
         next_cursor :=
           id <$>
             last
               (take (Z.to_nat (parseLimit (limit req)))
                  (sortEvents
                     (selected_events (parseEventTypes (types req))
                        (cursorParts (after req))
                        (parseLimit (limit req)) db))) |}.
Proof.
  intros Hc. unfold listDecisionEventsHandler, selected_events.
  rewrite !(query_binds _ _ Hc).
  destruct (includes_type _ plan_created);
    destruct (includes_type _ plan_approved || includes_type _ plan_rejected
              || includes_type _ plan_deferred); reflexivity.
Qed.

Lemma handler_rejected req db :
  ¬ cursor_binds (cursorParts (after req)) →
  listDecisionEventsHandler req db = Status500.
Proof.
  intros Hc. unfold listDecisionEventsHandler.
  rewrite !(query_rejected _ _ Hc).
  pose proof (some_query_runs (types req)) as Hruns.
  destruct (includes_type _ plan_created);
    destruct (includes_type _ plan_approved || includes_type _ plan_rejected
              || includes_type _ plan_deferred); done.
Qed.

Lemma events_of_handler req db :
  events_of (listDecisionEventsHandler req db)
  = if decide (cursor_binds (cursorParts (after req))) then
      take (Z.to_nat (parseLimit (limit req)))
        (sortEvents
           (selected_events (parseEventTypes (types req))
              (cursorParts (after req)) (parseLimit (limit req)) db))
    else [].
Proof.
  case_decide as Hc.
  - by rewrite (handler_binds req db Hc).
  - by rewrite (handler_rejected req db Hc).
Qed.

Lemma next_cursor_of_handler req db :
  next_cursor_of (listDecisionEventsHandler req db)
  = id <$> last (events_of (listDecisionEventsHandler req db)).
Proof.
  destruct (decide (cursor_binds (cursorParts (after req)))) as [Hc|Hc].
  - by rewrite (handler_binds req db Hc).
  - by rewrite (handler_rejected req db Hc).
Qed.

Lemma handler_cursor_only kinds a1 a2 lim db :
  cursorParts a1 = cursorParts a2 →
  listDecisionEventsHandler {| types := kinds; after := a1; limit := lim |} db
  = listDecisionEventsHandler
      {| types := kinds; after := a2; limit := lim |} db.
Proof.
  intros Hc. unfold listDecisionEventsHandler. simpl.
  by rewrite Hc.
Qed.

(** C9, as the code has it.  The page size lies in [1, 1000] whatever
    the limit parameter holds.  A limit that reads as a number other
    than zero is forced into that interval: above 1000 it gives 1000,
    below 0 it gives 1, between them it is kept.  Without the parameter
    the page size is 100, and so it is for a limit of zero and for a
    limit that does not read as a number.  No response lists more
    events than the page size. *)
Theorem page_size_bounds :
  (∀ limit, 1 ≤ parseLimit limit ≤ 1000)
  ∧ (∀ s n, Js.parseInt s = Some n → n ≠ 0 →
            parseLimit (Some s) = page_size_spec (Some n))
  ∧ (∀ n, n ≠ 0 →
          parseLimit (Some (Js.numberToString n)) = page_size_spec (Some n))
  ∧ (∀ n, (1000 < n → page_size_spec (Some n) = 1000)
          ∧ (n < 1 → page_size_spec (Some n) = 1)
          ∧ (1 ≤ n ≤ 1000 → page_size_spec (Some n) = n))
  ∧ parseLimit None = 100
  ∧ (∀ s, Js.parseInt s = None ∨ Js.parseInt s = Some 0 →
          parseLimit (Some s) = 100)
  ∧ (∀ req db,
       Z.of_nat (length (events_of (listDecisionEventsHandler req db)))
       ≤ parseLimit (limit req)).
Proof.
  split; [exact parseLimit_range|].
  split; [exact parseLimit_clamps|].
  split.
  { intros n Hn. apply parseLimit_clamps; [|done].
    apply parseInt_numberToString. }
  split; [intros n; unfold page_size_spec; lia|].
  split; [exact parseLimit_absent|].
  split; [exact parseLimit_default|].
  intros req db. rewrite events_of_handler.
  pose proof (parseLimit_range (limit req)).
  case_decide; [rewrite length_take|cbn [length]]; lia.
Qed.

Lemma reviewed_event_type row :
  type (reviewed_event row) = plan_approved
  ∨ type (reviewed_event row) = plan_rejected.
Proof. unfold reviewed_event. cbn. destruct (a_approved row.1); auto. Qed.

Lemma sortEvents_elem_of e l : e ∈ sortEvents l ↔ e ∈ l.
Proof. unfold sortEvents. by rewrite merge_sort_Permutation. Qed.

(** C10. With [types=plan_deferred] the approvals relation is queried
    without a condition on the approved flag: a request without a
    cursor, or with a cursor whose [Date] the store can read, is
    answered with the page of all reviews (a cursor beyond the range of
    [Date] is answered 500); every event on that page is of type
    [plan_approved] or [plan_rejected], none of the requested type, and
    a store with an approval and a rejection answers with both. *)
Theorem deferred_filter_returns_reviews :
  (∀ after limit db,
     cursor_binds (cursorParts after) →
     listDecisionEventsHandler
       {| types := Some "plan_deferred"; after := after; limit := limit |} db
     = Status200
         {| events := reviews_page after limit db;
            next_cursor := id <$> last (reviews_page after limit db) |})
  ∧ (∀ after cu limit db,
       cursorParts after = Some cu →
       Js.valid_time (c_timestamp cu) = false →
       listDecisionEventsHandler
         {| types := Some "plan_deferred"; after := after; limit := limit |}
         db
       = Status500)
  ∧ (∀ after limit db e,
       e ∈ reviews_page after limit db →
       type e ≠ plan_deferred
       ∧ (type e = plan_approved ∨ type e = plan_rejected))
  ∧ (type <$> reviews_page None None sample_db)
    = [plan_approved; plan_rejected].
Proof.
  split; [|split; [|split]].
  - intros after limit db Hc.
    by rewrite (handler_binds
                  {| types := Some "plan_deferred"; after := after;
                     limit := limit |} db Hc).
  - intros after cu limit db Hcu Hinvalid.
    apply handler_rejected. cbn [DecisionEvents.after]. rewrite Hcu.
    cbn [cursor_binds]. unfold readable_date. by rewrite Hinvalid.
  - intros after limit db e He. unfold reviews_page in He.
    apply (subseteq_take _ _) in He.
    rewrite sortEvents_elem_of in He.
    apply list_elem_of_fmap in He as (row & -> & _).
    destruct (reviewed_event_type row) as [-> | ->]; auto.
  - vm_compute. reflexivity.
Qed.

End DecisionEventsFacts.

Section DecisionEventsSamples.
Import DecisionEvents.
#[local] Existing Instance code_units.
#[local] Existing Instance sample_locale.

(** C9 as stated fails at a limit of zero: the page size is 100, where
    the limit forced into the interval from 1 to 1000 is 1. *)
Lemma limit_zero_is_not_clamped :
  Js.numberToString 0 = "0"
  ∧ parseLimit (Some "0") = 100
  ∧ page_size_spec (Some 0) = 1
  ∧ parseLimit (Some "0") ≠ page_size_spec (Some 0).
Proof. repeat split; try reflexivity. vm_compute. discriminate. Qed.

Lemma deferred_filter_returns_reviews_witness :
  listDecisionEventsHandler
      {| types := Some "plan_deferred"; after := None; limit := None |}
      sample_db
    = Status200
        {| events := reviews_page None None sample_db;
           next_cursor := id <$> last (reviews_page None None sample_db) |}
  ∧ sample_review ∈ reviews_page None None sample_db
  ∧ type sample_review ≠ plan_deferred
  ∧ (type sample_review = plan_approved ∨ type sample_review = plan_rejected).
Proof.
  assert (sample_review ∈ reviews_page None None sample_db) as Hin.
  { vm_compute. left. }
  split.
  - exact (proj1 deferred_filter_returns_reviews None None sample_db I).
  - split; [exact Hin|].
    exact (proj1 (proj2 (proj2 deferred_filter_returns_reviews))
             None None sample_db sample_review Hin).
Defined.

End DecisionEventsSamples.

(** ** The cursor of an event parses back to its row *)

Section CursorFacts.
Import DecisionEvents.

Lemma buildEventId_unfold t i ts :
  buildEventId t i ts
  = t +:+ String ":" (i +:+ String ":" (Js.numberToString ts)).
Proof. reflexivity. Qed.

Lemma parseCursor_buildEventId t i ts :
  contains_char ":" t = false →
  parseCursor (buildEventId t i ts)
  = Some {| c_type := t; c_id := i; c_timestamp := ts |}.
Proof.
  intros Ht. unfold parseCursor. rewrite buildEventId_unfold.
  rewrite (split_app_l _ _ _ Ht),
    (split_app_r _ _ _ (numberToString_no_colon ts)).
  pose proof (split_nonempty ":" i) as Hne.
  rewrite bool_decide_eq_false_2.
  2:{ cbn [length]. rewrite length_app. cbn [length].
      destruct (Js.split ":" i); [done|]. cbn [length]. lia. }
  unfold Js.slice_1_m1. cbn [hd tail]. rewrite removelast_last, join_split.
  by rewrite app_comm_cons, List.last_last, parseInt_numberToString.
Qed.

Lemma buildEventId_truthy t i ts :
  Js.truthy (Some (buildEventId t i ts)) = true.
Proof. rewrite buildEventId_unfold. by destruct t. Qed.

Lemma cursorParts_buildEventId t i ts :
  contains_char ":" t = false →
  cursorParts (Some (buildEventId t i ts))
  = Some {| c_type := t; c_id := i; c_timestamp := ts |}.
Proof.
  intros Ht. unfold cursorParts. rewrite buildEventId_truthy.
  by apply parseCursor_buildEventId.
Qed.

Lemma type_tag_no_colon t : contains_char ":" (type_tag t) = false.
Proof. by destruct t. Qed.

End CursorFacts.

(** ** Sorting rows whose keys are distinct

    A total relation [R] that refines the order of an integer key [k]
    sorts a list with distinct keys into the one list that is strictly
    increasing by [k]. *)

Section StrictKey.
Context {A : Type} (R : relation A) `{!RelDecision R} `{!Total R}.
Context (k : A → Z).
Hypothesis R_key_le : ∀ a b, R a b → k a ≤ k b.
Hypothesis key_lt_R : ∀ a b, k a < k b → R a b.

Lemma key_lt_sublist (l1 l2 : list A) :
  l1 `sublist_of` l2 →
  StronglySorted (key_lt k) l2 → StronglySorted (key_lt k) l1.
Proof.
  induction 1 as [|x l1 l2 Hsub IH|x l1 l2 Hsub IH]; intros Hs.
  - constructor.
  - apply StronglySorted_inv in Hs as [Hs Hx]. constructor; [by apply IH|].
    rewrite Forall_forall in Hx |- *. intros y Hy. apply Hx.
    by eapply elem_of_sublist.
  - apply StronglySorted_inv in Hs as [Hs _]. by apply IH.
Qed.

Lemma Sorted_key_strict (l : list A) :
  Sorted R l → NoDup (k <$> l) → StronglySorted (key_lt k) l.
Proof.
  intros Hs Hnd. apply Sorted_StronglySorted.
  { intros a b c. unfold key_lt. lia. }
  induction Hs as [|a l Hs IH Hhd]; [constructor|].
  rewrite fmap_cons in Hnd. apply NoDup_cons in Hnd as [Ha Hnd].
  constructor; [by apply IH|].
  destruct Hhd as [|b l' Hab]; constructor.
  pose proof (R_key_le _ _ Hab). unfold key_lt.
  assert (k a ≠ k b); [|lia].
  intros Heq. apply Ha. rewrite Heq. left.
Qed.

Lemma key_strict_Sorted (l : list A) :
  StronglySorted (key_lt k) l → Sorted R l.
Proof.
  intros Hs. apply StronglySorted_Sorted in Hs.
  induction Hs as [|a l Hs IH Hhd]; constructor; [done|].
  destruct Hhd; constructor. by apply key_lt_R.
Qed.

Lemma key_strict_unique (l1 l2 : list A) :
  StronglySorted (key_lt k) l1 → StronglySorted (key_lt k) l2 →
  l1 ≡ₚ l2 → l1 = l2.
Proof.
  apply StronglySorted_unique_strong.
  unfold key_lt. intros; lia.
Qed.

Lemma merge_sort_strict (l : list A) :
  NoDup (k <$> l) → StronglySorted (key_lt k) (merge_sort R l).
Proof.
  intros Hnd. apply Sorted_key_strict; [by apply Sorted_merge_sort|].
  by rewrite merge_sort_Permutation.
Qed.

Lemma merge_sort_unique (l s : list A) :
  NoDup (k <$> l) → StronglySorted (key_lt k) s → s ≡ₚ l →
  merge_sort R l = s.
Proof.
  intros Hnd Hs Hp. apply key_strict_unique; [by apply merge_sort_strict|done|].
  by rewrite merge_sort_Permutation.
Qed.

Lemma merge_sort_filter (P : A → Prop) `{!∀ x, Decision (P x)} (l : list A) :
  NoDup (k <$> l) →
  merge_sort R (filter P l) = filter P (merge_sort R l).
Proof.
  intros Hnd. apply merge_sort_unique.
  - apply (sublist_NoDup _ (k <$> l)); [exact Hnd|].
    apply fmap_sublist, sublist_filter.
  - eapply key_lt_sublist; [apply sublist_filter|]. by apply merge_sort_strict.
  - by rewrite merge_sort_Permutation.
Qed.

Lemma merge_sort_app (l1 l2 : list A) :
  StronglySorted (key_lt k) l1 → StronglySorted (key_lt k) l2 →
  NoDup (k <$> l1 ++ l2) →
  merge_sort R (l1 ++ l2) = list_merge R l1 l2.
Proof.
  intros H1 H2 Hnd. apply merge_sort_unique; [done| |apply merge_Permutation].
  apply Sorted_key_strict.
  - apply (Sorted_list_merge R l1 l2); by apply key_strict_Sorted.
  - by rewrite merge_Permutation.
Qed.

(** Merging the first [a] and the first [b] elements gives the same
    first [n] elements as merging the whole lists, when [n] is at most
    [a] and [b]: fetching a page from each side is enough for a page of
    the merge. *)
Lemma take_merge (n : nat) :
  ∀ (a b : nat) (l1 l2 : list A),
    (n ≤ a)%nat → (n ≤ b)%nat →
    take n (list_merge R (take a l1) (take b l2))
    = take n (list_merge R l1 l2).
Proof.
  induction n as [|n IH]; intros a b l1 l2 Ha Hb; [done|].
  destruct a as [|a]; [lia|]. destruct b as [|b]; [lia|].
  destruct l1 as [|x l1].
  { rewrite take_nil, !list_merge_nil_l, take_take. f_equal. lia. }
  destruct l2 as [|y l2].
  { rewrite take_nil, !list_merge_nil_r, take_take. f_equal. lia. }
  rewrite !firstn_cons, !list_merge_cons.
  destruct (decide (R x y)).
  - rewrite !firstn_cons. f_equal.
    rewrite <- (firstn_cons b y l2). apply IH; lia.
  - rewrite !firstn_cons. f_equal.
    rewrite <- (firstn_cons a x l1). apply IH; lia.
Qed.

(** The page of a merge of two sorted sides. *)
Lemma take_sort_takes (n : nat) (l1 l2 : list A) :
  StronglySorted (key_lt k) l1 → StronglySorted (key_lt k) l2 →
  NoDup (k <$> l1 ++ l2) →
  take n (merge_sort R (take n l1 ++ take n l2))
  = take n (merge_sort R (l1 ++ l2)).
Proof.
  intros H1 H2 Hnd.
  rewrite (merge_sort_app l1 l2), (merge_sort_app (take n l1) (take n l2));
    try done.
  - by apply take_merge.
  - eapply key_lt_sublist; [apply sublist_take|done].
  - eapply key_lt_sublist; [apply sublist_take|done].
  - apply (sublist_NoDup _ (k <$> l1 ++ l2)); [exact Hnd|].
    apply fmap_sublist, sublist_app; apply sublist_take.
Qed.

End StrictKey.
(** ** One page of the feed *)

Section PageFacts.
Import DecisionEvents.
Context `{!Collation} `{!Js.Locale}.

Global Instance event_le_total : Total event_le.
Proof.
  intros a b. unfold event_le, compareEvents.
  destruct (decide (timestamp a = timestamp b)) as [Heq|Hne].
  - rewrite !bool_decide_eq_false_2 by lia.
    pose proof (Js.localeCompare_flip (id a) (id b)). lia.
  - rewrite !bool_decide_eq_true_2 by lia. lia.
Qed.

Global Instance event_le_trans : Transitive event_le.
Proof.
  intros a b c. unfold event_le, compareEvents.
  repeat case_bool_decide; try lia.
  assert (timestamp a = timestamp b) by lia.
  assert (timestamp b = timestamp c) by lia.
  apply Js.localeCompare_trans.
Qed.

Lemma event_le_timestamp a b : event_le a b → timestamp a ≤ timestamp b.
Proof.
  unfold event_le, compareEvents. case_bool_decide as Hab; lia.
Qed.

Lemma timestamp_lt_event_le a b : timestamp a < timestamp b → event_le a b.
Proof.
  unfold event_le, compareEvents. intros Hlt.
  rewrite bool_decide_eq_true_2 by lia. lia.
Qed.

(** A [Date] is the millisecond its timestamp lies in. *)
Lemma dateOf_bounds t : 1000 * dateOf t ≤ t < 1000 * dateOf t + 1000.
Proof.
  unfold dateOf. pose proof (Z.div_mod t 1000).
  pose proof (Z.mod_pos_bound t 1000). lia.
Qed.

Lemma dateOf_whole t : (1000 | t) → timestampOf (dateOf t) = t.
Proof.
  intros [q ->]. unfold dateOf, timestampOf. by rewrite Z.div_mul by lia.
Qed.

Global Instance row_le_total {R} (key : R → Z * string) : Total (row_le key).
Proof.
  intros r1 r2. unfold row_le, key_le.
  destruct (Z.lt_total (key r1).1 (key r2).1) as [?|[Heq|?]]; auto.
  destruct (text_lt (key r2).2 (key r1).2) eqn:H21; [|auto].
  destruct (text_lt (key r1).2 (key r2).2) eqn:H12; [|auto].
  pose proof (text_lt_trans _ _ _ H21 H12) as Hcycle.
  by rewrite text_lt_irrefl in Hcycle.
Qed.

Lemma row_le_key {R} (key : R → Z * string) r1 r2 :
  row_le key r1 r2 → dateOf (key r1).1 ≤ dateOf (key r2).1.
Proof.
  unfold row_le, key_le. intros Hle.
  pose proof (dateOf_bounds (key r1).1). pose proof (dateOf_bounds (key r2).1).
  lia.
Qed.

Lemma key_lt_row_le {R} (key : R → Z * string) r1 r2 :
  dateOf (key r1).1 < dateOf (key r2).1 → row_le key r1 r2.
Proof.
  unfold row_le, key_le. intros Hlt. left.
  pose proof (dateOf_bounds (key r1).1). pose proof (dateOf_bounds (key r2).1).
  lia.
Qed.

(** Over rows that lie in distinct milliseconds, the events of the rows
    in the order of the query are the events in the order of the page. *)
Lemma fmap_sorted_rows {R} (key : R → Z * string) (f : R → DecisionEvent)
    (rows : list R) :
  (∀ r, timestamp (f r) = dateOf (key r).1) →
  NoDup ((λ r, dateOf (key r).1) <$> rows) →
  f <$> merge_sort (row_le key) rows = sortEvents (f <$> rows).
Proof.
  intros Hf Hnd. symmetry. unfold sortEvents.
  apply (merge_sort_unique event_le timestamp event_le_timestamp).
  - rewrite <- list_fmap_compose.
    erewrite list_fmap_ext; [exact Hnd|]. intros ? r _. apply Hf.
  - eapply (StronglySorted_fmap f (key_lt (λ r, dateOf (key r).1))).
    { intros r1 r2. unfold key_lt. by rewrite !Hf. }
    by apply (merge_sort_strict (row_le key) (λ r, dateOf (key r).1)
                (row_le_key key)).
  - by rewrite merge_sort_Permutation.
Qed.

(** Under a cursor that names its row the row comparison of the WHERE
    clause is the comparison of the milliseconds. *)
Lemma cursor_cond_ts_after c created_at id :
  (∀ cu, c = Some cu → dateOf created_at = c_timestamp cu →
         id = c_id cu ∧ created_at = timestampOf (c_timestamp cu)) →
  cursor_cond c created_at id = true ↔ ts_after c (dateOf created_at).
Proof.
  destruct c as [cu|]; [|done]. intros Hrow. cbn [cursor_cond ts_after].
  specialize (Hrow cu eq_refl). unfold row_after.
  pose proof (dateOf_bounds created_at) as Hms. unfold timestampOf in *.
  destruct (decide (dateOf created_at = c_timestamp cu)) as [Heq|Hne].
  - destruct (Hrow Heq) as [-> ->].
    rewrite Z.ltb_irrefl, Z.eqb_refl, text_lt_irrefl. cbn [orb andb].
    split; [done|lia].
  - clear Hrow.
    destruct (Z.ltb_spec (c_timestamp cu * 1000) created_at) as [Hlt|Hge];
      cbn [orb]; [split; [lia|done]|].
    destruct (Z.eqb_spec (c_timestamp cu * 1000) created_at) as [Heq|Hne'];
      cbn [andb]; [lia|split; [done|lia]].
Qed.

Lemma timestamp_created_event d :
  timestamp (created_event d) = dateOf (d_created_at d).
Proof. reflexivity. Qed.

Lemma timestamp_reviewed_event j :
  timestamp (reviewed_event j) = dateOf (a_created_at j.1).
Proof. reflexivity. Qed.

Lemma timestamp_allEvents db :
  timestamp <$> allEvents db
  = ((λ d, dateOf (d_created_at d)) <$> decisions db)
    ++ ((λ j, dateOf (a_created_at j.1)) <$> approvals_join db).
Proof.
  unfold allEvents. by rewrite fmap_app, <- !list_fmap_compose.
Qed.

Lemma sorted_allEvents db :
  NoDup (timestamp <$> allEvents db) →
  StronglySorted (key_lt timestamp) (sortEvents (allEvents db)).
Proof.
  intros Hnd. unfold sortEvents.
  by apply (merge_sort_strict event_le timestamp event_le_timestamp).
Qed.

(** The events of the rows one query returns. *)
Lemma side_page {R} (key : R → Z * string) (f : R → DecisionEvent)
    (cond : R → bool) (Q : DecisionEvent → Prop) `{!∀ e, Decision (Q e)}
    (n : Z) (rows : list R) :
  (∀ r, timestamp (f r) = dateOf (key r).1) →
  NoDup ((λ r, dateOf (key r).1) <$> rows) →
  (∀ r, r ∈ rows → cond r = true ↔ Q (f r)) →
  f <$> select_ordered key cond n rows
  = take (Z.to_nat n) (sortEvents (filter Q (f <$> rows))).
Proof.
  intros Hts Hnd Hcond. unfold select_ordered. rewrite fmap_take. f_equal.
  rewrite (filter_ext_elem_of _ (λ r, Q (f r)) rows) by exact Hcond.
  rewrite (fmap_sorted_rows key f); [|exact Hts|].
  - f_equal. symmetry. exact (filter_fmap f Q rows).
  - apply (sublist_NoDup _ ((λ r, dateOf (key r).1) <$> rows)); [done|].
    apply fmap_sublist, sublist_filter.
Qed.

Lemma no_side (Q : DecisionEvent → Prop) `{!∀ e, Decision (Q e)}
    (n : nat) (l : list DecisionEvent) :
  Forall (λ e, ¬ Q e) l → [] = take n (sortEvents (filter Q l)).
Proof.
  intros Hnone. rewrite filter_Forall_none by done.
  by destruct n.
Qed.

Lemma listed_created eventTypes d :
  listed_type eventTypes (type (created_event d))
  = includes_type eventTypes plan_created.
Proof. reflexivity. Qed.

Lemma listed_reviewed eventTypes j :
  includes_type eventTypes plan_approved
  || includes_type eventTypes plan_rejected
  || includes_type eventTypes plan_deferred = true →
  listed_type eventTypes (type (reviewed_event j))
  = approval_filter (includes_type eventTypes plan_approved)
      (includes_type eventTypes plan_rejected) (a_approved j.1).
Proof.
  unfold reviewed_event, mapApprovalToEventType, listed_type, approval_filter.
  cbn [type].
  destruct (a_approved j.1), (includes_type eventTypes plan_approved),
    (includes_type eventTypes plan_rejected),
    (includes_type eventTypes plan_deferred); done.
Qed.

Lemma unlisted_reviewed eventTypes j :
  includes_type eventTypes plan_approved
  || includes_type eventTypes plan_rejected
  || includes_type eventTypes plan_deferred = false →
  listed_type eventTypes (type (reviewed_event j)) = false.
Proof.
  unfold reviewed_event, mapApprovalToEventType, listed_type. cbn [type].
  destruct (a_approved j.1), (includes_type eventTypes plan_approved),
    (includes_type eventTypes plan_rejected),
    (includes_type eventTypes plan_deferred); done.
Qed.

(** The events the queries select, sorted and cut: over a store in which
    no two events share a millisecond, and when the cursor condition of
    the queries holds of the rows whose events satisfy [A], they are the
    first events, by instant, that the filter lists and that satisfy
    [A]. *)
Lemma selected_listed (A : DecisionEvent → Prop) `{!∀ e, Decision (A e)}
    eventTypes c lim db :
  NoDup (timestamp <$> allEvents db) →
  (∀ d, d ∈ decisions db →
        cursor_cond c (d_created_at d) (d_id d) = true ↔ A (created_event d)) →
  (∀ j, j ∈ approvals_join db →
        cursor_cond c (a_created_at j.1) (a_id j.1) = true
        ↔ A (reviewed_event j)) →
  take (page_size lim)
    (sortEvents (selected_events eventTypes c (parseLimit lim) db))
  = take (page_size lim)
      (filter (λ e, listed_type eventTypes (type e) = true ∧ A e)
         (sortEvents (allEvents db))).
Proof.
  intros Hnd HcD HcJ. pose proof Hnd as HndE.
  rewrite timestamp_allEvents in Hnd.
  apply NoDup_app in Hnd as (HndD & _ & HndJ).
  unfold selected_events. fold (page_size lim).
  set (T := eventTypes).
  set (Q := λ e, listed_type T (type e) = true ∧ A e).
  set (ED := created_event <$> decisions db).
  set (EJ := reviewed_event <$> approvals_join db).
  assert ((if includes_type T plan_created
           then created_event <$>
                  select_ordered decision_key
                    (λ row, cursor_cond c (d_created_at row) (d_id row))
                    (parseLimit lim) (decisions db)
           else [])
          = take (page_size lim) (sortEvents (filter Q ED))) as ->.
  { destruct (includes_type T plan_created) eqn:HC.
    - apply (side_page decision_key created_event); [done|done|].
      intros d Hd. unfold Q. rewrite listed_created, HC.
      rewrite (HcD d Hd). tauto.
    - apply no_side, list.Forall_forall. intros e He [Hl _].
      apply list_elem_of_fmap in He as (d & -> & _).
      rewrite listed_created, HC in Hl. done. }
  assert ((if includes_type T plan_approved || includes_type T plan_rejected
              || includes_type T plan_deferred
           then reviewed_event <$>
                  select_ordered approval_key
                    (λ row,
                       approval_filter (includes_type T plan_approved)
                         (includes_type T plan_rejected) (a_approved row.1)
                       && cursor_cond c (a_created_at row.1) (a_id row.1))
                    (parseLimit lim) (approvals_join db)
           else [])
          = take (page_size lim) (sortEvents (filter Q EJ))) as ->.
  { destruct (includes_type T plan_approved || includes_type T plan_rejected
              || includes_type T plan_deferred) eqn:HA.
    - apply (side_page approval_key reviewed_event); [done|done|].
      intros j Hj. unfold Q. rewrite (listed_reviewed T j HA).
      by rewrite andb_true_iff, (HcJ j Hj).
    - apply no_side, list.Forall_forall. intros e He [Hl _].
      apply list_elem_of_fmap in He as (j & -> & _).
      by rewrite (unlisted_reviewed T j HA) in Hl. }
  assert (NoDup (timestamp <$> ED ++ EJ)) as HndA by exact HndE.
  assert (NoDup (timestamp <$> filter Q ED ++ filter Q EJ)) as HndF.
  { apply (sublist_NoDup _ (timestamp <$> ED ++ EJ)); [done|].
    apply fmap_sublist, sublist_app; apply sublist_filter. }
  unfold sortEvents.
  rewrite (take_sort_takes event_le timestamp
             event_le_timestamp timestamp_lt_event_le).
  - f_equal. unfold allEvents. fold ED EJ.
    rewrite <- (merge_sort_filter event_le timestamp event_le_timestamp)
      by done.
    rewrite filter_app.
    apply (merge_sort_unique event_le timestamp event_le_timestamp).
    + by rewrite !merge_sort_Permutation.
    + by apply (merge_sort_strict event_le timestamp event_le_timestamp).
    + by rewrite !merge_sort_Permutation.
  - apply (merge_sort_strict event_le timestamp event_le_timestamp).
    apply (sublist_NoDup _ _ HndF), fmap_sublist, sublist_inserts_r.
    reflexivity.
  - apply (merge_sort_strict event_le timestamp event_le_timestamp).
    apply (sublist_NoDup _ _ HndF), fmap_sublist, sublist_inserts_l.
    reflexivity.
  - by rewrite !merge_sort_Permutation.
Qed.

(** Under a cursor that names its row, they are the events the filter
    lists after the cursor. *)
Lemma selected_wanted eventTypes c lim db :
  NoDup (timestamp <$> allEvents db) →
  cursor_names_row c db →
  take (page_size lim)
    (sortEvents (selected_events eventTypes c (parseLimit lim) db))
  = take (page_size lim)
      (filter (wanted eventTypes c) (sortEvents (allEvents db))).
Proof.
  intros Hnd Hc.
  apply (selected_listed (λ e, ts_after c (timestamp e))); [done| |].
  - intros d Hd. apply cursor_cond_ts_after.
    intros cu Hcu Hts. subst c. by apply (proj1 Hc).
  - intros j Hj. apply cursor_cond_ts_after.
    intros cu Hcu Hts. subst c. by apply (proj2 Hc).
Qed.

(** One page, for any filter. *)
Lemma handler_wanted_page kinds cur lim db :
  NoDup (timestamp <$> allEvents db) →
  cursor_names_row (cursorParts cur) db →
  cursor_binds (cursorParts cur) →
  listDecisionEventsHandler
    {| types := kinds; after := cur; limit := lim |} db
  = Status200
      {| events :=
           take (page_size lim)
             (filter (wanted (parseEventTypes kinds) (cursorParts cur))
                (sortEvents (allEvents db)));
         next_cursor :=
           id <$>
             last
               (take (page_size lim)
                  (filter (wanted (parseEventTypes kinds) (cursorParts cur))
                     (sortEvents (allEvents db)))) |}.
Proof.
  intros Hnd Hc Hb.
  rewrite (handler_binds {| types := kinds; after := cur; limit := lim |}
             db Hb).
  cbn [types after limit]. fold (page_size lim).
  by rewrite (selected_wanted _ _ lim db Hnd Hc).
Qed.

Lemma wanted_without_cursor kinds db :
  filter (wanted (parseEventTypes kinds) None) (sortEvents (allEvents db))
  = matching kinds db.
Proof.
  unfold matching. apply filter_ext_elem_of. intros e _. unfold wanted.
  cbn. tauto.
Qed.

End PageFacts.
(** ** Three polls over five rows *)

Section PaginationFacts.
Import DecisionEvents.
Context `{!Collation} `{!Js.Locale}.

Lemma elem_of_approvals_join db a d :
  (a, d) ∈ approvals_join db
  ↔ a ∈ approvals db ∧ d ∈ decisions db ∧ d_id d = a_decision_id a.
Proof.
  unfold approvals_join. rewrite list_elem_of_bind. split.
  - intros (a' & Hin & Ha). apply list_elem_of_bind in Hin as (d' & Hin & Hd).
    apply list_elem_of_singleton in Hin as [= -> ->].
    apply list_elem_of_filter in Hd as [? ?]. done.
  - intros (Ha & Hd & Hid). exists a. split; [|done].
    apply list_elem_of_bind. exists d. split; [by left|].
    by apply list_elem_of_filter.
Qed.

(** Under a primary key on [decisions.id] and a foreign key from
    [approvals.decision_id], the join has one row per approval. *)
Lemma approvals_join_fst db :
  NoDup (d_id <$> decisions db) →
  (∀ a, a ∈ approvals db → a_decision_id a ∈ d_id <$> decisions db) →
  fst <$> approvals_join db = approvals db.
Proof.
  intros Hpk. unfold approvals_join.
  induction (approvals db) as [|a l IH]; intros Hfk; [done|].
  rewrite bind_cons, fmap_app, IH by (intros; apply Hfk; by right).
  destruct (unique_match d_id (a_decision_id a) (decisions db) Hpk)
    as [d Hd]; [apply Hfk; left|].
  by rewrite Hd.
Qed.

Lemma cursorParts_created d :
  cursorParts (Some (id (created_event d)))
  = Some {| c_type := "plan_created"; c_id := d_id d;
            c_timestamp := dateOf (d_created_at d) |}.
Proof. by apply cursorParts_buildEventId. Qed.

Lemma cursorParts_reviewed j :
  cursorParts (Some (id (reviewed_event j)))
  = Some {| c_type := type_tag (mapApprovalToEventType (a_approved j.1));
            c_id := a_id j.1; c_timestamp := dateOf (a_created_at j.1) |}.
Proof. apply cursorParts_buildEventId, type_tag_no_colon. Qed.

Lemma elem_of_allEvents db e :
  e ∈ allEvents db ↔
  (∃ d, d ∈ decisions db ∧ e = created_event d)
  ∨ (∃ j, j ∈ approvals_join db ∧ e = reviewed_event j).
Proof.
  unfold allEvents. rewrite elem_of_app, !list_elem_of_fmap.
  split; intros [(x & ? & ?)|(x & ? & ?)]; eauto.
Qed.

Lemma join_row_approval db j : j ∈ approvals_join db → j.1 ∈ approvals db.
Proof. destruct j as [a d]. by intros (? & _)%elem_of_approvals_join. Qed.

(** The id of an event of the feed is a cursor that parses and carries
    the millisecond of the event; over a store in which no two events
    share a millisecond it names its row when the row was created at a
    whole number of milliseconds, and it binds when the store reads the
    row's [Date] back. *)
Lemma cursor_of_event db e :
  NoDup (timestamp <$> allEvents db) →
  whole_milliseconds db →
  readable_dates db →
  e ∈ allEvents db →
  ∃ cu, cursorParts (Some (id e)) = Some cu
        ∧ c_timestamp cu = timestamp e
        ∧ cursor_names_row (Some cu) db
        ∧ cursor_binds (Some cu).
Proof.
  intros Hnd [HwD HwA] [HrD HrA] He.
  assert (∃ cu, cursorParts (Some (id e)) = Some cu
                ∧ c_timestamp cu = timestamp e
                ∧ readable_date (c_timestamp cu) = true) as (cu & Hcu & Hts & Hr).
  { apply elem_of_allEvents in He as [(d & Hd & ->)|(j & Hj & ->)].
    - eexists. split; [apply cursorParts_created|].
      split; [done|]. by apply HrD.
    - eexists. split; [apply cursorParts_reviewed|].
      split; [done|]. by apply HrA, (join_row_approval db). }
  exists cu. split; [done|]. split; [done|]. split; [|exact Hr]. split.
  - intros d Hd Hd_ts.
    assert (created_event d = e) as <-.
    { apply (NoDup_fmap_eq timestamp (allEvents db)); [done| |done|].
      - apply elem_of_allEvents. left. eauto.
      - rewrite timestamp_created_event. congruence. }
    rewrite cursorParts_created in Hcu. injection Hcu as <-.
    cbn [c_id c_timestamp]. split; [done|].
    symmetry. by apply dateOf_whole, HwD.
  - intros j Hj Hj_ts.
    assert (reviewed_event j = e) as <-.
    { apply (NoDup_fmap_eq timestamp (allEvents db)); [done| |done|].
      - apply elem_of_allEvents. right. eauto.
      - rewrite timestamp_reviewed_event. congruence. }
    rewrite cursorParts_reviewed in Hcu. injection Hcu as <-.
    cbn [c_id c_timestamp]. split; [done|].
    symmetry. by apply dateOf_whole, HwA, (join_row_approval db).
Qed.

(** In a list that is strictly increasing by instants, the events after
    the instant of one of its events are the events that follow it. *)
Lemma filter_after_sorted (cu : Cursor) (l1 l2 : list DecisionEvent) e :
  c_timestamp cu = timestamp e →
  StronglySorted (key_lt timestamp) (l1 ++ e :: l2) →
  filter (λ x, ts_after (Some cu) (timestamp x)) (l1 ++ e :: l2) = l2.
Proof.
  intros Hts Hs. apply StronglySorted_app in Hs as (Hbefore & _ & Hs).
  apply StronglySorted_inv in Hs as [_ Hafter].
  rewrite filter_app, filter_cons_False.
  2:{ cbn [ts_after]. lia. }
  rewrite filter_Forall_none, filter_Forall_all; [done| |].
  - eapply Forall_impl; [exact Hafter|].
    intros x. unfold key_lt. cbn [ts_after]. lia.
  - apply list.Forall_forall. intros x Hx.
    specialize (Hbefore x e Hx (list_elem_of_here _ _)).
    unfold key_lt in Hbefore. cbn [ts_after]. lia.
Qed.

(** Without a type filter every event of the feed is listed. *)
Lemma listed_without_filter db e :
  e ∈ allEvents db → listed_type None (type e) = true.
Proof.
  intros [(d & _ & ->)|(j & _ & ->)]%elem_of_allEvents; [done|].
  by destruct (reviewed_event_type j) as [-> | ->].
Qed.

Lemma wanted_without_filter c db :
  filter (wanted None c) (sortEvents (allEvents db))
  = filter (λ e, ts_after c (timestamp e)) (sortEvents (allEvents db)).
Proof.
  apply filter_ext_elem_of. intros e He. rewrite sortEvents_elem_of in He.
  unfold wanted.
  rewrite (listed_without_filter db e He). tauto.
Qed.

Lemma poll_page db cur :
  NoDup (timestamp <$> allEvents db) →
  cursor_names_row (cursorParts cur) db →
  cursor_binds (cursorParts cur) →
  poll db cur
  = Status200
      {| events :=
           take 2 (filter (λ e, ts_after (cursorParts cur) (timestamp e))
                     (sortEvents (allEvents db)));
         next_cursor :=
           id <$>
             last
               (take 2
                  (filter (λ e, ts_after (cursorParts cur) (timestamp e))
                     (sortEvents (allEvents db)))) |}.
Proof.
  intros Hnd Hc Hb. unfold poll.
  rewrite (handler_wanted_page None cur (Some "2") db Hnd Hc Hb).
  change (parseEventTypes None) with (@None (list DecisionEventType)).
  by rewrite wanted_without_filter.
Qed.

(** The three pages of a feed of five events in distinct milliseconds,
    and the fourth. *)
Lemma polls_of_five db e1 e2 e3 e4 e5 :
  NoDup (timestamp <$> allEvents db) →
  whole_milliseconds db →
  readable_dates db →
  sortEvents (allEvents db) = [e1; e2; e3; e4; e5] →
  first_poll db
  = Status200 {| events := [e1; e2]; next_cursor := Some (id e2) |}
  ∧ second_poll db
    = Status200 {| events := [e3; e4]; next_cursor := Some (id e4) |}
  ∧ third_poll db
    = Status200 {| events := [e5]; next_cursor := Some (id e5) |}
  ∧ fourth_poll db
    = Status200 {| events := []; next_cursor := None |}.
Proof.
  intros Hnd Hwhole Hreadable HS.
  assert (StronglySorted (key_lt timestamp) [e1; e2; e3; e4; e5]) as Hsorted.
  { rewrite <- HS. by apply sorted_allEvents. }
  assert (∀ e, e ∈ [e1; e2; e3; e4; e5] → e ∈ allEvents db) as Hin.
  { intros e. rewrite <- HS. by rewrite sortEvents_elem_of. }
  assert (∀ e l1 l2,
            [e1; e2; e3; e4; e5] = l1 ++ e :: l2 →
            poll db (Some (id e))
            = Status200 {| events := take 2 l2;
                           next_cursor := id <$> last (take 2 l2) |})
    as Hnext.
  { intros e l1 l2 Hsplit.
    destruct (cursor_of_event db e Hnd Hwhole Hreadable)
      as (cu & Hcu & Hts & Hrow & Hbinds).
    { apply Hin. rewrite Hsplit. apply elem_of_app. right. left. }
    rewrite poll_page by (by rewrite ?Hcu).
    rewrite Hcu, HS, Hsplit.
    rewrite (filter_after_sorted cu l1 l2 e Hts) by (by rewrite <- Hsplit).
    reflexivity. }
  assert (first_poll db
          = Status200 {| events := [e1; e2]; next_cursor := Some (id e2) |})
    as H1.
  { unfold first_poll. rewrite poll_page by done. rewrite HS.
    rewrite filter_Forall_all by (by apply list.Forall_forall).
    reflexivity. }
  assert (second_poll db
          = Status200 {| events := [e3; e4]; next_cursor := Some (id e4) |})
    as H2.
  { unfold second_poll. rewrite H1. cbn [next_cursor_of next_cursor].
    exact (Hnext e2 [e1] [e3; e4; e5] eq_refl). }
  assert (third_poll db
          = Status200 {| events := [e5]; next_cursor := Some (id e5) |})
    as H3.
  { unfold third_poll. rewrite H2. cbn [next_cursor_of next_cursor].
    exact (Hnext e4 [e1; e2; e3] [e5] eq_refl). }
  split; [done|]. split; [done|]. split; [done|].
  unfold fourth_poll. rewrite H3. cbn [next_cursor_of next_cursor].
  exact (Hnext e5 [e1; e2; e3; e4] [] eq_refl).
Qed.

(** Over rows created at whole milliseconds, distinct timestamps lie in
    distinct milliseconds. *)
Lemma allEvents_rows db :
  NoDup (d_id <$> decisions db) →
  (∀ a, a ∈ approvals db → a_decision_id a ∈ d_id <$> decisions db) →
  timestamp <$> allEvents db
  = dateOf <$>
      ((d_created_at <$> decisions db) ++ (a_created_at <$> approvals db))
  ∧ length (allEvents db)
    = (length (decisions db) + length (approvals db))%nat.
Proof.
  intros Hpk Hfk. pose proof (approvals_join_fst db Hpk Hfk) as Hjoin.
  split.
  - rewrite timestamp_allEvents, fmap_app, <- !list_fmap_compose. f_equal.
    rewrite <- Hjoin. by rewrite <- list_fmap_compose.
  - unfold allEvents. rewrite length_app, !length_fmap.
    by rewrite <- Hjoin, length_fmap.
Qed.

Lemma whole_timestamps db t :
  whole_milliseconds db →
  t ∈ (d_created_at <$> decisions db) ++ (a_created_at <$> approvals db) →
  (1000 | t).
Proof.
  intros [HwD HwA] [Ht|Ht]%elem_of_app;
    apply list_elem_of_fmap in Ht as (r & -> & Hr); auto.
Qed.

Lemma distinct_milliseconds db :
  NoDup (d_id <$> decisions db) →
  (∀ a, a ∈ approvals db → a_decision_id a ∈ d_id <$> decisions db) →
  whole_milliseconds db →
  NoDup ((d_created_at <$> decisions db) ++ (a_created_at <$> approvals db)) →
  NoDup (timestamp <$> allEvents db).
Proof.
  intros Hpk Hfk Hwhole Hts.
  rewrite (proj1 (allEvents_rows db Hpk Hfk)).
  apply NoDup_fmap_2_strong; [|done].
  intros t1 t2 H1 H2 Heq.
  rewrite <- (dateOf_whole t1), <- (dateOf_whole t2), Heq;
    [done|by apply (whole_timestamps db)..].
Qed.

(** C1, as the code has it.  Over a store with a primary key on
    [decisions.id], a foreign key from [approvals.decision_id] and five
    rows created at pairwise distinct instants, each a whole number of
    milliseconds that the store reads back from a [Date], three polls
    with a page size of 2, each passing the cursor of the one before,
    return two, two and one events: together all five events of the
    feed, each once, strictly increasing by instants.  The cursor of the
    third poll is the id of its last event, not null; the fourth poll
    returns the empty page and the null cursor. *)
Theorem three_polls_return_all_events db :
  NoDup (d_id <$> decisions db) →
  (∀ a, a ∈ approvals db → a_decision_id a ∈ d_id <$> decisions db) →
  (length (decisions db) + length (approvals db) = 5)%nat →
  NoDup ((d_created_at <$> decisions db) ++ (a_created_at <$> approvals db)) →
  whole_milliseconds db →
  readable_dates db →
  let p1 := events_of (first_poll db) in
  let p2 := events_of (second_poll db) in
  let p3 := events_of (third_poll db) in
  length p1 = 2%nat ∧ length p2 = 2%nat ∧ length p3 = 1%nat
  ∧ p1 ++ p2 ++ p3 ≡ₚ allEvents db
  ∧ NoDup (p1 ++ p2 ++ p3)
  ∧ StronglySorted (key_lt timestamp) (p1 ++ p2 ++ p3)
  ∧ next_cursor_of (third_poll db) = id <$> last p3
  ∧ is_Some (next_cursor_of (third_poll db))
  ∧ fourth_poll db = Status200 {| events := []; next_cursor := None |}.
Proof.
  intros Hpk Hfk Hlen Hts Hwhole Hreadable.
  destruct (allEvents_rows db Hpk Hfk) as [_ Hlen_eq].
  pose proof (distinct_milliseconds db Hpk Hfk Hwhole Hts) as Hnd.
  assert (length (sortEvents (allEvents db)) = 5%nat) as HlenS.
  { unfold sortEvents. rewrite merge_sort_Permutation. lia. }
  destruct (sortEvents (allEvents db))
    as [|e1 [|e2 [|e3 [|e4 [|e5 [|e6 rest]]]]]] eqn:HS; try done.
  destruct (polls_of_five db e1 e2 e3 e4 e5 Hnd Hwhole Hreadable HS)
    as (H1 & H2 & H3 & H4).
  rewrite H1, H2, H3, H4. cbn [events_of next_cursor_of events next_cursor].
  assert ([e1; e2] ++ [e3; e4] ++ [e5] ≡ₚ allEvents db) as Hperm.
  { cbn [app]. rewrite <- HS. unfold sortEvents. apply merge_sort_Permutation. }
  split_and!; try done.
  - rewrite Hperm. by apply NoDup_fmap_1 with timestamp.
  - cbn [app]. rewrite <- HS. by apply sorted_allEvents.
Qed.

End PaginationFacts.

Section PaginationSamples.
Import DecisionEvents.
#[local] Existing Instance code_units.
#[local] Existing Instance sample_locale.

Lemma sample_db_whole : whole_milliseconds sample_db.
Proof.
  split; intros r Hr; repeat (apply elem_of_cons in Hr as [->|Hr]);
    try (by apply elem_of_nil in Hr);
    cbn [d_created_at a_created_at]; by apply Z.mod_divide.
Qed.

Lemma sample_db_readable : readable_dates sample_db.
Proof.
  split; intros r Hr; repeat (apply elem_of_cons in Hr as [->|Hr]);
    try (by apply elem_of_nil in Hr); reflexivity.
Qed.

Lemma three_polls_return_all_events_witness :
  NoDup (d_id <$> decisions sample_db)
  ∧ (∀ a, a ∈ approvals sample_db →
          a_decision_id a ∈ d_id <$> decisions sample_db)
  ∧ (length (decisions sample_db) + length (approvals sample_db) = 5)%nat
  ∧ NoDup ((d_created_at <$> decisions sample_db)
           ++ (a_created_at <$> approvals sample_db))
  ∧ whole_milliseconds sample_db
  ∧ readable_dates sample_db
  ∧ events_of (first_poll sample_db) ++ events_of (second_poll sample_db)
      ++ events_of (third_poll sample_db)
    ≡ₚ allEvents sample_db
  ∧ is_Some (next_cursor_of (third_poll sample_db))
  ∧ fourth_poll sample_db = Status200 {| events := []; next_cursor := None |}.
Proof.
  assert (NoDup (d_id <$> decisions sample_db)) as Hpk.
  { refine (bool_decide_unpack _ _). vm_compute. exact I. }
  assert (∀ a, a ∈ approvals sample_db →
               a_decision_id a ∈ d_id <$> decisions sample_db) as Hfk.
  { apply list.Forall_forall. refine (bool_decide_unpack _ _).
    vm_compute. exact I. }
  assert (length (decisions sample_db) + length (approvals sample_db) = 5)%nat
    as Hlen by reflexivity.
  assert (NoDup ((d_created_at <$> decisions sample_db)
                 ++ (a_created_at <$> approvals sample_db))) as Hts.
  { refine (bool_decide_unpack _ _). vm_compute. exact I. }
  pose proof (three_polls_return_all_events sample_db Hpk Hfk Hlen Hts
                sample_db_whole sample_db_readable)
    as (_ & _ & _ & Hperm & _ & _ & _ & Hsome & Hfourth).
  split; [exact Hpk|]. split; [exact Hfk|]. split; [exact Hlen|].
  split; [exact Hts|]. split; [exact sample_db_whole|].
  split; [exact sample_db_readable|]. split; [exact Hperm|].
  split; [exact Hsome|exact Hfourth].
Defined.

(** C1 as stated fails on the five rows of [sample_db]:
    the third poll returns the cursor of its one event, not null. *)
Lemma third_poll_cursor_not_null :
  next_cursor_of (third_poll sample_db) = Some "plan_created:d3:50"
  ∧ next_cursor_of (third_poll sample_db) ≠ None.
Proof. split; [vm_compute; reflexivity|]. vm_compute. discriminate. Qed.

End PaginationSamples.
(** ** Cursors that fail to parse *)

Section MalformedFacts.
Import DecisionEvents.
Context `{!Collation} `{!Js.Locale}.

Lemma append_cons c a b : String c a +:+ b = String c (a +:+ b).
Proof. reflexivity. Qed.

Lemma append_empty b : "" +:+ b = b.
Proof. reflexivity. Qed.

Lemma trimStart_split s :
  ∃ white, s = white +:+ Js.trimStart s ∧ all_white white = true.
Proof.
  induction s as [|c s (white & Hs & Hw)]; [by exists ""|].
  cbn [Js.trimStart]. destruct (Js.is_white c) eqn:Hc.
  - exists (String c white). rewrite append_cons, <- Hs.
    split; [done|]. cbn [all_white]. by rewrite Hc.
  - by exists "".
Qed.

Lemma trimStart_white_app white c r :
  all_white white = true → Js.is_white c = false →
  Js.trimStart (white +:+ String c r) = String c r.
Proof.
  intros Hw Hc. induction white as [|c' white IH].
  - rewrite append_empty. cbn [Js.trimStart]. by rewrite Hc.
  - cbn [all_white] in Hw. apply andb_true_iff in Hw as [Hc' Hw].
    rewrite append_cons. cbn [Js.trimStart]. rewrite Hc'. by apply IH.
Qed.

Lemma is_digit_starts c r :
  Js.starts_with_digit (String c r) = is_digit c.
Proof.
  unfold Js.starts_with_digit, Js.digit_of_char, is_digit.
  destruct ((48 <=? nat_of_ascii c)%nat && (nat_of_ascii c <=? 57)%nat).
  - apply bool_decide_eq_true_2. by eexists.
  - apply bool_decide_eq_false_2. by intros [? ?].
Qed.

Lemma is_digit_not_white c : is_digit c = true → Js.is_white c = false.
Proof.
  unfold is_digit, Js.is_white. intros Hd.
  apply andb_true_iff in Hd as [H1%Nat.leb_le H2%Nat.leb_le].
  apply orb_false_iff. split.
  - apply andb_false_iff. right. apply Nat.leb_gt. lia.
  - apply Nat.eqb_neq. lia.
Qed.

(** [parseInt] by the first character after the white space. *)
Lemma parseInt_head s :
  Js.parseInt s
  = match Js.trimStart s with
    | EmptyString => None
    | String c r =>
        if Ascii.eqb c "-" then
          if Js.starts_with_digit r then Some (- Js.digits_value r 0)
          else None
        else if Ascii.eqb c "+" then
          if Js.starts_with_digit r then Some (Js.digits_value r 0)
          else None
        else if Js.starts_with_digit (String c r)
             then Some (Js.digits_value (String c r) 0)
             else None
    end.
Proof.
  unfold Js.parseInt. destruct (Js.trimStart s) as [|c r]; [done|].
  destruct c as [b0 b1 b2 b3 b4 b5 b6 b7].
  by destruct b0, b1, b2, b3; destruct b4, b5, b6, b7.
Qed.

(** [parseInt] reads a number exactly from the texts that begin with
    one. *)
Lemma parseInt_begins_with_number s :
  is_Some (Js.parseInt s) ↔ begins_with_number s.
Proof.
  rewrite parseInt_head. split.
  - destruct (trimStart_split s) as (white & Hs & Hw).
    destruct (Js.trimStart s) as [|c r] eqn:Hr; [by intros [? ?]|].
    destruct (Ascii.eqb_spec c "-") as [->|Hminus].
    { destruct r as [|d r]; [by intros [? ?]|].
      rewrite is_digit_starts. destruct (is_digit d) eqn:Hd; [|by intros [? ?]].
      intros _. exists white, "-", d, r.
      split; [exact Hs|]. split; [exact Hw|]. split; [auto|exact Hd]. }
    destruct (Ascii.eqb_spec c "+") as [->|Hplus].
    { destruct r as [|d r]; [by intros [? ?]|].
      rewrite is_digit_starts. destruct (is_digit d) eqn:Hd; [|by intros [? ?]].
      intros _. exists white, "+", d, r.
      split; [exact Hs|]. split; [exact Hw|]. split; [auto|exact Hd]. }
    rewrite is_digit_starts. destruct (is_digit c) eqn:Hd; [|by intros [? ?]].
    intros _. exists white, "", c, r.
    split; [exact Hs|]. split; [exact Hw|]. split; [auto|exact Hd].
  - intros (white & sign & d & rest & -> & Hw & Hsign & Hd).
    pose proof (is_digit_not_white d Hd) as Hnw.
    destruct Hsign as [->|[->| ->]].
    + rewrite append_empty, (trimStart_white_app white d rest Hw Hnw).
      assert (Ascii.eqb d "-" = false) as ->.
      { apply Ascii.eqb_neq. intros ->. done. }
      assert (Ascii.eqb d "+" = false) as ->.
      { apply Ascii.eqb_neq. intros ->. done. }
      by rewrite is_digit_starts, Hd.
    + change ("+" +:+ String d rest) with (String "+" (String d rest)).
      rewrite (trimStart_white_app white "+" _ Hw) by done.
      cbn [Ascii.eqb Bool.eqb]. by rewrite is_digit_starts, Hd.
    + change ("-" +:+ String d rest) with (String "-" (String d rest)).
      rewrite (trimStart_white_app white "-" _ Hw) by done.
      cbn [Ascii.eqb Bool.eqb]. by rewrite is_digit_starts, Hd.
Qed.

Lemma parseInt_None s : Js.parseInt s = None ↔ ¬ begins_with_number s.
Proof.
  rewrite <- parseInt_begins_with_number.
  destruct (Js.parseInt s) as [n|].
  - split; [done|]. intros Hn. destruct Hn. by exists n.
  - split; [|done]. by intros _ [? ?].
Qed.

(** A numeric segment begins with a number. *)
Lemma numeric_begins_with_number s :
  numeric s = true → begins_with_number s.
Proof.
  destruct s as [|c r]; [done|].
  destruct (Ascii.eqb_spec c "-") as [->|Hminus].
  - destruct r as [|d r]; [done|]. cbn [numeric all_digits].
    intros [Hd _]%andb_true_iff. exists "", "-", d, r.
    split; [reflexivity|]. split; [reflexivity|]. split; [auto|exact Hd].
  - intros Hn. assert (is_digit c = true) as Hd.
    { assert (numeric (String c r) = all_digits (String c r)) as Hhead.
      { destruct c as [b0 b1 b2 b3 b4 b5 b6 b7].
        destruct b0, b1, b2, b3; destruct b4, b5, b6, b7; try reflexivity.
        by destruct Hminus. }
      rewrite Hhead in Hn. cbn [all_digits] in Hn.
      by apply andb_true_iff in Hn as [? _]. }
    exists "", "", c, r.
    split; [reflexivity|]. split; [reflexivity|]. split; [auto|exact Hd].
Qed.

Lemma slice_1_m1_middle {A} (l : list A) :
  Js.slice_1_m1 l = take (length l - 2) (drop 1 l).
Proof.
  unfold Js.slice_1_m1. destruct l as [|x l]; [done|].
  cbn [tail drop]. rewrite removelast_firstn_len.
  cbn [length]. f_equal. lia.
Qed.

Lemma parseCursor_None cursor : unparsable cursor ↔ parseCursor cursor = None.
Proof.
  unfold unparsable, parseCursor, segments. rewrite <- parseInt_None.
  case_bool_decide as Hlen.
  - split; [done|]. by left.
  - destruct (Js.parseInt _) as [ms|]; split; try done.
    + intros [?|?]; [lia|done].
    + by right.
Qed.

Lemma parseCursor_Some cursor ms :
  ¬ (length (segments cursor) < 3)%nat →
  Js.parseInt (List.last (segments cursor) EmptyString) = Some ms →
  parseCursor cursor
  = Some {| c_type := hd EmptyString (segments cursor);
            c_id := Js.join ":" (middle_segments (segments cursor));
            c_timestamp := ms |}.
Proof.
  intros Hlen Hms. unfold parseCursor, middle_segments, segments in *.
  rewrite bool_decide_eq_false_2 by done.
  by rewrite Hms, slice_1_m1_middle.
Qed.

Lemma cursorParts_unparsable cursor :
  unparsable cursor → cursorParts (Some cursor) = cursorParts None.
Proof.
  intros Hc%parseCursor_None. unfold cursorParts.
  destruct (Js.truthy (Some cursor)); [|done].
  exact Hc.
Qed.

Lemma unparsable_malformed cursor : unparsable cursor → malformed cursor.
Proof.
  intros [Hlen|Hnum]; [by left|]. right.
  destruct (numeric _) eqn:Hn; [|done].
  destruct Hnum. by apply numeric_begins_with_number.
Qed.

(** C8, as the code has it.  A cursor fails to parse exactly when it has
    fewer than three segments or its last segment does not begin, after
    white space and at most one sign, with a decimal digit; every such
    cursor is malformed as the spec has it, and "garbage" is one.  It
    is treated as no cursor: the request is answered as the same request
    without a cursor, which is answered 200 with the first page, and
    over a store in which no two events share a millisecond that page
    holds the first events, by instant, that the type filter lists.  A
    cursor that parses gives its first segment as the type tag, the
    number its last segment begins with as the millisecond timestamp and
    the segments between, joined by colons, as the row id; every cursor
    that is not malformed parses.  A cursor that parses to an instant
    beyond the range of [Date] is answered 500. *)
Theorem malformed_cursor_is_ignored :
  (∀ cursor, unparsable cursor ↔ parseCursor cursor = None)
  ∧ (∀ cursor, unparsable cursor → malformed cursor)
  ∧ (∀ cursor kinds limit db,
       unparsable cursor →
       listDecisionEventsHandler
         {| types := kinds; after := Some cursor; limit := limit |} db
       = listDecisionEventsHandler
           {| types := kinds; after := None; limit := limit |} db)
  ∧ (∀ kinds limit db,
       ∃ first_page,
         listDecisionEventsHandler
           {| types := kinds; after := None; limit := limit |} db
         = Status200 first_page
         ∧ (NoDup (timestamp <$> allEvents db) →
            events first_page = take (page_size limit) (matching kinds db)))
  ∧ unparsable "garbage"
  ∧ (∀ cursor ms,
       ¬ (length (segments cursor) < 3)%nat →
       Js.parseInt (List.last (segments cursor) EmptyString) = Some ms →
       parseCursor cursor
       = Some {| c_type := hd EmptyString (segments cursor);
                 c_id := Js.join ":" (middle_segments (segments cursor));
                 c_timestamp := ms |})
  ∧ (∀ cursor, ¬ malformed cursor → is_Some (parseCursor cursor))
  ∧ (∀ cursor cu kinds limit db,
       cursorParts (Some cursor) = Some cu →
       Js.valid_time (c_timestamp cu) = false →
       listDecisionEventsHandler
         {| types := kinds; after := Some cursor; limit := limit |} db
       = Status500).
Proof.
  split; [exact parseCursor_None|].
  split; [exact unparsable_malformed|].
  split.
  { intros cursor kinds limit db Hc. apply handler_cursor_only.
    by apply cursorParts_unparsable. }
  split.
  { intros kinds lim db. eexists. split.
    - exact (handler_binds
               {| types := kinds; after := None; limit := lim |} db I).
    - intros Hnd. cbn [events types after limit].
      change (cursorParts None) with (@None Cursor).
      fold (page_size lim).
      rewrite (selected_wanted _ None lim db Hnd I).
      apply f_equal, wanted_without_cursor. }
  split.
  { left. vm_compute. lia. }
  split; [exact parseCursor_Some|].
  split.
  { intros cursor Hwell.
    destruct (parseCursor cursor) eqn:Hp; [by eexists|].
    destruct Hwell. by apply unparsable_malformed, parseCursor_None. }
  intros cursor cu kinds limit db Hcu Hinvalid.
  apply handler_rejected. cbn [after]. rewrite Hcu. cbn [cursor_binds].
  unfold readable_date. by rewrite Hinvalid.
Qed.

End MalformedFacts.

Section MalformedSamples.
Import DecisionEvents.
#[local] Existing Instance code_units.
#[local] Existing Instance sample_locale.

Lemma malformed_cursor_is_ignored_witness :
  unparsable "garbage"
  ∧ malformed "garbage"
  ∧ NoDup (timestamp <$> allEvents sample_db)
  ∧ (∃ first_page,
       listDecisionEventsHandler
         {| types := None; after := Some "garbage"; limit := Some "2" |}
         sample_db
       = Status200 first_page
       ∧ id <$> events first_page
         = ["plan_created:d1:10"; "plan_approved:a1:20"])
  ∧ parseCursor "plan_created:7c9e:01:1700000000000"
    = Some {| c_type := "plan_created"; c_id := "7c9e:01";
              c_timestamp := 1700000000000 |}
  ∧ listDecisionEventsHandler
      {| types := None; after := Some "plan_created:d1:8640000000000001";
         limit := None |} sample_db
    = Status500.
Proof.
  destruct malformed_cursor_is_ignored
    as (_ & Hspec & Hignored & Hfirst & Hgarbage & Hparts & _ & Hrange).
  assert (NoDup (timestamp <$> allEvents sample_db)) as Hnd
    by (refine (bool_decide_unpack _ _); vm_compute; exact I).
  split; [exact Hgarbage|]. split; [exact (Hspec _ Hgarbage)|].
  split; [exact Hnd|]. split; [|split].
  - destruct (Hfirst None (Some "2") sample_db) as (first_page & H200 & Hev).
    exists first_page. split.
    + rewrite <- H200. by apply Hignored.
    + rewrite (Hev Hnd). vm_compute. reflexivity.
  - apply (Hparts "plan_created:7c9e:01:1700000000000" 1700000000000).
    + vm_compute. lia.
    + reflexivity.
  - eapply Hrange; [vm_compute; reflexivity|reflexivity].
Defined.

(** C8 as stated fails for a cursor whose last segment is not numeric
    but begins with a number: the cursor is applied, and the page holds
    the events after it, not the first page. *)
Lemma digit_prefix_cursor_is_applied :
  malformed "plan_created:d1:10abc"
  ∧ (id <$> events_of
              (listDecisionEventsHandler
                 {| types := None; after := Some "plan_created:d1:10abc";
                    limit := Some "2" |} sample_db))
    = ["plan_approved:a1:20"; "plan_created:d2:30"]
  ∧ (id <$> events_of
              (listDecisionEventsHandler
                 {| types := None; after := None; limit := Some "2" |}
                 sample_db))
    = ["plan_created:d1:10"; "plan_approved:a1:20"].
Proof.
  split; [right; vm_compute; reflexivity|].
  split; vm_compute; reflexivity.
Qed.

End MalformedSamples.

(** ** The learning-event store *)

Section ApprovalStoreFacts.
Import ApprovalLearning.

Lemma hash_taken_spec h rows :
  hash_taken h rows = true ↔ h ∈ le_inputs_hash <$> rows.
Proof. unfold hash_taken. apply bool_decide_eq_true. Qed.

Lemma unique_fingerprints_append w w' row :
  unique_fingerprints w →
  learning_events (db w') =
    (if hash_taken (le_inputs_hash row) (learning_events (db w))
     then learning_events (db w)
     else learning_events (db w) ++ [row]) →
  unique_fingerprints w'.
Proof.
  unfold unique_fingerprints. intros Hu ->.
  destruct (hash_taken _ _) eqn:Htaken; [done|].
  rewrite fmap_app. apply NoDup_app. split; [done|]. split.
  - intros h Hh [->|[]%elem_of_nil]%elem_of_cons.
    apply hash_taken_spec in Hh. congruence.
  - apply NoDup_singleton.
Qed.

(** POST /learning/learn keeps the fingerprints of the store distinct. *)
Lemma approval_preserves_unique_fingerprints body w :
  unique_fingerprints w →
  unique_fingerprints (createApprovalLearningHandler body w).2.
Proof.
  intros Hu. destruct (schema_ok body) eqn:Hok.
  - destruct (approval_handler_201 body w Hok)
      as (created_at & w' & Hrun & Hrows & _).
    rewrite Hrun. cbn [snd].
    exact (unique_fingerprints_append w w'
             (rowOf (learningEventOf body _ _ _ created_at)) Hu Hrows).
  - unfold createApprovalLearningHandler, handle.
    unfold mbind, M_bind, throw. by rewrite Hok.
Qed.

Lemma fingerprint_of_timestamp body w w' :
  Js.truthy (timestamp body) = true →
  fingerprintOf body w = fingerprintOf body w'.
Proof.
  intros Ht. unfold fingerprintOf, inputsTimestampOf. by rewrite Ht.
Qed.

(** Two submissions with one fingerprint: both are answered 201, the
    second write changes nothing, and each response carries the next
    value of the identifier source. *)
Lemma approval_duplicate body w :
  schema_ok body = true →
  ∃ r1 w1 r2 w2,
    createApprovalLearningHandler body w = (Status201 r1, w1)
    ∧ createApprovalLearningHandler body w1 = (Status201 r2, w2)
    ∧ r_id r1 = uuid_source w (uuid_reads w)
    ∧ r_id r2 = uuid_source w (S (uuid_reads w))
    ∧ r_inputs_hash r1 = fingerprintOf body w
    ∧ r_inputs_hash r2 = fingerprintOf body w1
    ∧ hash_taken (fingerprintOf body w) (learning_events (db w1)) = true
    ∧ (fingerprintOf body w1 = fingerprintOf body w →
       learning_events (db w2) = learning_events (db w1)).
Proof.
  intros Hok.
  destruct (approval_handler_201 body w Hok)
    as (c1 & w1 & Hrun1 & Hrows1 & _ & _ & Hsrc & Hreads & _).
  destruct (approval_handler_201 body w1 Hok)
    as (c2 & w2 & Hrun2 & Hrows2 & _).
  eexists _, w1, _, w2. split; [exact Hrun1|]. split; [exact Hrun2|].
  assert (hash_taken (fingerprintOf body w) (learning_events (db w1)) = true)
    as Htaken.
  { rewrite Hrows1. destruct (hash_taken _ (learning_events (db w))) eqn:Ht;
      [done|].
    apply hash_taken_spec. rewrite fmap_app. apply elem_of_app. right.
    apply list_elem_of_singleton. reflexivity. }
  split; [reflexivity|]. split.
  { cbn [r_id responseOf id learningEventOf]. by rewrite Hsrc, Hreads. }
  split; [reflexivity|]. split; [reflexivity|]. split; [exact Htaken|].
  intros Hsame. rewrite Hrows2, Hsame. by rewrite Htaken.
Qed.

End ApprovalStoreFacts.

Section FeedbackStoreFacts.
Import FeedbackAssimilation.

Lemma feedback_handler_cases body w :
  schema_ok body = true →
  ∃ ts ref w',
    match selected_ids (inputsHashOf body) w with
    | i :: _ =>
        createFeedbackAssimilationHandler body w
        = (Status201 (responseOf body i ts), w')
        ∧ learning_events (db w') = learning_events (db w)
    | [] =>
        if hash_taken (inputsHashOf body) (learning_events (db w))
        then
          createFeedbackAssimilationHandler body w = (Status500, w')
          ∧ learning_events (db w') = learning_events (db w)
        else
          ∃ i created_at,
            createFeedbackAssimilationHandler body w
            = (Status201 (responseOf body i ts), w')
            ∧ learning_events (db w')
              = learning_events (db w)
                ++ [rowOf (learningEventOf body ts ref) i created_at]
    end.
Proof.
  intros Hok. unfold selected_ids.
  unfold createFeedbackAssimilationHandler, handle, str_or_now,
    executionRefOf, emitLearningEvent, select_learning_event_ids, insert_row,
    uuidv4, isoNow.
  unfold mbind, M_bind, mret, M_ret, throw. rewrite Hok.
  destruct (Js.truthy (in_timestamp body));
    destruct (Js.truthy (in_execution_ref body));
    cbn [db learning_events clock_source clock_reads uuid_source uuid_reads
         inputs_hash decision_type learningEventOf rowOf le_inputs_hash];
    (destruct (le_id <$> filter _ (learning_events (db w))) as [|i ids];
     [destruct (hash_taken _ _);
      [eexists _, _, _; split; reflexivity
      |eexists _, _, _, _, _; split; reflexivity]
     |eexists _, _, _; split; reflexivity]).
  Unshelve. all: exact EmptyString.
Qed.

Lemma selected_ids_same_rows h w w' :
  learning_events (db w') = learning_events (db w) →
  selected_ids h w' = selected_ids h w.
Proof. unfold selected_ids. by intros ->. Qed.

(** A submission answered 201 leaves its id as the one stored for its
    fingerprint. *)
Lemma feedback_201_stored body w r w' :
  schema_ok body = true →
  createFeedbackAssimilationHandler body w = (Status201 r, w') →
  stored_feedback_id (inputsHashOf body) w' = Some (r_id r).
Proof.
  intros Hok Hrun.
  destruct (feedback_handler_cases body w Hok) as (ts & ref & w1 & Hcases).
  unfold stored_feedback_id.
  destruct (selected_ids (inputsHashOf body) w) as [|i ids] eqn:Hsel.
  - destruct (hash_taken _ _).
    + destruct Hcases as [Hrun' _]. congruence.
    + destruct Hcases as (i & created_at & Hrun' & Hrows).
      rewrite Hrun in Hrun'. injection Hrun' as -> ->.
      unfold selected_ids in *. rewrite Hrows, filter_app, fmap_app.
      apply fmap_nil_inv in Hsel. rewrite Hsel.
      rewrite filter_cons_True by done. reflexivity.
  - destruct Hcases as [Hrun' Hrows].
    rewrite Hrun in Hrun'. injection Hrun' as -> ->.
    by rewrite (selected_ids_same_rows _ _ _ Hrows), Hsel.
Qed.

(** A submission whose fingerprint has a stored id is answered 201 with
    that id and writes nothing. *)
Lemma feedback_stored_201 body w i :
  schema_ok body = true →
  stored_feedback_id (inputsHashOf body) w = Some i →
  ∃ r w',
    createFeedbackAssimilationHandler body w = (Status201 r, w')
    ∧ r_id r = i
    ∧ learning_events (db w') = learning_events (db w).
Proof.
  intros Hok Hstored.
  destruct (feedback_handler_cases body w Hok) as (ts & ref & w1 & Hcases).
  unfold stored_feedback_id in Hstored.
  destruct (selected_ids (inputsHashOf body) w) as [|i' ids]; [done|].
  injection Hstored as ->. destruct Hcases as [Hrun Hrows].
  eexists _, w1. split; [exact Hrun|]. done.
Qed.

(** POST /learning/assimilate keeps the fingerprints of the store
    distinct. *)
Lemma feedback_preserves_unique_fingerprints body w :
  unique_fingerprints w →
  unique_fingerprints (createFeedbackAssimilationHandler body w).2.
Proof.
  intros Hu. destruct (schema_ok body) eqn:Hok.
  - destruct (feedback_handler_cases body w Hok) as (ts & ref & w1 & Hcases).
    destruct (selected_ids (inputsHashOf body) w) as [|i ids].
    + destruct (hash_taken _ _) eqn:Htaken.
      * destruct Hcases as [-> Hrows]. unfold unique_fingerprints.
        cbn [snd]. by rewrite Hrows.
      * destruct Hcases as (i & created_at & -> & Hrows). cbn [snd].
        apply (unique_fingerprints_append w w1
                 (rowOf (learningEventOf body ts ref) i created_at) Hu).
        cbn [rowOf le_inputs_hash learningEventOf inputs_hash].
        by rewrite Htaken.
    + destruct Hcases as [-> Hrows]. unfold unique_fingerprints.
      cbn [snd]. by rewrite Hrows.
  - unfold createFeedbackAssimilationHandler, handle.
    unfold mbind, M_bind, throw. by rewrite Hok.
Qed.

(** Two submissions with one fingerprint to POST /learning/assimilate:
    the second is answered with the id of the first and writes
    nothing. *)
Lemma feedback_duplicate b1 b2 w r1 w1 :
  schema_ok b1 = true → schema_ok b2 = true →
  inputsHashOf b1 = inputsHashOf b2 →
  createFeedbackAssimilationHandler b1 w = (Status201 r1, w1) →
  ∃ r2 w2,
    createFeedbackAssimilationHandler b2 w1 = (Status201 r2, w2)
    ∧ r_id r2 = r_id r1
    ∧ learning_events (db w2) = learning_events (db w1).
Proof.
  intros Hok1 Hok2 Hhash Hrun1.
  apply (feedback_stored_201 b2 w1 (r_id r1) Hok2).
  rewrite <- Hhash. by apply (feedback_201_stored b1 w).
Qed.

End FeedbackStoreFacts.

(** ** One row per fingerprint *)

Section StoredOnce.
Import ApprovalLearning.

(** After a submission that passes the schema, the store holds exactly
    one row with the fingerprint of the submission. *)
Lemma approval_stored_once body w :
  schema_ok body = true →
  unique_fingerprints w →
  count_fingerprint (fingerprintOf body w)
    (createApprovalLearningHandler body w).2 = 1%nat.
Proof.
  intros Hok Hu.
  destruct (approval_handler_201 body w Hok)
    as (created_at & w' & Hrun & Hrows & _).
  rewrite Hrun. cbn [snd]. unfold count_fingerprint. rewrite Hrows.
  destruct (hash_taken _ _) eqn:Htaken.
  - apply hash_taken_spec in Htaken.
    destruct (unique_match le_inputs_hash _ _ Hu Htaken) as [row ->]. done.
  - assert (fingerprintOf body w ∉ le_inputs_hash <$> learning_events (db w))
      as Hfree.
    { intros Hin%hash_taken_spec. congruence. }
    rewrite filter_app, (filter_no_match le_inputs_hash _ _ Hfree).
    by rewrite filter_cons_True.
Qed.

(** An approval that carries its timestamp, submitted twice: both
    submissions are answered 201 and the store holds exactly one row
    with its fingerprint. *)
Lemma approval_with_timestamp_idempotent body w :
  schema_ok body = true →
  Js.truthy (timestamp body) = true →
  unique_fingerprints w →
  is_201 (submit_twice body w).1.1 = true
  ∧ is_201 (submit_twice body w).1.2 = true
  ∧ count_fingerprint (fingerprintOf body w) (submit_twice body w).2 = 1%nat.
Proof.
  intros Hok Hts Hu. unfold submit_twice.
  destruct (approval_duplicate body w Hok)
    as (r1 & w1 & r2 & w2 & Hrun1 & Hrun2 & _ & _ & _ & _ & _ & Hnoop).
  pose proof (approval_stored_once body w Hok Hu) as Honce.
  rewrite Hrun1 in Honce |- *. rewrite Hrun2. cbn [fst snd is_201] in *.
  split; [done|]. split; [done|].
  unfold count_fingerprint in *.
  by rewrite (Hnoop (fingerprint_of_timestamp body w1 w Hts)).
Qed.

End StoredOnce.

(** ** Sequences of writes: the store only grows *)

Section WriteSequences.

Lemma approval_appends body w :
  ∃ suffix,
    learning_events (db (ApprovalLearning.createApprovalLearningHandler body w).2)
    = learning_events (db w) ++ suffix.
Proof.
  destruct (ApprovalLearning.schema_ok body) eqn:Hok.
  - destruct (approval_handler_201 body w Hok)
      as (created_at & w' & Hrun & Hrows & _).
    rewrite Hrun. cbn [snd]. rewrite Hrows.
    destruct (hash_taken _ _); [exists []; by rewrite app_nil_r|by eexists].
  - exists []. unfold ApprovalLearning.createApprovalLearningHandler,
      ApprovalLearning.handle.
    unfold mbind, M_bind, throw. rewrite Hok. by rewrite app_nil_r.
Qed.

Lemma feedback_appends body w :
  ∃ suffix,
    learning_events
      (db (FeedbackAssimilation.createFeedbackAssimilationHandler body w).2)
    = learning_events (db w) ++ suffix.
Proof.
  destruct (FeedbackAssimilation.schema_ok body) eqn:Hok.
  - destruct (feedback_handler_cases body w Hok) as (ts & ref & w1 & Hcases).
    destruct (selected_ids _ w) as [|i ids].
    + destruct (hash_taken _ _).
      * destruct Hcases as [Hrun Hrows]. rewrite Hrun. cbn [snd].
        exists []. by rewrite Hrows, app_nil_r.
      * destruct Hcases as (i & created_at & Hrun & Hrows).
        rewrite Hrun. cbn [snd]. rewrite Hrows. by eexists.
    + destruct Hcases as [Hrun Hrows]. rewrite Hrun. cbn [snd].
      exists []. by rewrite Hrows, app_nil_r.
  - exists []. unfold FeedbackAssimilation.createFeedbackAssimilationHandler,
      FeedbackAssimilation.handle.
    unfold mbind, M_bind, throw. rewrite Hok. by rewrite app_nil_r.
Qed.

(** Every sequence of writes is append-only on [learning_events]. *)
Lemma serve_all_appends reqs w :
  ∃ suffix,
    learning_events (db (serve_all w reqs)) = learning_events (db w) ++ suffix.
Proof.
  unfold serve_all. revert w.
  induction reqs as [|req reqs IH]; intros w.
  - exists []. by rewrite app_nil_r.
  - cbn [foldl]. destruct (IH (serve w req)) as [s2 ->].
    assert (∃ s1, learning_events (db (serve w req))
                  = learning_events (db w) ++ s1) as [s1 ->].
    { destruct req; [apply approval_appends|apply feedback_appends]. }
    exists (s1 ++ s2). by rewrite app_assoc.
Qed.

(** Every sequence of writes keeps the fingerprints of the store
    distinct. *)
Lemma serve_all_preserves_unique_fingerprints reqs w :
  unique_fingerprints w → unique_fingerprints (serve_all w reqs).
Proof.
  unfold serve_all. revert w.
  induction reqs as [|req reqs IH]; intros w Hu; [done|].
  cbn [foldl]. apply IH. destruct req.
  - by apply approval_preserves_unique_fingerprints.
  - by apply feedback_preserves_unique_fingerprints.
Qed.

(** The id stored for a fingerprint stays the one [emitLearningEvent]
    finds, whatever is written later. *)
Lemma stored_feedback_id_stable h w reqs i :
  stored_feedback_id h w = Some i →
  stored_feedback_id h (serve_all w reqs) = Some i.
Proof.
  unfold stored_feedback_id, selected_ids. intros Hstored.
  destruct (serve_all_appends reqs w) as [suffix ->].
  rewrite filter_app, fmap_app.
  destruct (le_id <$> filter _ (learning_events (db w))); [done|].
  exact Hstored.
Qed.

(** A feedback answered 201, then any writes, then a feedback with the
    same fingerprint: the second is answered 201 with the id of the
    first and writes nothing. *)
Lemma feedback_duplicate_later b1 b2 w r1 w1 reqs :
  FeedbackAssimilation.schema_ok b1 = true →
  FeedbackAssimilation.schema_ok b2 = true →
  FeedbackAssimilation.inputsHashOf b1 = FeedbackAssimilation.inputsHashOf b2 →
  FeedbackAssimilation.createFeedbackAssimilationHandler b1 w
  = (Status201 r1, w1) →
  ∃ r2 w2,
    FeedbackAssimilation.createFeedbackAssimilationHandler b2
      (serve_all w1 reqs)
    = (Status201 r2, w2)
    ∧ FeedbackAssimilation.r_id r2 = FeedbackAssimilation.r_id r1
    ∧ learning_events (db w2) = learning_events (db (serve_all w1 reqs)).
Proof.
  intros Hok1 Hok2 Hhash Hrun1.
  apply (feedback_stored_201 b2 _ (FeedbackAssimilation.r_id r1) Hok2).
  apply stored_feedback_id_stable.
  rewrite <- Hhash. by apply (feedback_201_stored b1 w).
Qed.

End WriteSequences.

(** ** Duplicate submissions *)

Section DuplicateSubmissions.

(** C3, as the code has it.  On POST /learning/assimilate a submission
    that repeats the fingerprint of one answered 201 is answered 201
    with the same id, the id of the stored record, and writes nothing,
    whatever was written in between.  On POST /learning/learn a second
    submission with the same fingerprint is answered 201 and writes
    nothing, and each of the two responses carries its own identifier,
    the next value of the identifier source. *)
Theorem duplicate_submission_ids :
  (∀ b1 b2 w r1 w1 reqs,
     FeedbackAssimilation.schema_ok b1 = true →
     FeedbackAssimilation.schema_ok b2 = true →
     FeedbackAssimilation.inputsHashOf b1
     = FeedbackAssimilation.inputsHashOf b2 →
     FeedbackAssimilation.createFeedbackAssimilationHandler b1 w
     = (Status201 r1, w1) →
     ∃ r2 w2,
       FeedbackAssimilation.createFeedbackAssimilationHandler b2
         (serve_all w1 reqs)
       = (Status201 r2, w2)
       ∧ FeedbackAssimilation.r_id r2 = FeedbackAssimilation.r_id r1
       ∧ learning_events (db w2) = learning_events (db (serve_all w1 reqs)))
  ∧ (∀ body w,
       ApprovalLearning.schema_ok body = true →
       Js.truthy (ApprovalLearning.timestamp body) = true →
       ∃ r1 w1 r2 w2,
         ApprovalLearning.createApprovalLearningHandler body w
         = (Status201 r1, w1)
         ∧ ApprovalLearning.createApprovalLearningHandler body w1
           = (Status201 r2, w2)
         ∧ ApprovalLearning.r_inputs_hash r2
           = ApprovalLearning.r_inputs_hash r1
         ∧ learning_events (db w2) = learning_events (db w1)
         ∧ ApprovalLearning.r_id r1 = uuid_source w (uuid_reads w)
         ∧ ApprovalLearning.r_id r2 = uuid_source w (S (uuid_reads w))).
Proof.
  split; [exact feedback_duplicate_later|].
  intros body w Hok Hts.
  destruct (approval_duplicate body w Hok)
    as (r1 & w1 & r2 & w2 & Hrun1 & Hrun2 & Hid1 & Hid2 & Hh1 & Hh2 & _ & Hnoop).
  pose proof (fingerprint_of_timestamp body w1 w Hts) as Hsame.
  exists r1, w1, r2, w2.
  split; [exact Hrun1|]. split; [exact Hrun2|].
  split; [by rewrite Hh1, Hh2|]. split; [by apply Hnoop|].
  split; assumption.
Qed.

Lemma duplicate_submission_ids_witness :
  (∃ r1 w1 r2 w2,
     FeedbackAssimilation.createFeedbackAssimilationHandler
       sample_feedback sample_world = (Status201 r1, w1)
     ∧ FeedbackAssimilation.createFeedbackAssimilationHandler
         sample_feedback (serve_all w1 sample_requests) = (Status201 r2, w2)
     ∧ FeedbackAssimilation.r_id r2 = FeedbackAssimilation.r_id r1
     ∧ learning_events (db w2)
       = learning_events (db (serve_all w1 sample_requests)))
  ∧ (∃ r1 w1 r2 w2,
       ApprovalLearning.createApprovalLearningHandler
         approval_with_timestamp sample_world = (Status201 r1, w1)
       ∧ ApprovalLearning.createApprovalLearningHandler
           approval_with_timestamp w1 = (Status201 r2, w2)
       ∧ ApprovalLearning.r_inputs_hash r2
         = ApprovalLearning.r_inputs_hash r1
       ∧ learning_events (db w2) = learning_events (db w1)
       ∧ ApprovalLearning.r_id r1 = "uuid-0"
       ∧ ApprovalLearning.r_id r2 = "uuid-1").
Proof.
  destruct duplicate_submission_ids as [Hfeedback Happroval]. split.
  - destruct (FeedbackAssimilation.createFeedbackAssimilationHandler
                sample_feedback sample_world) as [r1 w1] eqn:Hrun.
    assert (is_201 r1 = true) as H201.
    { replace r1
        with (FeedbackAssimilation.createFeedbackAssimilationHandler
                sample_feedback sample_world).1 by (by rewrite Hrun).
      vm_compute. reflexivity. }
    destruct r1 as [|r1| |]; try discriminate.
    destruct (Hfeedback sample_feedback sample_feedback sample_world r1 w1
                sample_requests)
      as (r2 & w2 & Hrun2 & Hid & Hrows); [reflexivity..|exact Hrun|].
    exists r1, w1, r2, w2.
    split; [reflexivity|]. split; [exact Hrun2|]. split; assumption.
  - destruct (Happroval approval_with_timestamp sample_world)
      as (r1 & w1 & r2 & w2 & Hrun1 & Hrun2 & Hhash & Hrows & Hid1 & Hid2);
      [reflexivity..|].
    exists r1, w1, r2, w2.
    split; [exact Hrun1|]. split; [exact Hrun2|]. split; [exact Hhash|].
    split; [exact Hrows|]. split; [exact Hid1|exact Hid2].
Defined.

(** C3 as stated fails on POST /learning/learn: the same
    approval submitted twice is answered with two different ids for one
    fingerprint, and the store holds one row. *)
Lemma duplicate_approval_ids_differ :
  approval_id (submit_twice approval_with_timestamp sample_world).1.1
  = Some "uuid-0"
  ∧ approval_id (submit_twice approval_with_timestamp sample_world).1.2
    = Some "uuid-1"
  ∧ approval_hash (submit_twice approval_with_timestamp sample_world).1.1
    = approval_hash (submit_twice approval_with_timestamp sample_world).1.2
  ∧ is_Some
      (approval_hash (submit_twice approval_with_timestamp sample_world).1.1)
  ∧ length
      (learning_events
         (db (submit_twice approval_with_timestamp sample_world).2))
    = 1%nat.
Proof.
  split_and!; [vm_compute; reflexivity..| |vm_compute; reflexivity].
  vm_compute. by eexists.
Qed.

(** C2 on the input that breaks it.  An approval without a timestamp
    takes the reading of the clock into its fingerprint: submitted twice
    it is answered 201 twice and stored twice, under two
    fingerprints. *)
Theorem approval_without_timestamp_stored_twice :
  is_201 (submit_twice approval_without_timestamp sample_world).1.1 = true
  ∧ is_201 (submit_twice approval_without_timestamp sample_world).1.2 = true
  ∧ length
      (learning_events
         (db (submit_twice approval_without_timestamp sample_world).2))
    = 2%nat
  ∧ unique_fingerprints
      (submit_twice approval_without_timestamp sample_world).2.
Proof.
  split_and!; [vm_compute; reflexivity..|].
  refine (bool_decide_unpack _ _). vm_compute. exact I.
Qed.

(** With a timestamp in the payload the second submission is a
    no-op: one row is stored. *)
Lemma approval_with_timestamp_stored_once :
  is_201 (submit_twice approval_with_timestamp sample_world).1.1 = true
  ∧ is_201 (submit_twice approval_with_timestamp sample_world).1.2 = true
  ∧ length
      (learning_events
         (db (submit_twice approval_with_timestamp sample_world).2))
    = 1%nat.
Proof. vm_compute. split_and!; reflexivity. Qed.

End DuplicateSubmissions.

(** ** The fingerprint of nested inputs *)

Section FingerprintFacts.

Lemma lookup_here {V} k (r : V) : Json.lookup k [(k, r)] = Some r.
Proof. unfold Json.lookup. cbn. by rewrite decide_True. Qed.

Lemma lookup_other {V} k x (r : V) : x ≠ k → Json.lookup k [(x, r)] = None.
Proof. intros Hne. unfold Json.lookup. cbn. by rewrite decide_False. Qed.

(** With the sorted top-level keys as the replacer, a nested object is
    rendered with the top-level keys only: a property under another key
    is dropped, whatever its value. *)
Lemma nested_property_dropped k x v :
  x ≠ k →
  Json.stringify (Some [k]) (Json.Object [(k, Json.Object [(x, v)])])
  = "{" +:+ (Json.quote k +:+ ":" +:+ "{}") +:+ "}".
Proof.
  intros Hne. cbn [Json.stringify map fst snd default from_option id].
  unfold omap. cbn [list_omap].
  rewrite lookup_here, lookup_other by done. reflexivity.
Qed.

(** C4 on the inputs that break it.  The fingerprint of the feedback
    handler does not see a value nested under a key that is not also a
    top-level key: two objects that differ in such a value have the same
    digest.  The fingerprint of the approval handler sorts the top-level
    keys only: two objects that differ in the insertion order of a
    nested object have different digests. *)
Theorem fingerprint_of_nested_inputs :
  (∀ k x v1 v2,
     x ≠ k →
     FeedbackAssimilation.computeInputsHash
       (Json.Object [(k, Json.Object [(x, v1)])])
     = FeedbackAssimilation.computeInputsHash
         (Json.Object [(k, Json.Object [(x, v2)])]))
  ∧ FeedbackAssimilation.computeInputsHash
      (Json.Object [("a", Json.Object [("x", Json.Number 1)])])
    = FeedbackAssimilation.computeInputsHash
        (Json.Object [("a", Json.Object [("x", Json.Number 2)])])
  ∧ ApprovalLearning.computeInputsHash
      (Json.Object
         [("a", Json.Object [("x", Json.Number 1); ("y", Json.Number 2)])])
    ≠ ApprovalLearning.computeInputsHash
        (Json.Object
           [("a", Json.Object [("y", Json.Number 2); ("x", Json.Number 1)])]).
Proof.
  split; [|split].
  - intros k x v1 v2 Hne. unfold FeedbackAssimilation.computeInputsHash.
    change (Json.sort_strings (Json.keys (Json.Object [(k, ?o)]))) with [k].
    by rewrite !nested_property_dropped.
  - vm_compute. reflexivity.
  - vm_compute. discriminate.
Qed.

Lemma fingerprint_of_nested_inputs_witness :
  FeedbackAssimilation.computeInputsHash
    (Json.Object [("rating", Json.Object [("score", Json.Number 1)])])
  = FeedbackAssimilation.computeInputsHash
      (Json.Object [("rating", Json.Object [("score", Json.Number 5)])]).
Proof.
  apply (proj1 fingerprint_of_nested_inputs). discriminate.
Defined.

End FingerprintFacts.

(** ** The fingerprint and the order of top-level properties *)

Section ReorderFacts.

Lemma lookup_Some {V} (k : string) (m : list (string * V)) (v : V) :
  NoDup (fst <$> m) → Json.lookup k m = Some v ↔ (k, v) ∈ m.
Proof.
  unfold Json.lookup. induction m as [|[k' v'] m IH]; intros Hnd.
  - cbn. split; [done|]. by intros ?%elem_of_nil.
  - rewrite fmap_cons in Hnd. apply NoDup_cons in Hnd as [Hk' Hnd].
    cbn [list_find]. cbn [fst]. destruct (decide (k' = k)) as [->|Hne].
    + cbn. split.
      * intros [= ->]. left.
      * intros [[= ->]|Hin]%elem_of_cons; [done|].
        exfalso. apply Hk'. by apply (list_elem_of_fmap_2 fst m (k, v)).
    + rewrite elem_of_cons, <- (IH Hnd).
      destruct (list_find _ m) as [[i [k0 v0]]|]; cbn.
      * split; [auto|]. intros [[= ? ?]|?]; [congruence|done].
      * split; [done|]. intros [[= ? ?]|?]; [congruence|done].
Qed.

Lemma lookup_perm {V} (k : string) (l l' : list (string * V)) :
  NoDup (fst <$> l) → l ≡ₚ l' → Json.lookup k l = Json.lookup k l'.
Proof.
  intros Hnd Hperm.
  assert (NoDup (fst <$> l')) as Hnd' by (by rewrite <- Hperm).
  destruct (Json.lookup k l) as [v|] eqn:Hl.
  - symmetry. apply (lookup_Some k l' v Hnd'). rewrite <- Hperm.
    by apply (lookup_Some k l v Hnd).
  - destruct (Json.lookup k l') as [v|] eqn:Hl'; [|done].
    apply (lookup_Some k l' v Hnd') in Hl'. rewrite <- Hperm in Hl'.
    apply (lookup_Some k l v Hnd) in Hl'. congruence.
Qed.

Lemma sort_strings_perm (l l' : list string) :
  l ≡ₚ l' → Json.sort_strings l = Json.sort_strings l'.
Proof.
  intros Hperm. unfold Json.sort_strings.
  apply (Sorted_unique String.le); try apply Sorted_merge_sort; try apply _.
  by rewrite !merge_sort_Permutation.
Qed.

Lemma omap_ext_all {A B} (f g : A → option B) (l : list A) :
  (∀ x, f x = g x) → omap f l = omap g l.
Proof.
  intros Hfg. induction l as [|x l IH]; [done|].
  cbn. by rewrite Hfg, IH.
Qed.

Lemma foldl_ext_all {A B} (f g : A → B → A) (a : A) (l : list B) :
  (∀ a x, f a x = g a x) → foldl f a l = foldl g a l.
Proof.
  intros Hfg. revert a. induction l as [|x l IH]; intros a; [done|].
  cbn. by rewrite Hfg, IH.
Qed.

(** X22. Both fingerprints are the same for two objects that hold the
    same properties in a different order. *)
Lemma fingerprint_property_order (props props' : list (string * Json.value)) :
  NoDup (fst <$> props) → props ≡ₚ props' →
  FeedbackAssimilation.computeInputsHash (Json.Object props)
  = FeedbackAssimilation.computeInputsHash (Json.Object props')
  ∧ ApprovalLearning.computeInputsHash (Json.Object props)
    = ApprovalLearning.computeInputsHash (Json.Object props').
Proof.
  intros Hnd Hperm.
  assert (Json.sort_strings (Json.keys (Json.Object props))
          = Json.sort_strings (Json.keys (Json.Object props'))) as Hkeys.
  { apply sort_strings_perm. cbn [Json.keys].
    change (fst <$> props ≡ₚ fst <$> props'). by rewrite Hperm. }
  split.
  - unfold FeedbackAssimilation.computeInputsHash. rewrite <- Hkeys.
    set (K := Json.sort_strings (Json.keys (Json.Object props))).
    cbn [Json.stringify default from_option id]. do 4 f_equal.
    apply omap_ext_all. intros k. f_equal.
    apply lookup_perm.
    + change (NoDup (fst <$> ((λ kv, (kv.1, Json.stringify (Some K) kv.2))
                                <$> props))).
      by rewrite <- list_fmap_compose.
    + change ((λ kv, (kv.1, Json.stringify (Some K) kv.2)) <$> props
              ≡ₚ (λ kv, (kv.1, Json.stringify (Some K) kv.2)) <$> props').
      by rewrite Hperm.
  - unfold ApprovalLearning.computeInputsHash. rewrite <- Hkeys.
    do 3 f_equal. apply foldl_ext_all. intros acc key. f_equal.
    cbn [Json.get]. f_equal. by apply lookup_perm.
Qed.

End ReorderFacts.
(** * The decision-event feed: filter, provenance, order and cursor *)

Section FeedFacts.
Import DecisionEvents.
Context `{!Collation} `{!Js.Locale}.

Lemma type_of_tag_Some s t : type_of_tag s = Some t ↔ type_tag t = s.
Proof.
  unfold type_of_tag. split.
  - intros Hb. apply bind_Some in Hb as ([i t'] & Hfind & [= <-]).
    by apply list_find_Some in Hfind as (_ & Ht & _).
  - intros <-. by destruct t.
Qed.

Lemma elem_of_filtered_types t (toks : list string) :
  t ∈ omap type_of_tag toks ↔ type_tag t ∈ toks.
Proof.
  rewrite list_elem_of_omap. split.
  - intros (s & Hs & Ht). apply type_of_tag_Some in Ht. by subst.
  - intros Ht. exists (type_tag t). split; [done|]. by apply type_of_tag_Some.
Qed.

Lemma parseEventTypes_Some_tokens s :
  parseEventTypes (Some s)
  = match omap type_of_tag (type_tokens s) with
    | [] => None
    | l => Some l
    end.
Proof.
  unfold parseEventTypes, type_tokens. destruct s as [|c s]; [reflexivity|].
  cbn [Js.truthy]. change (default EmptyString (Some (String c s)))
    with (String c s).
  change (map ?f ?l) with (f <$> l).
  by destruct (omap _ _).
Qed.

Lemma parseEventTypes_None_tokens s :
  parseEventTypes (Some s) = None ↔ ∀ t, type_tag t ∉ type_tokens s.
Proof.
  rewrite parseEventTypes_Some_tokens. split.
  - destruct (omap _ _) as [|x l] eqn:Hl; [|done].
    intros _ t Ht. apply elem_of_filtered_types in Ht.
    rewrite Hl in Ht. by apply elem_of_nil in Ht.
  - intros Hnone. destruct (omap _ _) as [|x l] eqn:Hl; [done|].
    destruct (Hnone x). apply elem_of_filtered_types. rewrite Hl. left.
Qed.

(** X1. The type filter reads its parameter as comma-separated tokens,
    trimmed and lower-cased.  It is absent exactly when no token is one of
    the four type names; otherwise it is a non-empty list that holds a
    type exactly when some token names it. *)
Theorem parseEventTypes_tokens :
  parseEventTypes None = None
  ∧ (∀ s, parseEventTypes (Some s) = None
          ↔ ∀ t, type_tag t ∉ type_tokens s)
  ∧ (∀ s l, parseEventTypes (Some s) = Some l →
            l ≠ [] ∧ ∀ t, t ∈ l ↔ type_tag t ∈ type_tokens s)
  ∧ parseEventTypes (Some " Plan_Approved ,bogus,PLAN_CREATED")
    = Some [plan_approved; plan_created].
Proof.
  split; [reflexivity|]. split; [exact parseEventTypes_None_tokens|]. split.
  - intros s l. rewrite parseEventTypes_Some_tokens.
    destruct (omap _ _) as [|x l'] eqn:Hl; [done|].
    intros [= <-]. split; [done|]. intros t. rewrite <- Hl.
    apply elem_of_filtered_types.
  - vm_compute. reflexivity.
Qed.

(** X4. A [types] parameter none of whose tokens is a type name is no
    filter at all: the request is answered as if the parameter were
    absent, with events of every type. *)
Theorem unrecognised_types_select_everything s cur lim db :
  (∀ t, type_tag t ∉ type_tokens s) →
  listDecisionEventsHandler {| types := Some s; after := cur; limit := lim |} db
  = listDecisionEventsHandler {| types := None; after := cur; limit := lim |} db.
Proof.
  intros Hnone. apply parseEventTypes_None_tokens in Hnone.
  unfold listDecisionEventsHandler. simpl. rewrite Hnone. reflexivity.
Qed.

(** X23. A limit of zero, and a limit that is no number, are not
    clamped to 1: they give the default page size of 100, and the request
    is answered as if the parameter were absent. *)
Theorem zero_or_unreadable_limit_is_default s kinds cur db :
  Js.parseInt s = None ∨ Js.parseInt s = Some 0 →
  parseLimit (Some s) = 100
  ∧ listDecisionEventsHandler
      {| types := kinds; after := cur; limit := Some s |} db
    = listDecisionEventsHandler
        {| types := kinds; after := cur; limit := None |} db.
Proof.
  intros Hs. pose proof (parseLimit_default s Hs) as Hlimit.
  split; [exact Hlimit|].
  unfold listDecisionEventsHandler. cbn [limit types after].
  rewrite Hlimit, parseLimit_absent. reflexivity.
Qed.

End FeedFacts.

Section FeedSamples.
Import DecisionEvents.
#[local] Existing Instance code_units.
#[local] Existing Instance sample_locale.

Lemma unrecognised_types_select_everything_witness :
  (∀ t, type_tag t ∉ type_tokens "plan-approved, approved")
  ∧ listDecisionEventsHandler
      {| types := Some "plan-approved, approved"; after := None;
         limit := Some "2" |} sample_db
    = listDecisionEventsHandler
        {| types := None; after := None; limit := Some "2" |} sample_db.
Proof.
  assert (∀ t, type_tag t ∉ type_tokens "plan-approved, approved") as Hnone.
  { intros t Ht. vm_compute in Ht.
    repeat (apply elem_of_cons in Ht as [Ht|Ht]; [by destruct t|]).
    by apply elem_of_nil in Ht. }
  split; [exact Hnone|].
  exact (unrecognised_types_select_everything "plan-approved, approved" None
           (Some "2") sample_db Hnone).
Defined.

Lemma zero_or_unreadable_limit_is_default_witness :
  (Js.parseInt "0" = None ∨ Js.parseInt "0" = Some 0)
  ∧ parseLimit (Some "0") = 100
  ∧ listDecisionEventsHandler
      {| types := None; after := None; limit := Some "0" |} sample_db
    = listDecisionEventsHandler
        {| types := None; after := None; limit := None |} sample_db.
Proof.
  assert (Js.parseInt "0" = None ∨ Js.parseInt "0" = Some 0) as Hs
    by (right; reflexivity).
  split; [exact Hs|].
  exact (zero_or_unreadable_limit_is_default "0" None None sample_db Hs).
Defined.

End FeedSamples.
(** ** Where the events of a page come from *)

Section ProvenanceFacts.
Import DecisionEvents.
Context `{!Collation} `{!Js.Locale}.

Lemma elem_of_select_ordered {R} (key : R → Z * string) (cond : R → bool)
    (n : Z) (rows : list R) (r : R) :
  r ∈ select_ordered key cond n rows → r ∈ rows ∧ cond r = true.
Proof.
  unfold select_ordered. intros Hr. apply (subseteq_take _ _) in Hr.
  rewrite merge_sort_Permutation in Hr.
  by apply list_elem_of_filter in Hr as [? ?].
Qed.

Lemma cursor_cond_strictly_after c created_at row_id :
  cursor_cond c created_at row_id = true ↔ strictly_after c created_at row_id.
Proof.
  destruct c as [c|]; [|done]. unfold cursor_cond, row_after, strictly_after.
  by rewrite orb_true_iff, andb_true_iff, Z.ltb_lt, Z.eqb_eq.
Qed.

(** The events a request collects before they are sorted and cut. *)
Lemma elem_of_handler_events req db e :
  e ∈ events_of (listDecisionEventsHandler req db) →
  let eventTypes := parseEventTypes (types req) in
  (includes_type eventTypes plan_created = true
   ∧ ∃ d, d ∈ decisions db ∧ e = created_event d
          ∧ cursor_cond (cursorParts (after req)) (d_created_at d) (d_id d)
            = true)
  ∨ (includes_type eventTypes plan_approved
     || includes_type eventTypes plan_rejected
     || includes_type eventTypes plan_deferred = true
     ∧ ∃ j, j ∈ approvals_join db ∧ e = reviewed_event j
            ∧ approval_filter (includes_type eventTypes plan_approved)
                (includes_type eventTypes plan_rejected) (a_approved j.1)
              = true
            ∧ cursor_cond (cursorParts (after req)) (a_created_at j.1)
                (a_id j.1) = true).
Proof.
  rewrite events_of_handler. intros He.
  case_decide; [|by apply elem_of_nil in He].
  apply (subseteq_take _ _) in He. rewrite sortEvents_elem_of in He.
  unfold selected_events in He. apply elem_of_app in He as [He|He].
  - left. destruct (includes_type _ plan_created); [|by apply elem_of_nil in He].
    split; [done|].
    apply list_elem_of_fmap in He as (d & -> & Hd).
    apply elem_of_select_ordered in Hd as [? ?]. eauto.
  - right.
    destruct (includes_type _ plan_approved || includes_type _ plan_rejected
              || includes_type _ plan_deferred);
      [|by apply elem_of_nil in He].
    split; [done|].
    apply list_elem_of_fmap in He as (j & -> & Hj).
    apply elem_of_select_ordered in Hj as [? Hc].
    apply andb_true_iff in Hc as [? ?]. eauto 6.
Qed.

(** X2. Every event of a page stems from a stored row that lies strictly
    after the cursor: a row of [decisions], or a row of [approvals]
    together with the decision it references.  An approval whose decision
    is not on record is never listed. *)
Theorem listed_events_come_from_rows req db e :
  e ∈ events_of (listDecisionEventsHandler req db) →
  (∃ d, d ∈ decisions db ∧ e = created_event d
        ∧ strictly_after (cursorParts (after req)) (d_created_at d) (d_id d))
  ∨ (∃ a d, a ∈ approvals db ∧ d ∈ decisions db
            ∧ d_id d = a_decision_id a ∧ e = reviewed_event (a, d)
            ∧ strictly_after (cursorParts (after req)) (a_created_at a)
                (a_id a)).
Proof.
  intros He. apply elem_of_handler_events in He as [(_ & d & Hd & -> & Hc)
                                                    |(_ & [a d] & Hj & -> & _ & Hc)].
  - left. exists d. by rewrite <- cursor_cond_strictly_after.
  - right. exists a, d. apply elem_of_approvals_join in Hj as (? & ? & ?).
    by rewrite <- cursor_cond_strictly_after.
Qed.

(** X3. A type filter that does not ask for [plan_deferred] is respected:
    every event of the page has one of the requested types. *)
Theorem type_filter_is_respected req db l e :
  parseEventTypes (types req) = Some l →
  plan_deferred ∉ l →
  e ∈ events_of (listDecisionEventsHandler req db) →
  type e ∈ l.
Proof.
  intros Hl Hdef He.
  apply elem_of_handler_events in He. cbv zeta in He. rewrite Hl in He.
  cbn [includes_type] in He.
  destruct He as [(Hc & d & _ & -> & _)|(Hany & j & _ & -> & Hf & _)].
  - by apply bool_decide_eq_true in Hc.
  - rewrite (bool_decide_eq_false_2 _ Hdef), orb_false_r in Hany.
    unfold reviewed_event, mapApprovalToEventType. cbn [type].
    destruct (bool_decide (plan_approved ∈ l)) eqn:Ha;
      destruct (bool_decide (plan_rejected ∈ l)) eqn:Hr;
      cbn in Hf, Hany; try done;
      destruct (a_approved j.1); try done;
      first [by apply bool_decide_eq_true in Ha
            |by apply bool_decide_eq_true in Hr].
Qed.

End ProvenanceFacts.

Section ProvenanceSamples.
Import DecisionEvents.
#[local] Existing Instance code_units.
#[local] Existing Instance sample_locale.

Lemma listed_events_come_from_rows_witness :
  events_of (listDecisionEventsHandler colon_request colon_db)
  = [colon_review]
  ∧ ((∃ d, d ∈ decisions colon_db ∧ colon_review = created_event d
           ∧ strictly_after (cursorParts (after colon_request))
               (d_created_at d) (d_id d))
     ∨ (∃ a d, a ∈ approvals colon_db ∧ d ∈ decisions colon_db
               ∧ d_id d = a_decision_id a
               ∧ colon_review = reviewed_event (a, d)
               ∧ strictly_after (cursorParts (after colon_request))
                   (a_created_at a) (a_id a))).
Proof.
  assert (events_of (listDecisionEventsHandler colon_request colon_db)
          = [colon_review]) as Hev by (vm_compute; reflexivity).
  split; [exact Hev|].
  apply (listed_events_come_from_rows colon_request colon_db colon_review).
  rewrite Hev. left.
Defined.

Lemma type_filter_is_respected_witness :
  parseEventTypes (types rejections_request) = Some [plan_rejected]
  ∧ (plan_deferred ∉ [plan_rejected])
  ∧ events_of (listDecisionEventsHandler rejections_request sample_db)
    = [sample_rejected_event]
  ∧ type sample_rejected_event ∈ [plan_rejected].
Proof.
  assert (parseEventTypes (types rejections_request) = Some [plan_rejected])
    as Hl by (vm_compute; reflexivity).
  assert (plan_deferred ∉ [plan_rejected]) as Hdef
    by (intros H; by apply list_elem_of_singleton in H).
  assert (events_of (listDecisionEventsHandler rejections_request sample_db)
          = [sample_rejected_event]) as Hev by (vm_compute; reflexivity).
  split; [exact Hl|]. split; [exact Hdef|]. split; [exact Hev|].
  apply (type_filter_is_respected rejections_request sample_db
           [plan_rejected] sample_rejected_event Hl Hdef).
  rewrite Hev. left.
Defined.

End ProvenanceSamples.
(** ** The order of a page and the cursor it hands out *)

Section OrderFacts.
Import DecisionEvents.
Context `{!Collation} `{!Js.Locale}.

Lemma event_le_order a b : event_le a b ↔ event_order a b.
Proof.
  unfold event_le, event_order, compareEvents.
  case_bool_decide as Hts.
  - split; [intros ?; left; lia|intros [?|[? _]]; [lia|done]].
  - assert (timestamp a = timestamp b) as Heq
      by (destruct (decide (timestamp a = timestamp b)); [done|by destruct Hts]).
    split; [by right|]. intros [?|[_ ?]]; [lia|done].
Qed.

Lemma StronglySorted_weaken {A} (R S : relation A) (l : list A) :
  (∀ x y, R x y → S x y) → StronglySorted R l → StronglySorted S l.
Proof.
  intros HRS. induction 1 as [|x l _ IH Hx]; constructor; [done|].
  eapply Forall_impl; [exact Hx|]. auto.
Qed.

(** X5. The events of a page are in ascending order of their
    milliseconds, events of one millisecond in the order of their ids by
    the collation of the locale, whichever locale it is. *)
Theorem listed_events_are_ordered req db :
  StronglySorted event_order
    (events_of (listDecisionEventsHandler req db)).
Proof.
  rewrite events_of_handler. case_decide; [|constructor].
  apply (StronglySorted_weaken event_le).
  { intros x y. by rewrite event_le_order. }
  set (sorted := sortEvents _).
  assert (StronglySorted event_le sorted) as Hsorted.
  { unfold sorted, sortEvents. apply (StronglySorted_merge_sort _). }
  rewrite <- (take_drop (Z.to_nat (parseLimit (limit req))) sorted) in Hsorted.
  by apply StronglySorted_app_1_l in Hsorted.
Qed.

Lemma split_head_no_sep sep s :
  contains_char sep (hd EmptyString (Js.split sep s)) = false.
Proof.
  induction s as [|c s IH]; [done|]. cbn [Js.split].
  destruct (Ascii.eqb c sep) eqn:Hc; [done|].
  destruct (Js.split sep s) as [|p ps]; cbn [hd contains_char] in *;
    rewrite Hc; [done|exact IH].
Qed.

(** X6. An event id parses back to the type, the row id and the instant
    it was built from, whatever the row id (colons included) and the
    instant, exactly when the type holds no colon.  So two events with
    the same id have the same type, row id and instant. *)
Theorem event_id_round_trip :
  (∀ t i ts,
     parseCursor (buildEventId t i ts)
     = Some {| c_type := t; c_id := i; c_timestamp := ts |}
     ↔ contains_char ":" t = false)
  ∧ (∀ t i ts t' i' ts',
       contains_char ":" t = false → contains_char ":" t' = false →
       buildEventId t i ts = buildEventId t' i' ts' →
       t = t' ∧ i = i' ∧ ts = ts').
Proof.
  split.
  - intros t i ts. split; [|apply parseCursor_buildEventId].
    unfold parseCursor. case_bool_decide; [done|].
    destruct (Js.parseInt _); [|done]. intros [= Ht _ _].
    rewrite <- Ht at 1. apply split_head_no_sep.
  - intros t i ts t' i' ts' Ht Ht' Heq.
    apply (f_equal parseCursor) in Heq.
    rewrite !parseCursor_buildEventId in Heq by done.
    by injection Heq as -> -> ->.
Qed.

Lemma cursorParts_listed req db e :
  e ∈ events_of (listDecisionEventsHandler req db) →
  ∃ row_id,
    cursorParts (Some (id e))
    = Some {| c_type := type_tag (type e); c_id := row_id;
              c_timestamp := timestamp e |}.
Proof.
  intros He.
  apply elem_of_handler_events in He as [(_ & d & _ & -> & _)
                                        |(_ & j & _ & -> & _)].
  - exists (d_id d). apply cursorParts_created.
  - exists (a_id j.1). apply cursorParts_reviewed.
Qed.

Lemma strictly_after_instant c created_at row_id cu :
  c = Some cu → strictly_after c created_at row_id →
  c_timestamp cu ≤ dateOf created_at.
Proof.
  pose proof (dateOf_bounds created_at).
  intros -> [?|[? _]]; unfold timestampOf in *; lia.
Qed.

Lemma listed_not_before_cursor req db cu e :
  cursorParts (after req) = Some cu →
  e ∈ events_of (listDecisionEventsHandler req db) →
  c_timestamp cu ≤ timestamp e.
Proof.
  intros Hcu He.
  apply elem_of_handler_events in He as [(_ & d & _ & -> & Hc)
                                        |(_ & j & _ & -> & _ & Hc)];
    apply cursor_cond_strictly_after in Hc;
    exact (strictly_after_instant _ _ _ _ Hcu Hc).
Qed.

(** X7. The cursor of a response is absent exactly when the page is
    empty.  Otherwise it is the id of the last event of the page, it
    parses, as a cursor, to that event's type and instant, and the
    request that continues with it lists no event of an earlier
    instant. *)
Theorem next_cursor_resumes_at_last_event req db :
  (next_cursor_of (listDecisionEventsHandler req db) = None
   ↔ events_of (listDecisionEventsHandler req db) = [])
  ∧ (∀ c, next_cursor_of (listDecisionEventsHandler req db) = Some c →
       ∃ e cu,
         last (events_of (listDecisionEventsHandler req db)) = Some e
         ∧ c = id e
         ∧ cursorParts (Some c) = Some cu
         ∧ c_type cu = type_tag (type e)
         ∧ c_timestamp cu = timestamp e
         ∧ ∀ e', e' ∈ events_of
                        (listDecisionEventsHandler (next_request req db) db) →
                 timestamp e ≤ timestamp e').
Proof.
  pose proof (next_cursor_of_handler req db) as Hnext.
  split.
  - rewrite Hnext, fmap_None. apply last_None.
  - intros c Hc. rewrite Hnext in Hc.
    apply fmap_Some in Hc as (e & Hlast & ->).
    destruct (cursorParts_listed req db e (last_Some_elem_of _ _ Hlast))
      as (row_id & Hcu).
    eexists e, _. split; [exact Hlast|]. split; [reflexivity|].
    split; [exact Hcu|]. split; [reflexivity|]. split; [reflexivity|].
    intros e' He'.
    assert (cursorParts (after (next_request req db))
            = Some {| c_type := type_tag (type e); c_id := row_id;
                      c_timestamp := timestamp e |}) as Hafter.
    { unfold next_request. cbn [after]. rewrite Hnext, Hlast. exact Hcu. }
    exact (listed_not_before_cursor (next_request req db) db _ e' Hafter He').
Qed.

End OrderFacts.

Section OrderSamples.
Import DecisionEvents.
#[local] Existing Instance code_units.
#[local] Existing Instance sample_locale.

(** In the sample locale, where a lower-case letter sorts before the
    capitals that follow it in the alphabet, the store returns the rows
    of [tie_db] in the order [B], [a] and the page lists them in the
    order [a], [B]. *)
Lemma listed_events_are_ordered_witness :
  d_id <$>
    select_ordered decision_key (λ _, true) 100 (decisions tie_db)
  = ["B"; "a"]
  ∧ (id <$>
       events_of
         (listDecisionEventsHandler
            {| types := None; after := None; limit := None |} tie_db))
    = ["plan_created:a:10"; "plan_created:B:10"]
  ∧ StronglySorted event_order
      (events_of
         (listDecisionEventsHandler
            {| types := None; after := None; limit := None |} tie_db)).
Proof.
  split; [vm_compute; reflexivity|]. split; [vm_compute; reflexivity|].
  apply listed_events_are_ordered.
Defined.

End OrderSamples.
(** ** Following the cursor through a store of any size *)

Section GaplessFacts.
Import DecisionEvents.
Context `{!Collation} `{!Js.Locale}.

Lemma filter_filter_ext {A} (P Q R : A → Prop) `{!∀ x, Decision (P x)}
    `{!∀ x, Decision (Q x)} `{!∀ x, Decision (R x)} (l : list A) :
  (∀ x, x ∈ l → (P x ∧ Q x) ↔ R x) → filter Q (filter P l) = filter R l.
Proof.
  induction l as [|x l IH]; intros Hext; [done|].
  assert (filter Q (filter P l) = filter R l) as IH'.
  { apply IH. intros y Hy. apply Hext. by right. }
  pose proof (Hext x (list_elem_of_here x l)) as Hx.
  destruct (decide (P x)) as [HP|HP].
  - rewrite (filter_cons_True P) by done.
    destruct (decide (Q x)) as [HQ|HQ].
    + rewrite (filter_cons_True Q), (filter_cons_True R) by tauto.
      by rewrite IH'.
    + rewrite (filter_cons_False Q), (filter_cons_False R) by tauto.
      exact IH'.
  - rewrite (filter_cons_False P), (filter_cons_False R) by tauto.
    exact IH'.
Qed.

Lemma ts_after_later c t t' : ts_after c t → t < t' → ts_after c t'.
Proof. destruct c; simpl; [lia|done]. Qed.

Lemma page_size_pos lim : (0 < page_size lim)%nat.
Proof.
  unfold page_size. pose proof (parseLimit_range lim). lia.
Qed.

Lemma follow_S k req db :
  follow (S k) req db
  = events_of (listDecisionEventsHandler req db)
      ++ follow k (next_request req db) db.
Proof. reflexivity. Qed.

Lemma follow_take kinds db lim k :
  NoDup (timestamp <$> allEvents db) →
  whole_milliseconds db →
  readable_dates db →
  ∀ cur,
    cursor_names_row (cursorParts cur) db →
    cursor_binds (cursorParts cur) →
    let rest :=
      filter (wanted (parseEventTypes kinds) (cursorParts cur))
        (sortEvents (allEvents db)) in
    (k * page_size lim < length rest)%nat →
    follow (S k) {| types := kinds; after := cur; limit := lim |} db
    = take (S k * page_size lim) rest.
Proof.
  intros Hnd Hwhole Hreadable.
  pose proof (sorted_allEvents db Hnd) as Hsorted.
  pose proof (page_size_pos lim) as Hpos.
  induction k as [|k IH]; intros cur Hnames Hbinds rest Hlen.
  - cbn [follow].
    rewrite (handler_wanted_page kinds cur lim db Hnd Hnames Hbinds).
    cbn [events_of events]. rewrite app_nil_r. fold rest. f_equal. lia.
  - rewrite follow_S.
    pose proof (handler_wanted_page kinds cur lim db Hnd Hnames Hbinds)
      as Hpage.
    fold rest in Hpage. unfold next_request. rewrite Hpage.
    cbn [types limit events_of next_cursor_of events next_cursor].
    assert (page_size lim < length rest)%nat as Hn by lia.
    destruct (last (take (page_size lim) rest)) as [e|] eqn:Hlast.
    2: { apply last_None in Hlast.
         apply (f_equal length) in Hlast. rewrite length_take in Hlast.
         cbn in Hlast. lia. }
    cbn [fmap option_fmap option_map].
    apply last_Some in Hlast as [p Hp].
    assert (rest = p ++ e :: drop (page_size lim) rest) as Hrest.
    { rewrite <- (take_drop (page_size lim) rest) at 1.
      by rewrite Hp, <- app_assoc. }
    assert (StronglySorted (key_lt timestamp) rest) as Hrs.
    { refine (key_lt_sublist timestamp _ _ _ Hsorted). apply sublist_filter. }
    assert (e ∈ rest) as Hin.
    { rewrite Hrest. apply elem_of_app. right. left. }
    assert (e ∈ allEvents db ∧ ts_after (cursorParts cur) (timestamp e))
      as [Hall Hafter].
    { apply list_elem_of_filter in Hin as [[_ ?] Hin]. split; [|done].
      exact (proj1 (sortEvents_elem_of _ _) Hin). }
    destruct (cursor_of_event db e Hnd Hwhole Hreadable Hall)
      as (cu & Hcu & Hts & Hnames' & Hbinds').
    assert (filter (wanted (parseEventTypes kinds) (cursorParts (Some (id e))))
              (sortEvents (allEvents db))
            = drop (page_size lim) rest) as Hnext.
    { rewrite Hcu.
      rewrite <- (filter_after_sorted cu p (drop (page_size lim) rest) e Hts)
        by (by rewrite <- Hrest).
      rewrite <- Hrest. unfold rest. symmetry. apply filter_filter_ext.
      intros x _. unfold wanted. split.
      - intros [[Hl _] Hx]. done.
      - intros [Hl Hx]. split; [|done]. split; [done|].
        simpl in Hx. eapply ts_after_later; [exact Hafter|lia]. }
    rewrite (IH (Some (id e))).
    + rewrite Hnext, take_take_drop. f_equal; lia.
    + by rewrite Hcu.
    + by rewrite Hcu.
    + rewrite Hnext, length_drop. lia.
Qed.

(** X21. Following the cursor lists the events a filter selects without a
    gap and without a repetition, whatever the filter, the page size and
    the size of the store, over a store in which no two events share a
    millisecond and every row was created at a whole number of
    milliseconds that the store reads back from a [Date].  The filter
    selects [plan_created] events when that type is requested, and
    [plan_approved] events when that type is requested or when
    [plan_deferred] is requested and [plan_rejected] is not, and
    likewise for [plan_rejected]; without a filter it selects every
    event.  As long as the polls before the last return full pages, the
    events of the first [k + 1] polls are, in this order, the first
    [(k + 1) * page size] selected events by instant; once that many
    polls cover the selection, they have listed every selected event
    exactly once. *)
Theorem cursor_pagination_is_gapless kinds db lim k :
  NoDup (timestamp <$> allEvents db) →
  whole_milliseconds db →
  readable_dates db →
  (k * page_size lim < length (matching kinds db))%nat →
  follow (S k) (first_request kinds lim) db
  = take (S k * page_size lim) (matching kinds db)
  ∧ StronglySorted (key_lt timestamp) (matching kinds db)
  ∧ (∀ e, e ∈ matching kinds db
          ↔ e ∈ allEvents db
            ∧ listed_type (parseEventTypes kinds) (type e) = true)
  ∧ ((length (matching kinds db) ≤ S k * page_size lim)%nat →
     follow (S k) (first_request kinds lim) db = matching kinds db
     ∧ NoDup (follow (S k) (first_request kinds lim) db)).
Proof.
  intros Hnd Hwhole Hreadable Hlen.
  assert (StronglySorted (key_lt timestamp) (matching kinds db)) as Hsorted.
  { refine (key_lt_sublist timestamp _ _ _ (sorted_allEvents db Hnd)).
    apply sublist_filter. }
  assert (follow (S k) (first_request kinds lim) db
          = take (S k * page_size lim) (matching kinds db)) as Hfollow.
  { pose proof (follow_take kinds db lim k Hnd Hwhole Hreadable None I I)
      as Hfollow.
    cbv zeta in Hfollow.
    change (cursorParts None) with (@None Cursor) in Hfollow.
    rewrite wanted_without_cursor in Hfollow. by apply Hfollow. }
  split; [exact Hfollow|]. split; [exact Hsorted|]. split.
  - intros e. unfold matching.
    rewrite list_elem_of_filter, sortEvents_elem_of. tauto.
  - intros Hcover. rewrite Hfollow, take_ge by done. split; [done|].
    apply (NoDup_fmap_1 timestamp).
    apply (sublist_NoDup _ (timestamp <$> sortEvents (allEvents db))).
    + unfold sortEvents. by rewrite merge_sort_Permutation.
    + apply fmap_sublist, sublist_filter.
Qed.

End GaplessFacts.

Section GaplessSamples.
Import DecisionEvents.
#[local] Existing Instance code_units.
#[local] Existing Instance sample_locale.

Lemma cursor_pagination_is_gapless_witness :
  NoDup (timestamp <$> allEvents sample_db)
  ∧ whole_milliseconds sample_db
  ∧ readable_dates sample_db
  ∧ (1 * page_size (Some "1")
     < length (matching (Some "plan_deferred") sample_db))%nat
  ∧ (id <$> follow 2 (first_request (Some "plan_deferred") (Some "1"))
              sample_db)
    = ["plan_approved:a1:20"; "plan_rejected:a2:40"]
  ∧ NoDup (follow 2 (first_request (Some "plan_deferred") (Some "1"))
             sample_db).
Proof.
  assert (NoDup (timestamp <$> allEvents sample_db)) as Hnd
    by (refine (bool_decide_unpack _ _); vm_compute; exact I).
  assert (1 * page_size (Some "1")
          < length (matching (Some "plan_deferred") sample_db))%nat as Hlen
    by (vm_compute; lia).
  destruct (cursor_pagination_is_gapless (Some "plan_deferred") sample_db
              (Some "1") 1 Hnd sample_db_whole sample_db_readable Hlen)
    as (Hfollow & _ & _ & Hcover).
  split; [exact Hnd|]. split; [exact sample_db_whole|].
  split; [exact sample_db_readable|]. split; [exact Hlen|]. split.
  - rewrite Hfollow. vm_compute. reflexivity.
  - apply Hcover. vm_compute. lia.
Defined.

End GaplessSamples.
(** ** The row an approval stores *)

Section ApprovalRowFacts.
Import ApprovalLearning.

(** X24. An approval with a fingerprint that is not yet stored adds one
    row.  The row carries the id and the fingerprint of the response,
    the decision id of the body as its source whether or not such a
    decision is on record, and as [created_at] the timestamp of the
    body.  Without a timestamp the clock is read twice: the first
    reading enters the fingerprint, the second becomes [created_at]. *)
Theorem approval_row_as_stored body w :
  schema_ok body = true →
  hash_taken (fingerprintOf body w) (learning_events (db w)) = false →
  ∃ r row w',
    learn body w = (Status201 r, w')
    ∧ learning_events (db w') = learning_events (db w) ++ [row]
    ∧ le_id row = r_id r
    ∧ r_id r = uuid_source w (uuid_reads w)
    ∧ le_inputs_hash row = r_inputs_hash r
    ∧ r_inputs_hash r
      = computeInputsHash (hashedInputs body (inputsTimestampOf body w))
    ∧ le_source_id row = sourceIdOf body
    ∧ le_source_type row = "approval_learning"
    ∧ le_created_at row = createdAtOf body w
    ∧ clock_reads w'
      = if Js.truthy (timestamp body) then clock_reads w
        else S (S (clock_reads w)).
Proof.
  intros Hok Hfresh.
  unfold fingerprintOf, inputsTimestampOf in Hfresh.
  unfold learn, createdAtOf, sourceIdOf, inputsTimestampOf.
  unfold createApprovalLearningHandler, handle, loadSourceDecision,
    str_or_now, emitLearningDecisionEvent, insert_on_conflict_do_nothing,
    select_decision, uuidv4, isoNow.
  unfold mbind, M_bind, mret, M_ret, throw. rewrite Hok.
  destruct (decision_id body) as [[|c i]|] eqn:Hid;
    destruct (Js.truthy (timestamp body)) eqn:Hts;
    cbn [Js.truthy db learning_events clock_source clock_reads uuid_source
         uuid_reads inputs_hash learningEventOf rowOf le_inputs_hash];
    rewrite Hfresh;
    eexists _, _, _; (split; [reflexivity|]);
    cbn [db learning_events set_learning_events clock_reads];
    (split; [reflexivity|]);
    cbn [rowOf le_id le_inputs_hash le_source_id le_source_type le_created_at
         learningEventOf responseOf r_id r_inputs_hash id inputs_hash
         created_at source_decision_id Js.truthy];
    rewrite ?Hid; repeat split; reflexivity.
Qed.

Lemma approval_row_as_stored_witness :
  schema_ok approval_without_timestamp = true
  ∧ hash_taken (fingerprintOf approval_without_timestamp sample_world)
      (learning_events (db sample_world)) = false
  ∧ ∃ r row w',
      learn approval_without_timestamp sample_world = (Status201 r, w')
      ∧ learning_events (db w') = [row]
      ∧ le_id row = "uuid-0"
      ∧ le_created_at row = "2024-01-01T00:00:01.000Z"
      ∧ clock_reads w' = 2%nat.
Proof.
  split; [reflexivity|]. split; [reflexivity|].
  destruct (approval_row_as_stored approval_without_timestamp sample_world)
    as (r & row & w' & Hrun & Hrows & Hid & Hrid & _ & _ & _ & _ & Hcreated
        & Hclock); [reflexivity|reflexivity|].
  exists r, row, w'. split; [exact Hrun|]. split; [exact Hrows|].
  split; [by rewrite Hid, Hrid|]. split; [by rewrite Hcreated|exact Hclock].
Defined.

End ApprovalRowFacts.
(** ** A row created at a fraction of a millisecond *)

Section FractionFacts.
Import DecisionEvents.
Context `{!Collation} `{!Js.Locale}.

(** In a list that is strictly increasing by instants, the events from
    the instant of one of its events on are that event and the events
    that follow it. *)
Lemma filter_from_sorted (l1 l2 : list DecisionEvent) e :
  StronglySorted (key_lt timestamp) (l1 ++ e :: l2) →
  filter (λ x, timestamp e ≤ timestamp x) (l1 ++ e :: l2) = e :: l2.
Proof.
  intros Hs. apply StronglySorted_app in Hs as (Hbefore & _ & Hs).
  apply StronglySorted_inv in Hs as [_ Hafter].
  rewrite filter_app, filter_cons_True by lia.
  rewrite filter_Forall_none, filter_Forall_all; [done| |].
  - eapply Forall_impl; [exact Hafter|].
    intros x. unfold key_lt. lia.
  - apply list.Forall_forall. intros x Hx.
    specialize (Hbefore x e Hx (list_elem_of_here _ _)).
    unfold key_lt in Hbefore. lia.
Qed.

(** The row of an event created at a fraction of a millisecond lies
    after the cursor built from the event: the cursor condition holds of
    the rows from the millisecond of the event on. *)
Lemma cursor_cond_from cu created_at row_id :
  (dateOf created_at = c_timestamp cu → ¬ (1000 | created_at)) →
  cursor_cond (Some cu) created_at row_id = true
  ↔ c_timestamp cu ≤ dateOf created_at.
Proof.
  intros Hrow. cbn [cursor_cond]. unfold row_after, timestampOf.
  pose proof (dateOf_bounds created_at) as Hms.
  destruct (Z.ltb_spec (c_timestamp cu * 1000) created_at) as [Hlt|Hge];
    cbn [orb]; [split; [lia|done]|].
  destruct (Z.eqb_spec (c_timestamp cu * 1000) created_at) as [Heq|Hne];
    cbn [andb]; [|split; [done|lia]].
  destruct Hrow; [lia|]. exists (c_timestamp cu). lia.
Qed.

Lemma sub_millisecond_cursor db e :
  NoDup (timestamp <$> allEvents db) →
  sub_millisecond db e →
  ∃ cu, cursorParts (Some (id e)) = Some cu
        ∧ c_timestamp cu = timestamp e
        ∧ (∀ d, d ∈ decisions db →
                cursor_cond (Some cu) (d_created_at d) (d_id d) = true
                ↔ timestamp e ≤ timestamp (created_event d))
        ∧ (∀ j, j ∈ approvals_join db →
                cursor_cond (Some cu) (a_created_at j.1) (a_id j.1) = true
                ↔ timestamp e ≤ timestamp (reviewed_event j)).
Proof.
  intros Hnd Hsub.
  assert (e ∈ allEvents db) as He.
  { apply elem_of_allEvents.
    destruct Hsub as [(d & ? & ? & _)|(j & ? & ? & _)]; eauto. }
  assert (∃ cu, cursorParts (Some (id e)) = Some cu
                ∧ c_timestamp cu = timestamp e) as (cu & Hcu & Hts).
  { destruct Hsub as [(d & _ & -> & _)|(j & _ & -> & _)].
    - eexists. split; [apply cursorParts_created|done].
    - eexists. split; [apply cursorParts_reviewed|done]. }
  pose proof Hnd as HndE. rewrite timestamp_allEvents in Hnd.
  apply NoDup_app in Hnd as (HndD & _ & HndJ).
  exists cu. split; [done|]. split; [done|]. rewrite <- Hts. split.
  - intros d Hd. apply cursor_cond_from. intros Hsame.
    assert (created_event d = e) as Heq.
    { apply (NoDup_fmap_eq timestamp (allEvents db)); [done| |done|].
      - apply elem_of_allEvents. left. eauto.
      - rewrite timestamp_created_event. congruence. }
    destruct Hsub as [(d' & Hd' & -> & Hfraction)|(j' & _ & -> & _)].
    + assert (d = d') as ->; [|done].
      apply (NoDup_fmap_eq (λ d, dateOf (d_created_at d)) (decisions db));
        [done..|]. by apply (f_equal timestamp) in Heq.
    + apply (f_equal type) in Heq.
      by destruct (reviewed_event_type j') as [Ht|Ht]; rewrite Ht in Heq.
  - intros j Hj. apply cursor_cond_from. intros Hsame.
    assert (reviewed_event j = e) as Heq.
    { apply (NoDup_fmap_eq timestamp (allEvents db)); [done| |done|].
      - apply elem_of_allEvents. right. eauto.
      - rewrite timestamp_reviewed_event. congruence. }
    destruct Hsub as [(d' & _ & -> & _)|(j' & Hj' & -> & Hfraction)].
    + apply (f_equal type) in Heq.
      by destruct (reviewed_event_type j) as [Ht|Ht]; rewrite Ht in Heq.
    + assert (j = j') as ->; [|done].
      apply (NoDup_fmap_eq (λ j, dateOf (a_created_at j.1))
               (approvals_join db)); [done..|].
      by apply (f_equal timestamp) in Heq.
Qed.

(** X27. A row created at a fraction of a millisecond is listed again by
    the poll that resumes from its cursor.  The cursor carries the
    millisecond of the row, the store compares it with the row's
    microseconds, and the row lies after its own cursor.  Over a store
    in which no two events share a millisecond, the poll that passes the
    id of such an event as the cursor returns the page that begins with
    that event; with a page size of 1 every further poll returns this
    one event, and the listing never gets past it. *)
Theorem sub_millisecond_row_is_listed_again kinds lim db before e rest :
  NoDup (timestamp <$> allEvents db) →
  matching kinds db = before ++ e :: rest →
  sub_millisecond db e →
  readable_date (timestamp e) = true →
  listDecisionEventsHandler
    {| types := kinds; after := Some (id e); limit := lim |} db
  = Status200
      {| events := take (page_size lim) (e :: rest);
         next_cursor := id <$> last (take (page_size lim) (e :: rest)) |}
  ∧ (page_size lim = 1%nat →
     ∀ k, follow k {| types := kinds; after := Some (id e); limit := lim |}
            db
          = replicate k e).
Proof.
  intros Hnd Hmatching Hsub Hreadable.
  destruct (sub_millisecond_cursor db e Hnd Hsub)
    as (cu & Hcu & Hts & HcD & HcJ).
  assert (listDecisionEventsHandler
            {| types := kinds; after := Some (id e); limit := lim |} db
          = Status200
              {| events := take (page_size lim) (e :: rest);
                 next_cursor :=
                   id <$> last (take (page_size lim) (e :: rest)) |})
    as Hpage.
  { rewrite handler_binds; cbn [types after limit]; rewrite Hcu.
    2:{ cbn [cursor_binds]. by rewrite Hts. }
    fold (page_size lim).
    rewrite (selected_listed (λ x, timestamp e ≤ timestamp x)
               (parseEventTypes kinds) (Some cu) lim db Hnd HcD HcJ).
    assert (filter
              (λ x, listed_type (parseEventTypes kinds) (type x) = true
                    ∧ timestamp e ≤ timestamp x)
              (sortEvents (allEvents db))
            = e :: rest) as ->; [|done].
    rewrite <- (filter_from_sorted before rest e).
    - rewrite <- Hmatching. unfold matching. symmetry.
      by apply filter_filter_ext.
    - rewrite <- Hmatching.
      refine (key_lt_sublist timestamp _ _ _ (sorted_allEvents db Hnd)).
      apply sublist_filter. }
  split; [exact Hpage|]. intros Hone k.
  induction k as [|k IH]; [done|].
  rewrite follow_S. unfold next_request. rewrite Hpage, Hone.
  cbn [events_of next_cursor_of events next_cursor types limit].
  change (take 1 (e :: rest)) with [e].
  change (id <$> last [e]) with (Some (id e)).
  by rewrite IH.
Qed.

End FractionFacts.

Section FractionSamples.
Import DecisionEvents.
#[local] Existing Instance code_units.
#[local] Existing Instance sample_locale.

Lemma sub_millisecond_row_is_listed_again_witness :
  NoDup (timestamp <$> allEvents fraction_db)
  ∧ sub_millisecond fraction_db fraction_event
  ∧ events_of
      (listDecisionEventsHandler
         {| types := None; after := None; limit := Some "1" |} fraction_db)
    = [fraction_event]
  ∧ next_cursor_of
      (listDecisionEventsHandler
         {| types := None; after := None; limit := Some "1" |} fraction_db)
    = Some (id fraction_event)
  ∧ follow 3
      {| types := None; after := Some (id fraction_event);
         limit := Some "1" |} fraction_db
    = [fraction_event; fraction_event; fraction_event].
Proof.
  assert (NoDup (timestamp <$> allEvents fraction_db)) as Hnd
    by (refine (bool_decide_unpack _ _); vm_compute; exact I).
  assert (sub_millisecond fraction_db fraction_event) as Hsub.
  { left. eexists. split; [left|]. split; [reflexivity|].
    cbn [d_created_at]. intros [q Hq]. lia. }
  assert (matching None fraction_db
          = [] ++ fraction_event :: drop 1 (matching None fraction_db))
    as Hmatching by (vm_compute; reflexivity).
  destruct (sub_millisecond_row_is_listed_again None (Some "1") fraction_db
              [] fraction_event _ Hnd Hmatching Hsub eq_refl)
    as [_ Hstuck].
  split; [exact Hnd|]. split; [exact Hsub|].
  split; [vm_compute; reflexivity|]. split; [vm_compute; reflexivity|].
  exact (Hstuck eq_refl 3%nat).
Defined.

End FractionSamples.
(** * The write endpoints: validation and the shape of a write *)

Section ValidationFacts.

Lemma in_range_true lo hi x :
  FeedbackAssimilation.in_range lo hi x = true ↔ (lo <= x <= hi)%Q.
Proof.
  unfold FeedbackAssimilation.in_range.
  by rewrite andb_true_iff, !Qle_bool_iff.
Qed.

Lemma approval_schema_refuses body :
  ApprovalLearning.schema_ok body = false ↔ approval_body_invalid body.
Proof.
  unfold ApprovalLearning.schema_ok, approval_body_invalid.
  rewrite andb_false_iff. split.
  - intros [Hid|Hadj].
    + left. by destruct (ApprovalLearning.decision_id body) as [[|c s]|].
    + right. destruct (ApprovalLearning.confidence_adjustment body) as [a|];
        [|done].
      exists a. split; [done|]. intros [H1 H2].
      apply Qle_bool_iff in H1, H2. by rewrite H1, H2 in Hadj.
  - intros [->|(a & -> & Ha)]; [by left|right].
    destruct (Qle_bool (-1) a) eqn:H1; [|done].
    destruct (Qle_bool a 1) eqn:H2; [|done].
    destruct Ha. by rewrite <- !Qle_bool_iff.
Qed.

Lemma forallb_false {A} (f : A → bool) (l : list A) :
  forallb f l = false ↔ ∃ x, x ∈ l ∧ f x = false.
Proof.
  induction l as [|y l IH]; cbn [forallb].
  - split; [done|]. intros (x & Hx & _). by apply elem_of_nil in Hx.
  - rewrite andb_false_iff, IH. split.
    + intros [Hy|(x & Hx & Hf)]; [exists y; split; [left|done]|].
      exists x. split; [by right|done].
    + intros (x & [->|Hx]%elem_of_cons & Hf); [by left|right; eauto].
Qed.

Lemma feedback_schema_refuses body :
  FeedbackAssimilation.schema_ok body = false ↔ feedback_body_invalid body.
Proof.
  unfold FeedbackAssimilation.schema_ok, feedback_body_invalid.
  rewrite !andb_false_iff, !negb_false_iff, !String.eqb_eq, forallb_false.
  split.
  - intros [[[?|?]|(s & Hs & Hbad)]|Hc]; [by left|by right; left| |].
    + right; right; left. exists s. split; [done|]. intros [Hv Hcf].
      apply in_range_true in Hv, Hcf. by rewrite Hv, Hcf in Hbad.
    + right; right; right.
      destruct (FeedbackAssimilation.in_confidence body) as [c|]; [|done].
      exists c. split; [done|]. rewrite <- in_range_true. by rewrite Hc.
  - intros [?|[?|[(s & Hs & Hbad)|(c & -> & Hbad)]]];
      [by left; left; left|by left; left; right| |].
    + left; right. exists s. split; [done|].
      apply not_true_is_false. intros Hok.
      apply andb_true_iff in Hok as [Hv Hcf].
      apply in_range_true in Hv, Hcf. by destruct Hbad.
    + right. rewrite <- in_range_true in Hbad.
      by destruct (FeedbackAssimilation.in_range 0 1 c).
Qed.

Lemma approval_refused body w :
  ApprovalLearning.schema_ok body = false →
  learn body w = (Status400, w).
Proof.
  intros Hok. unfold learn, ApprovalLearning.createApprovalLearningHandler,
    ApprovalLearning.handle.
  unfold mbind, M_bind, throw. by rewrite Hok.
Qed.

Lemma feedback_refused body w :
  FeedbackAssimilation.schema_ok body = false →
  assimilate body w = (Status400, w).
Proof.
  intros Hok. unfold assimilate,
    FeedbackAssimilation.createFeedbackAssimilationHandler,
    FeedbackAssimilation.handle.
  unfold mbind, M_bind, throw. by rewrite Hok.
Qed.

Lemma feedback_accepted_status body w :
  FeedbackAssimilation.schema_ok body = true →
  is_400 (assimilate body w).1 = false.
Proof.
  intros Hok.
  destruct (feedback_handler_cases body w Hok) as (ts & ref & w1 & Hcases).
  unfold assimilate. destruct (selected_ids _ w) as [|i ids].
  - destruct (hash_taken _ _).
    + destruct Hcases as [-> _]. reflexivity.
    + destruct Hcases as (i & created_at & -> & _). reflexivity.
  - destruct Hcases as [-> _]. reflexivity.
Qed.

(** X8. For a body whose fields have the types its schema names, each
    write endpoint answers 400 exactly to the bodies the schema refuses,
    and a refused request leaves the world as it was: nothing is stored,
    no identifier is drawn and the clock is not read. *)
Theorem refused_bodies_change_nothing :
  (∀ body w, is_400 (learn body w).1 = true ↔ approval_body_invalid body)
  ∧ (∀ body w, approval_body_invalid body → learn body w = (Status400, w))
  ∧ (∀ body w, is_400 (assimilate body w).1 = true
               ↔ feedback_body_invalid body)
  ∧ (∀ body w, feedback_body_invalid body →
               assimilate body w = (Status400, w)).
Proof.
  split; [|split; [|split]].
  - intros body w. rewrite <- approval_schema_refuses.
    destruct (ApprovalLearning.schema_ok body) eqn:Hok.
    + destruct (approval_handler_201 body w Hok) as (c & w' & Hrun & _).
      unfold learn. by rewrite Hrun.
    + by rewrite approval_refused.
  - intros body w Hbad. by apply approval_refused, approval_schema_refuses.
  - intros body w. rewrite <- feedback_schema_refuses.
    destruct (FeedbackAssimilation.schema_ok body) eqn:Hok.
    + by rewrite feedback_accepted_status.
    + by rewrite feedback_refused.
  - intros body w Hbad. by apply feedback_refused, feedback_schema_refuses.
Qed.

End ValidationFacts.
(** ** Writes only append *)

Section AppendFacts.
Context `{!Collation} `{!Js.Locale}.

Lemma grows_by_refl w : grows_by_at_most 0 w w.
Proof.
  repeat (split; [reflexivity|]). exists []. by rewrite app_nil_r.
Qed.

Lemma grows_by_trans n m w1 w2 w3 :
  grows_by_at_most n w1 w2 → grows_by_at_most m w2 w3 →
  grows_by_at_most (n + m) w1 w3.
Proof.
  intros (Hd1 & Ha1 & Hu1 & Hc1 & s1 & Hs1 & Hn)
         (Hd2 & Ha2 & Hu2 & Hc2 & s2 & Hs2 & Hm).
  split; [congruence|]. split; [congruence|]. split; [congruence|].
  split; [congruence|]. exists (s1 ++ s2).
  rewrite Hs2, Hs1, app_assoc, length_app. split; [done|lia].
Qed.

Lemma learn_grows body w : grows_by_at_most 1 w (learn body w).2.
Proof.
  unfold learn. destruct (ApprovalLearning.schema_ok body) eqn:Hok.
  - destruct (approval_handler_201 body w Hok)
      as (created_at & w' & Hrun & Hrows & Hd & Ha & Hu & _ & Hc).
    rewrite Hrun. cbn [snd]. repeat (split; [assumption|]).
    rewrite Hrows. destruct (hash_taken _ _).
    + exists []. rewrite app_nil_r. split; [done|cbn; lia].
    + eexists. split; [reflexivity|cbn; lia].
  - pose proof (approval_refused body w Hok) as Hrun. unfold learn in Hrun.
    rewrite Hrun. cbn [snd].
    repeat (split; [reflexivity|]). exists []. rewrite app_nil_r.
    split; [done|cbn; lia].
Qed.

Lemma assimilate_grows body w : grows_by_at_most 1 w (assimilate body w).2.
Proof.
  unfold assimilate. destruct (FeedbackAssimilation.schema_ok body) eqn:Hok.
  - unfold FeedbackAssimilation.createFeedbackAssimilationHandler,
      FeedbackAssimilation.handle, str_or_now,
      FeedbackAssimilation.executionRefOf,
      FeedbackAssimilation.emitLearningEvent, select_learning_event_ids,
      insert_row, uuidv4, isoNow.
    unfold mbind, M_bind, mret, M_ret, throw. rewrite Hok.
    destruct (Js.truthy (FeedbackAssimilation.in_timestamp body));
      destruct (Js.truthy (FeedbackAssimilation.in_execution_ref body));
      cbn [db learning_events clock_source clock_reads uuid_source uuid_reads];
      (destruct (le_id <$> filter _ (learning_events (db w))) as [|i ids];
       [destruct (hash_taken _ _)|]);
      cbn [snd db decisions approvals learning_events uuid_source
           clock_source set_learning_events];
      repeat (split; [reflexivity|]);
      first [exists []; rewrite app_nil_r; split; [reflexivity|cbn; lia]
            |eexists; split; [reflexivity|cbn; lia]].
  - pose proof (feedback_refused body w Hok) as Hrun. unfold assimilate in Hrun.
    rewrite Hrun. cbn [snd].
    repeat (split; [reflexivity|]). exists []. rewrite app_nil_r.
    split; [done|cbn; lia].
Qed.

Lemma serve_all_grows reqs w :
  grows_by_at_most (length reqs) w (serve_all w reqs).
Proof.
  unfold serve_all. revert w.
  induction reqs as [|req reqs IH]; intros w; [apply grows_by_refl|].
  cbn [foldl length]. apply (grows_by_trans 1 _ _ (serve w req)); [|apply IH].
  destruct req; [apply learn_grows|apply assimilate_grows].
Qed.

(** X9. The write endpoints only append.  Whatever sequence of requests
    is served, the decisions and the approvals are untouched, every row
    of [learning_events] that was stored is still there, unchanged and in
    place, and at most one row per request has been added behind them. *)
Theorem writes_only_append reqs w :
  decisions (db (serve_all w reqs)) = decisions (db w)
  ∧ approvals (db (serve_all w reqs)) = approvals (db w)
  ∧ ∃ suffix,
      learning_events (db (serve_all w reqs))
      = learning_events (db w) ++ suffix
      ∧ (length suffix ≤ length reqs)%nat.
Proof.
  destruct (serve_all_grows reqs w) as (Hd & Ha & _ & _ & Hs).
  split; [exact Hd|]. split; [exact Ha|exact Hs].
Qed.

Lemma feed_reads_decisions_and_approvals req db1 db2 :
  decisions db1 = decisions db2 → approvals db1 = approvals db2 →
  DecisionEvents.listDecisionEventsHandler req db1
  = DecisionEvents.listDecisionEventsHandler req db2.
Proof.
  intros Hd Ha. unfold DecisionEvents.listDecisionEventsHandler,
    DecisionEvents.approvals_join.
  by rewrite Hd, Ha.
Qed.

(** X25. The write endpoints do not disturb the feed: whatever sequence of
    learn and assimilate requests is served, every request to GET
    /events/decisions is answered as before. *)
Theorem writes_do_not_disturb_the_feed reqs w req :
  DecisionEvents.listDecisionEventsHandler req (db (serve_all w reqs))
  = DecisionEvents.listDecisionEventsHandler req (db w).
Proof.
  destruct (serve_all_grows reqs w) as (Hd & Ha & _).
  by apply feed_reads_decisions_and_approvals.
Qed.

End AppendFacts.
(** ** What enters a fingerprint, and what a taken fingerprint does *)

Section FingerprintUseFacts.

Lemma with_feedback_fingerprint body f w w' :
  Js.truthy (ApprovalLearning.timestamp body) = true →
  fingerprintOf (with_feedback body f) w' = fingerprintOf body w.
Proof.
  intros Hts. unfold fingerprintOf, inputsTimestampOf, with_feedback.
  cbn [ApprovalLearning.timestamp]. rewrite Hts. reflexivity.
Qed.

(** X10. The feedback text of an approval is no part of its fingerprint.
    An approval that carries its timestamp, followed by the same approval
    with another feedback text: both are answered 201 with the same
    fingerprint, and the second stores nothing, so its text is lost. *)
Theorem feedback_text_is_not_fingerprinted body f w :
  ApprovalLearning.schema_ok body = true →
  Js.truthy (ApprovalLearning.timestamp body) = true →
  ∃ r1 w1 r2 w2,
    learn body w = (Status201 r1, w1)
    ∧ learn (with_feedback body f) w1 = (Status201 r2, w2)
    ∧ ApprovalLearning.r_inputs_hash r2 = ApprovalLearning.r_inputs_hash r1
    ∧ learning_events (db w2) = learning_events (db w1).
Proof.
  intros Hok Hts.
  destruct (approval_handler_201 body w Hok)
    as (c1 & w1 & Hrun1 & Hrows1 & _).
  destruct (approval_handler_201 (with_feedback body f) w1 Hok)
    as (c2 & w2 & Hrun2 & Hrows2 & _).
  rewrite (with_feedback_fingerprint body f w w1 Hts) in Hrows2.
  eexists _, w1, _, w2. split; [exact Hrun1|]. split; [exact Hrun2|].
  split.
  - cbn [ApprovalLearning.r_inputs_hash ApprovalLearning.responseOf
         ApprovalLearning.inputs_hash ApprovalLearning.learningEventOf].
    exact (with_feedback_fingerprint body f w w1 Hts).
  - rewrite Hrows2.
    assert (hash_taken (fingerprintOf body w) (learning_events (db w1)) = true)
      as ->; [|done].
    rewrite Hrows1.
    destruct (hash_taken _ (learning_events (db w))) eqn:Ht; [done|].
    apply hash_taken_spec. rewrite fmap_app. apply elem_of_app. right.
    apply list_elem_of_singleton. reflexivity.
Qed.

Lemma feedback_text_is_not_fingerprinted_witness :
  ApprovalLearning.schema_ok approval_with_timestamp = true
  ∧ Js.truthy (ApprovalLearning.timestamp approval_with_timestamp) = true
  ∧ ∃ r1 w1 r2 w2,
      learn approval_with_timestamp sample_world = (Status201 r1, w1)
      ∧ learn (with_feedback approval_with_timestamp (Some "Looks right"))
          w1 = (Status201 r2, w2)
      ∧ ApprovalLearning.r_inputs_hash r2 = ApprovalLearning.r_inputs_hash r1
      ∧ learning_events (db w2) = learning_events (db w1).
Proof.
  split; [reflexivity|]. split; [reflexivity|].
  apply (feedback_text_is_not_fingerprinted approval_with_timestamp
           (Some "Looks right") sample_world); reflexivity.
Defined.

Lemma selected_ids_none h w :
  (∀ row, row ∈ learning_events (db w) → le_inputs_hash row = h →
          le_decision_type row ≠ "feedback_assimilation") →
  selected_ids h w = [].
Proof.
  intros Hother. unfold selected_ids.
  rewrite (filter_Forall_none _ (learning_events (db w))); [done|].
  apply list.Forall_forall. intros row Hin [Hh Hty]. by apply (Hother row).
Qed.

(** X11. A feedback whose fingerprint is held only by rows of another
    decision type is answered 500 and stores nothing: the lookup of
    [emitLearningEvent] asks for the fingerprint and the decision type
    and finds no row, and the INSERT that follows has no conflict clause
    and fails on the unique index of the fingerprint. *)
Theorem fingerprint_of_another_type_is_500 body w :
  FeedbackAssimilation.schema_ok body = true →
  FeedbackAssimilation.inputsHashOf body
    ∈ le_inputs_hash <$> learning_events (db w) →
  (∀ row, row ∈ learning_events (db w) →
          le_inputs_hash row = FeedbackAssimilation.inputsHashOf body →
          le_decision_type row ≠ "feedback_assimilation") →
  is_500 (assimilate body w).1 = true
  ∧ learning_events (db (assimilate body w).2) = learning_events (db w).
Proof.
  intros Hok Htaken Hother.
  destruct (feedback_handler_cases body w Hok) as (ts & ref & w1 & Hcases).
  rewrite (selected_ids_none _ _ Hother) in Hcases.
  apply hash_taken_spec in Htaken. rewrite Htaken in Hcases.
  destruct Hcases as [Hrun Hrows]. unfold assimilate. rewrite Hrun.
  split; [reflexivity|exact Hrows].
Qed.

Lemma fingerprint_of_another_type_is_500_witness :
  FeedbackAssimilation.schema_ok feedback_with_approval_hash = true
  ∧ is_500 (assimilate feedback_with_approval_hash world_after_approval).1
    = true
  ∧ learning_events
      (db (assimilate feedback_with_approval_hash world_after_approval).2)
    = learning_events (db world_after_approval).
Proof.
  split; [reflexivity|].
  apply (fingerprint_of_another_type_is_500 feedback_with_approval_hash
           world_after_approval).
  - reflexivity.
  - refine (bool_decide_unpack _ _). vm_compute. exact I.
  - refine (proj1 (list.Forall_forall
                     (λ row, le_inputs_hash row
                             = FeedbackAssimilation.inputsHashOf
                                 feedback_with_approval_hash →
                             le_decision_type row ≠ "feedback_assimilation")
                     (learning_events (db world_after_approval))) _).
    refine (bool_decide_unpack _ _). vm_compute. exact I.
Defined.

Lemma with_inputs_hash_fingerprint body h :
  h ≠ EmptyString →
  FeedbackAssimilation.inputsHashOf (with_inputs_hash body h) = h.
Proof.
  intros Hh. unfold FeedbackAssimilation.inputsHashOf, with_inputs_hash.
  cbn [FeedbackAssimilation.in_inputs_hash]. by destruct h.
Qed.

(** X12. A fingerprint supplied in the body of a feedback replaces the
    computed one.  Two feedbacks that supply the same fingerprint are one
    submission to the store, whatever else they hold: the second is
    answered 201 with the id of the first, echoes its own artifact and
    stores nothing. *)
Theorem supplied_fingerprint_is_trusted b1 b2 h w r1 w1 :
  FeedbackAssimilation.schema_ok b1 = true →
  FeedbackAssimilation.schema_ok b2 = true →
  h ≠ EmptyString →
  assimilate (with_inputs_hash b1 h) w = (Status201 r1, w1) →
  ∃ r2 w2,
    assimilate (with_inputs_hash b2 h) w1 = (Status201 r2, w2)
    ∧ FeedbackAssimilation.r_id r2 = FeedbackAssimilation.r_id r1
    ∧ FeedbackAssimilation.r_source_artifact_id r2
      = FeedbackAssimilation.in_source_artifact_id b2
    ∧ learning_events (db w2) = learning_events (db w1).
Proof.
  intros Hok1 Hok2 Hh Hrun1.
  assert (FeedbackAssimilation.inputsHashOf (with_inputs_hash b2 h) = h)
    as Hh2 by by apply with_inputs_hash_fingerprint.
  assert (stored_feedback_id h w1 = Some (FeedbackAssimilation.r_id r1))
    as Hstored.
  { rewrite <- (with_inputs_hash_fingerprint b1 h Hh).
    by apply (feedback_201_stored (with_inputs_hash b1 h) w). }
  destruct (feedback_handler_cases (with_inputs_hash b2 h) w1 Hok2)
    as (ts & ref & w2 & Hcases).
  rewrite Hh2 in Hcases. unfold stored_feedback_id in Hstored.
  destruct (selected_ids h w1) as [|i ids]; [done|].
  injection Hstored as ->. destruct Hcases as [Hrun2 Hrows].
  eexists _, w2. split; [exact Hrun2|]. split; [reflexivity|].
  split; [reflexivity|exact Hrows].
Qed.

Lemma supplied_fingerprint_is_trusted_witness :
  ∃ r1 w1 r2 w2,
    assimilate (with_inputs_hash sample_feedback "client-key-1") sample_world
    = (Status201 r1, w1)
    ∧ assimilate (with_inputs_hash other_feedback "client-key-1") w1
      = (Status201 r2, w2)
    ∧ FeedbackAssimilation.r_id r2 = FeedbackAssimilation.r_id r1
    ∧ FeedbackAssimilation.r_source_artifact_id r2 = "artifact-2"
    ∧ learning_events (db w2) = learning_events (db w1).
Proof.
  destruct (assimilate (with_inputs_hash sample_feedback "client-key-1")
              sample_world) as [r1 w1] eqn:Hrun.
  assert (is_201 r1 = true) as H201.
  { replace r1
      with (assimilate (with_inputs_hash sample_feedback "client-key-1")
              sample_world).1 by (by rewrite Hrun).
    vm_compute. reflexivity. }
  destruct r1 as [|r1| |]; try discriminate.
  destruct (supplied_fingerprint_is_trusted sample_feedback other_feedback
              "client-key-1" sample_world r1 w1)
    as (r2 & w2 & Hrun2 & Hid & Hart & Hrows);
    [reflexivity|reflexivity|discriminate|exact Hrun|].
  exists r1, w1, r2, w2. split; [reflexivity|]. split; [exact Hrun2|].
  split; [exact Hid|]. split; [exact Hart|exact Hrows].
Defined.

End FingerprintUseFacts.
(** * The feedback normalizer and the confidence of a feedback *)

Section NormalizerFacts.
Import FeedbackAssimilation.

Lemma rated_length dim rating : (length (rated dim rating) ≤ 1)%nat.
Proof. destruct rating; cbn; lia. Qed.

Lemma rated_confidence dim rating :
  Forall (λ s, (confidence s == 1)%Q) (rated dim rating).
Proof. destruct rating; repeat constructor. Qed.

(** X13. The normalizer never returns an empty list of signals, and never
    more than four.  When at least one dimension is rated, the signals
    are the rated dimensions alone, each with the value given and
    confidence 1, in the order quality, clarity, accuracy, completeness;
    the text and the feedback type have no influence.  A ratings object
    that rates no dimension gives the signals derived from the text, and
    is still reported as structured ratings. *)
Theorem explicit_ratings_win :
  (∀ rawFeedback feedbackType ratings,
     parseFeedbackDimensions rawFeedback feedbackType ratings ≠ []
     ∧ (length (parseFeedbackDimensions rawFeedback feedbackType ratings)
        ≤ 4)%nat)
  ∧ (∀ rawFeedback feedbackType r,
       r ≠ no_ratings →
       parseFeedbackDimensions rawFeedback feedbackType (Some r)
       = rated "quality" (quality r) ++ rated "clarity" (clarity r)
           ++ rated "accuracy" (accuracy r)
           ++ rated "completeness" (completeness r)
       ∧ Forall (λ s, (confidence s == 1)%Q)
           (parseFeedbackDimensions rawFeedback feedbackType (Some r)))
  ∧ (∀ rawFeedback feedbackType,
       n_normalized_signals
         (normalizeFeedback rawFeedback feedbackType (Some no_ratings))
       = n_normalized_signals
           (normalizeFeedback rawFeedback feedbackType None)
       ∧ had_structured_ratings
           (n_processing_metadata
              (normalizeFeedback rawFeedback feedbackType (Some no_ratings)))
         = true)
  ∧ parseFeedbackDimensions "Poor, unclear" "rejection" (Some two_ratings)
    = [{| dimension := "clarity"; value := 0.5; confidence := 1 |};
       {| dimension := "completeness"; value := -1; confidence := 1 |}].
Proof.
  split; [|split; [|split; [by split|]]].
  - intros rawFeedback feedbackType [r|]; [|split; [done|cbn; lia]].
    unfold parseFeedbackDimensions.
    pose proof (rated_length "quality" (quality r)).
    pose proof (rated_length "clarity" (clarity r)).
    pose proof (rated_length "accuracy" (accuracy r)).
    pose proof (rated_length "completeness" (completeness r)).
    destruct (rated "quality" (quality r) ++ _) as [|s l] eqn:Hl;
      [split; [done|cbn; lia]|].
    split; [done|]. rewrite <- Hl, !length_app. lia.
  - intros rawFeedback feedbackType r Hr.
    assert (parseFeedbackDimensions rawFeedback feedbackType (Some r)
            = rated "quality" (quality r) ++ rated "clarity" (clarity r)
                ++ rated "accuracy" (accuracy r)
                ++ rated "completeness" (completeness r)) as ->.
    { unfold parseFeedbackDimensions.
      destruct r as [[q|] [c|] [a|] [m|]]; try reflexivity.
      by destruct Hr. }
    split; [reflexivity|].
    repeat (apply Forall_app; split); apply rated_confidence.
  - reflexivity.
Qed.

Lemma clamp_proper lo hi x y : (x == y → clamp lo hi x == clamp lo hi y)%Q.
Proof.
  intros Hxy. unfold clamp.
  destruct (Qlt_le_dec x lo), (Qlt_le_dec y lo); try lra;
    destruct (Qlt_le_dec hi x), (Qlt_le_dec hi y); lra.
Qed.

Lemma baseSentiment_schema_type t : baseSentiment (feedback_type_tag t) = 0%Q.
Proof. by destruct t. Qed.

Lemma normalizedOf_no_signals body :
  no_signals body →
  normalizedOf body
  = (replicated
       (deriveSentimentFromFeedbackType
          (feedback_type_tag (in_feedback_type body)) (in_raw_feedback body)),
     average confidence
       (replicated
          (deriveSentimentFromFeedbackType
             (feedback_type_tag (in_feedback_type body))
             (in_raw_feedback body))),
     "heuristic-sentiment-analysis").
Proof.
  unfold no_signals, normalizedOf.
  destruct (in_normalized_signals body) as [[|s l]|]; [|done|]; reflexivity.
Qed.

(** X14. A feedback that brings no signals of its own gets four derived
    ones, and the three feedback types the schema admits have no entry in
    the table of base sentiments: the signals the handler emits carry the
    sentiment of the keywords alone, the same on each of the four
    dimensions, whatever the feedback type. *)
Theorem derived_signals_ignore_feedback_type body eventTimestamp ref
    storedEventId :
  no_signals body →
  ∃ v, (v == keyword_sentiment (in_raw_feedback body))%Q
       ∧ normalized_signals (learningEventOf body eventTimestamp ref)
         = replicated v
       ∧ r_normalized_signals_count
           (responseOf body storedEventId eventTimestamp)
         = 4%nat.
Proof.
  intros Hno. eexists. split; [|split].
  2: { cbn [normalized_signals learningEventOf].
       by rewrite (normalizedOf_no_signals body Hno). }
  - unfold deriveSentimentFromFeedbackType, keyword_sentiment.
    rewrite max_min_clamp, baseSentiment_schema_type.
    apply clamp_proper. unfold positive_count, negative_count. lra.
  - cbn [r_normalized_signals_count responseOf].
    by rewrite (normalizedOf_no_signals body Hno).
Qed.

Lemma derived_signals_ignore_feedback_type_witness :
  no_signals sample_feedback
  ∧ ∃ v, (v == 0.4)%Q
         ∧ normalized_signals
             (learningEventOf sample_feedback "2024-01-01T00:00:00.000Z"
                "exec-1")
           = replicated v.
Proof.
  split; [reflexivity|].
  destruct (derived_signals_ignore_feedback_type sample_feedback
              "2024-01-01T00:00:00.000Z" "exec-1" "uuid-0")
    as (v & Hv & Hsignals & _); [reflexivity|].
  exists v. split; [|exact Hsignals].
  rewrite Hv. vm_compute. reflexivity.
Defined.

Lemma sum_range (f : FeedbackSignal → Q) (l : list FeedbackSignal) (a : Q) :
  Forall (λ s, (0 <= f s <= 1)%Q) l →
  (a <= foldl (λ sum s, sum + f s) a l <= a + nat_to_Q (length l))%Q.
Proof.
  intros Hl. revert a. induction Hl as [|s l Hs _ IH]; intros a.
  - cbn [foldl length]. unfold nat_to_Q.
    change (inject_Z (Z.of_nat 0)) with 0%Q. lra.
  - cbn [foldl length]. specialize (IH (a + f s)%Q).
    assert (nat_to_Q (S (length l)) == nat_to_Q (length l) + 1)%Q as ->.
    { unfold nat_to_Q. rewrite Nat2Z.inj_succ, <- Z.add_1_r.
      by rewrite inject_Z_plus. }
    lra.
Qed.

Lemma average_range (f : FeedbackSignal → Q) (l : list FeedbackSignal) :
  l ≠ [] → Forall (λ s, (0 <= f s <= 1)%Q) l →
  (0 <= average f l <= 1)%Q.
Proof.
  intros Hne Hl. pose proof (sum_range f l 0 Hl) as [Hlo Hhi].
  assert (0 < nat_to_Q (length l))%Q as Hpos.
  { unfold nat_to_Q. destruct l; [done|].
    rewrite <- (Zlt_Qlt 0). cbn [length]. lia. }
  unfold average. split.
  - apply Qle_shift_div_l; [exact Hpos|lra].
  - apply Qle_shift_div_r; [exact Hpos|lra].
Qed.

Lemma schema_signals_in_range body :
  schema_ok body = true →
  Forall (λ s, (0 <= confidence s <= 1)%Q)
    (default [] (in_normalized_signals body))
  ∧ ∀ c, in_confidence body = Some c → (0 <= c <= 1)%Q.
Proof.
  unfold schema_ok. rewrite !andb_true_iff, forallb_forall.
  intros [[_ Hsig] Hconf]. split.
  - apply list.Forall_forall. intros s Hs.
    apply list_elem_of_In, Hsig, andb_true_iff in Hs as [_ Hc].
    by apply in_range_true.
  - intros c Hc. rewrite Hc in Hconf. by apply in_range_true.
Qed.

Lemma event_confidence_range body :
  schema_ok body = true → (0 <= (normalizedOf body).1.2 <= 1)%Q.
Proof.
  intros Hok. destruct (schema_signals_in_range body Hok) as [Hsig Hconf].
  unfold normalizedOf.
  destruct (in_normalized_signals body) as [[|s l]|]; cbn [fst snd];
    [vm_compute; split; discriminate| |vm_compute; split; discriminate].
  unfold num_or. destruct (in_confidence body) as [c|].
  - destruct (Qeq_bool c 0); [by apply average_range|by apply Hconf].
  - by apply average_range.
Qed.

Lemma rows_added_one w w' row :
  learning_events (db w') = learning_events (db w) ++ [row] →
  rows_added w w' = [row].
Proof. unfold rows_added. intros ->. by rewrite drop_app_length. Qed.

Lemma rows_added_none w w' :
  learning_events (db w') = learning_events (db w) → rows_added w w' = [].
Proof. unfold rows_added. intros ->. by rewrite drop_all. Qed.

(** X15. The confidence stored with a feedback lies in [0, 1].  It is
    0.6 when the body brings no signals; when it brings signals, it is
    the body's confidence if that is given and not zero, and the mean of
    the signals' confidences otherwise. *)
Theorem feedback_confidence_is_bounded body w :
  schema_ok body = true →
  Forall
    (λ row,
       (0 <= le_confidence row <= 1)%Q
       ∧ (no_signals body → (le_confidence row == 0.6)%Q)
       ∧ (¬ no_signals body →
          le_confidence row
          = num_or (in_confidence body)
              (average confidence (default [] (in_normalized_signals body)))))
    (rows_added w (assimilate body w).2).
Proof.
  intros Hok.
  destruct (feedback_handler_cases body w Hok) as (ts & ref & w1 & Hcases).
  unfold assimilate. destruct (selected_ids _ w) as [|i ids].
  - destruct (hash_taken _ _).
    + destruct Hcases as [-> Hrows]. cbn [snd].
      rewrite (rows_added_none _ _ Hrows). constructor.
    + destruct Hcases as (i & created_at & -> & Hrows). cbn [snd].
      rewrite (rows_added_one _ _ _ Hrows). constructor; [|constructor].
      cbn [le_confidence rowOf event_confidence learningEventOf].
      split; [by apply event_confidence_range|]. split.
      * intros Hno. rewrite (normalizedOf_no_signals body Hno). cbn [fst snd].
        vm_compute. reflexivity.
      * unfold no_signals, normalizedOf.
        destruct (in_normalized_signals body) as [[|s l]|]; try done.
  - destruct Hcases as [-> Hrows]. cbn [snd].
    rewrite (rows_added_none _ _ Hrows). constructor.
Qed.

Lemma feedback_confidence_is_bounded_witness :
  schema_ok other_feedback = true
  ∧ length (rows_added sample_world (assimilate other_feedback sample_world).2)
    = 1%nat
  ∧ Forall (λ row, (0 <= le_confidence row <= 1)%Q
                   ∧ (le_confidence row == 0.7)%Q)
      (rows_added sample_world (assimilate other_feedback sample_world).2).
Proof.
  split; [reflexivity|]. split; [vm_compute; reflexivity|].
  eapply Forall_impl;
    [exact (feedback_confidence_is_bounded other_feedback sample_world
              eq_refl)|].
  intros row (Hrange & _ & Hmean). split; [exact Hrange|].
  rewrite Hmean; [vm_compute; reflexivity|discriminate].
Defined.

End NormalizerFacts.
(** ** The fingerprint of reordered inputs, evaluated *)

Section ReorderSample.

Lemma fingerprint_property_order_witness :
  NoDup (fst <$> inputs_in_order)
  ∧ inputs_in_order ≡ₚ inputs_reordered
  ∧ FeedbackAssimilation.computeInputsHash (Json.Object inputs_in_order)
    = FeedbackAssimilation.computeInputsHash (Json.Object inputs_reordered)
  ∧ ApprovalLearning.computeInputsHash (Json.Object inputs_in_order)
    = ApprovalLearning.computeInputsHash (Json.Object inputs_reordered).
Proof.
  assert (NoDup (fst <$> inputs_in_order)) as Hnd
    by (refine (bool_decide_unpack _ _); vm_compute; exact I).
  assert (inputs_in_order ≡ₚ inputs_reordered) as Hperm.
  { unfold inputs_in_order, inputs_reordered.
    refine (perm_trans (Permutation_app_comm [_; _] [_; _]) _).
    apply perm_swap. }
  split; [exact Hnd|]. split; [exact Hperm|].
  exact (fingerprint_property_order inputs_in_order inputs_reordered Hnd Hperm).
Defined.

End ReorderSample.
(** * The configuration: what loads, and what the variables mean *)

Section ConfigFacts.
Import Config.

Lemma getEnvNumber_cases env key d :
  getEnvNumber env key d
  = if decide (not_a_number env key) then inl (invalid_number key)
    else inr (number_of env key d).
Proof.
  case_decide as Hbad; unfold not_a_number in Hbad;
    unfold getEnvNumber, number_of;
    destruct (env !! key) as [v|]; try done;
    by destruct (Js.parseInt v).
Qed.

Ltac read_numbers :=
  unfold config, first_invalid, numericKeys;
  unfold mbind, Loading_bind, mret, Loading_ret;
  rewrite !getEnvNumber_cases; cbn [list_find fmap option_fmap option_map];
  repeat (case_decide; [cbn; try done|]).

(** X16. The configuration loads exactly when no numeric variable is set
    to a text that is not a number.  Otherwise loading throws, and the
    error names the first such variable in the order PORT, the RuvVector
    timeout and pool size, the six database numbers, the three circuit
    breaker numbers, the metrics port and the shutdown timeout. *)
Theorem config_fails_on_first_invalid_number env :
  match first_invalid env with
  | Some key => config env = inl (invalid_number key)
  | None => ∃ c, config env = inr c
  end.
Proof. read_numbers. cbn. eexists. reflexivity. Qed.

Lemma config_loaded env c :
  config env = inr c →
  port c = number_of env "PORT" 3000
  ∧ logLevel c = getEnvVar env "LOG_LEVEL" "info"
  ∧ serviceUrl (ruvVector c)
    = getEnvVar env "RUVVECTOR_SERVICE_URL" "http://localhost:6379"
  ∧ apiKey (ruvVector c) = getOptionalEnvVar env "RUVVECTOR_API_KEY"
  ∧ password (database c) = getEnvVar env "RUVVECTOR_DB_PASSWORD" EmptyString
  ∧ ssl (database c) = getEnvBoolean env "RUVVECTOR_DB_SSL" false
  ∧ enabled (metrics c) = getEnvBoolean env "METRICS_ENABLED" true.
Proof.
  unfold config. unfold mbind, Loading_bind, mret, Loading_ret.
  rewrite !getEnvNumber_cases.
  repeat (case_decide; [discriminate|]).
  intros [= <-]. cbn. done.
Qed.

Lemma getEnvVar_nonempty env key d :
  d ≠ EmptyString → getEnvVar env key d ≠ EmptyString.
Proof.
  intros Hd. unfold getEnvVar. destruct (env !! key) as [v|]; [|done].
  destruct (String.eqb_spec v EmptyString); done.
Qed.

Lemma getEnvBoolean_true env key d :
  getEnvBoolean env key d = true
  ↔ (env !! key = None ∧ d = true)
    ∨ ∃ v, env !! key = Some v ∧ Js.toLowerCase v = "true".
Proof.
  unfold getEnvBoolean. destruct (env !! key) as [v|].
  - rewrite String.eqb_eq. split; [eauto|].
    by intros [[? _]|(v' & [= <-] & ?)].
  - split; [auto|]. by intros [[_ ?]|(v' & ? & _)].
Qed.

(** X17. A safe integer written to a variable in decimal is read back as
    that number, whatever its sign and size, and a variable that is not
    set gives the default; so the service port is the number in PORT,
    without a check of its range, and 3000 without the variable: with
    PORT set to -1 the configuration of the image loads with port -1. *)
Theorem numeric_variables_read_back :
  (∀ env key n d,
     safe_integer n →
     getEnvNumber (<[key := Js.numberToString n]> env) key d = inr n)
  ∧ (∀ env key d, env !! key = None → getEnvNumber env key d = inr d)
  ∧ (∀ env n c,
       safe_integer n →
       config (<["PORT" := Js.numberToString n]> env) = inr c → port c = n)
  ∧ (∀ env c, env !! "PORT" = None → config env = inr c → port c = 3000)
  ∧ (∃ c, config (<["PORT" := "-1"]> docker_env) = inr c ∧ port c = -1).
Proof.
  split; [|split; [|split; [|split]]].
  - intros env key n d _. unfold getEnvNumber.
    by rewrite lookup_insert_eq, parseInt_numberToString.
  - intros env key d Hnone. unfold getEnvNumber. by rewrite Hnone.
  - intros env n c _ Hc. apply config_loaded in Hc as (-> & _).
    unfold number_of. by rewrite lookup_insert_eq, parseInt_numberToString.
  - intros env c Hnone Hc. apply config_loaded in Hc as (-> & _).
    unfold number_of. by rewrite Hnone.
  - eexists. split; vm_compute; reflexivity.
Qed.

(** X18. In a configuration that has loaded, the metrics are enabled
    unless METRICS_ENABLED is set to a text other than "true" in some
    letter case, and the database connection uses SSL only if
    RUVVECTOR_DB_SSL is set to "true" in some letter case; the empty text
    counts as another text.  A text variable set to the empty text gives
    its default: the log level and the service URL are never empty, the
    API key is absent rather than empty, and only the database password
    can be empty. *)
Theorem flags_and_texts env c :
  config env = inr c →
  (enabled (metrics c) = true
   ↔ env !! "METRICS_ENABLED" = None
     ∨ ∃ v, env !! "METRICS_ENABLED" = Some v ∧ Js.toLowerCase v = "true")
  ∧ (ssl (database c) = true
     ↔ ∃ v, env !! "RUVVECTOR_DB_SSL" = Some v ∧ Js.toLowerCase v = "true")
  ∧ logLevel c ≠ EmptyString
  ∧ serviceUrl (ruvVector c) ≠ EmptyString
  ∧ apiKey (ruvVector c) ≠ Some EmptyString
  ∧ (env !! "LOG_LEVEL" = Some EmptyString → logLevel c = "info")
  ∧ (env !! "RUVVECTOR_DB_PASSWORD" = None
     ∨ env !! "RUVVECTOR_DB_PASSWORD" = Some EmptyString
     ↔ password (database c) = EmptyString).
Proof.
  intros Hc.
  apply config_loaded in Hc as (_ & -> & -> & -> & -> & -> & ->).
  split; [|split; [|split; [|split; [|split; [|split]]]]].
  - rewrite getEnvBoolean_true. split.
    + intros [[? _]|?]; auto.
    + intros [?|?]; auto.
  - rewrite getEnvBoolean_true. split; [|auto]. by intros [[_ ?]|?].
  - by apply getEnvVar_nonempty.
  - by apply getEnvVar_nonempty.
  - unfold getOptionalEnvVar.
    destruct (env !! "RUVVECTOR_API_KEY") as [v|]; [|done].
    destruct (String.eqb_spec v EmptyString); [done|]. by intros [= ->].
  - intros Hempty. unfold getEnvVar. by rewrite Hempty.
  - unfold getEnvVar.
    destruct (env !! "RUVVECTOR_DB_PASSWORD") as [v|]; [|by split; auto].
    destruct (String.eqb_spec v EmptyString) as [->|Hv]; cbn.
    + split; auto.
    + split; [|done]. intros [?|[= ?]]; done.
Qed.

Lemma flags_and_texts_witness :
  ∃ c, config docker_env = inr c
       ∧ port c = 8080
       ∧ enabled (metrics c) = true
       ∧ logLevel c ≠ EmptyString
       ∧ password (database c) = EmptyString.
Proof.
  assert (∃ c, config docker_env = inr c ∧ port c = 8080) as (c & Hc & Hport).
  { eexists. split; vm_compute; reflexivity. }
  exists c. split; [exact Hc|]. split; [exact Hport|].
  destruct (flags_and_texts docker_env c Hc)
    as (Henabled & _ & Hlevel & _ & _ & _ & Hpassword).
  split; [apply Henabled; right; exists "true"; split; vm_compute; reflexivity|].
  split; [exact Hlevel|]. apply Hpassword. right. vm_compute. reflexivity.
Defined.

End ConfigFacts.
(** * The middleware: strict and tolerant admission *)

Section MiddlewareFacts.
Import Validation.
Context `{Utils}.

Lemma defaultEntitlementContext_value :
  defaultEntitlementContext
  = "eyJ0ZW5hbnQiOiJzeXN0ZW0iLCJzY29wZSI6ImV4ZWN1dGlvbi1saXN0ZW5lciJ9".
Proof. vm_compute. reflexivity. Qed.

(** X19. On a request whose correlation and entitlement headers are
    not repeated, the combined middleware admits exactly when the
    content type holds application/json and the two single middlewares,
    one after the other, admit; it then leaves the request and the
    response as they do, and with such a content type it answers with
    their status when it refuses. *)
Theorem combined_middleware_is_the_chain req res :
  plain_header req "x-correlation-id" →
  plain_header req "x-entitlement-context" →
  (status_of (validateRequiredHeaders req res) = None
   ↔ includes_json (headers req !! "content-type") = true
     ∧ status_of (extract_then_validate req res) = None)
  ∧ (status_of (validateRequiredHeaders req res) = None →
     validateRequiredHeaders req res = extract_then_validate req res)
  ∧ (includes_json (headers req !! "content-type") = true →
     status_of (validateRequiredHeaders req res)
     = status_of (extract_then_validate req res)).
Proof.
  intros Hc He. unfold plain_header in Hc, He.
  unfold validateRequiredHeaders, extract_then_validate,
    extractCorrelationId, validateEntitlement.
  destruct (includes_json (headers req !! "content-type"));
    (destruct (headers req !! "x-correlation-id") as [[[|? ?]|lc]|];
     [| |by destruct (Hc lc)|]);
    cbn;
    (destruct (headers req !! "x-entitlement-context") as [[[|? ?]|le]|];
     [| |by destruct (He le)|]);
    cbn;
    (split; [split; [done|by intros [? ?]]|split; done]).
Qed.

(** X20. The polling middleware never refuses a request for its
    headers: it answers 403 when the entitlement check refuses the
    context, and admits otherwise, and either way the response carries
    a correlation id.  The context it checks is the entitlement header
    when that is a non-empty text, and otherwise the Base64 text of the
    system context (tenant system, scope execution-listener).
    Whatever the combined middleware admits on non-repeated headers,
    the polling middleware admits with the same result. *)
Theorem polling_middleware_is_tolerant req res :
  (status_of (validateInternalPolling req res) = None
   ∨ status_of (validateInternalPolling req res) = Some 403)
  ∧ (status_of (validateInternalPolling req res) = None
     ↔ allowed (checkEntitlement (polling_context req)) = true)
  ∧ response_headers (validateInternalPolling req res)
    = <["x-correlation-id" := polling_correlationId req]> res
  ∧ (plain_header req "x-correlation-id" →
     plain_header req "x-entitlement-context" →
     status_of (validateRequiredHeaders req res) = None →
     validateInternalPolling req res = validateRequiredHeaders req res).
Proof.
  unfold validateInternalPolling, validateRequiredHeaders, polling_context,
    polling_correlationId, plain_header.
  rewrite defaultEntitlementContext_value.
  cbn [headers set_correlationId].
  destruct (includes_json (headers req !! "content-type"));
    destruct (headers req !! "x-correlation-id") as [[[|? ?]|lc]|];
    destruct (headers req !! "x-entitlement-context") as [[[|? ?]|le]|];
    cbn;
    match goal with
    | |- context [allowed ?r] => destruct (allowed r)
    end; cbn;
    (split; [auto|split; [done|split; [done|]]]);
    intros Hc He; try done;
    first [by destruct (Hc lc)|by destruct (He le)].
Qed.

End MiddlewareFacts.

Section MiddlewareSamples.
Import Validation.

(** The three middlewares on [sample_request]. *)
Lemma combined_middleware_is_the_chain_witness :
  plain_header sample_request "x-correlation-id"
  ∧ plain_header sample_request "x-entitlement-context"
  ∧ status_of (validateRequiredHeaders sample_request ∅) = None
  ∧ validateRequiredHeaders sample_request ∅
    = extract_then_validate sample_request ∅.
Proof.
  assert (plain_header sample_request "x-correlation-id") as Hc
    by (intros l; vm_compute; discriminate).
  assert (plain_header sample_request "x-entitlement-context") as He
    by (intros l; vm_compute; discriminate).
  destruct (combined_middleware_is_the_chain sample_request ∅ Hc He)
    as (Hadmit & Hsame & _).
  assert (status_of (validateRequiredHeaders sample_request ∅) = None)
    as Hnone.
  { apply Hadmit. split; vm_compute; reflexivity. }
  split; [exact Hc|]. split; [exact He|]. split; [exact Hnone|].
  exact (Hsame Hnone).
Defined.

End MiddlewareSamples.
(** ** The text behind the fingerprint of a feedback *)

Section FingerprintTextFacts.
Import FeedbackAssimilation.

Lemma append_assoc (a b c : string) : (a +:+ b) +:+ c = a +:+ (b +:+ c).
Proof.
  induction a as [|x a IH]; [done|].
  change (String x ((a +:+ b) +:+ c) = String x (a +:+ (b +:+ c))).
  by rewrite IH.
Qed.

Lemma append_nil_r (a : string) : a +:+ EmptyString = a.
Proof.
  induction a as [|x a IH]; [done|].
  change (String x (a +:+ EmptyString) = String x a). by rewrite IH.
Qed.

Lemma unescape_escape c r : unescape (Json.escape_char c +:+ r) = Some (c, r).
Proof. destruct c as [[] [] [] [] [] [] [] []]; reflexivity. Qed.

Lemma escaped_cons c s :
  escaped (String c s) = Json.escape_char c +:+ escaped s.
Proof.
  unfold escaped. cbn [list_ascii_of_string map String.concat].
  destruct (map Json.escape_char (list_ascii_of_string s)) as [|x l] eqn:Hl.
  - by rewrite append_nil_r.
  - reflexivity.
Qed.

Lemma escaped_inj a a' r r' :
  escaped a +:+ Json.dquote +:+ r = escaped a' +:+ Json.dquote +:+ r' →
  a = a' ∧ r = r'.
Proof.
  assert (∀ s, unescape (escaped EmptyString +:+ Json.dquote +:+ s) = None)
    as Hend by reflexivity.
  revert a'. induction a as [|c a IH]; intros [|c' a'].
  - change (Json.dquote +:+ r = Json.dquote +:+ r' → EmptyString = EmptyString ∧ r = r').
    intros Heq. by apply String.app_inj in Heq.
  - rewrite escaped_cons, append_assoc. intros Heq.
    apply (f_equal unescape) in Heq.
    rewrite unescape_escape, Hend in Heq. discriminate.
  - rewrite escaped_cons, append_assoc. intros Heq.
    apply (f_equal unescape) in Heq.
    rewrite unescape_escape, Hend in Heq. discriminate.
  - rewrite !escaped_cons, !append_assoc. intros Heq.
    pose proof (f_equal unescape Heq) as Hhead.
    rewrite !unescape_escape in Hhead. injection Hhead as -> Hrest.
    destruct (IH a' Hrest) as [-> ->]. done.
Qed.

Lemma quote_escaped s : Json.quote s = Json.dquote +:+ escaped s +:+ Json.dquote.
Proof. reflexivity. Qed.

Lemma quote_inj a a' r r' :
  Json.quote a +:+ r = Json.quote a' +:+ r' → a = a' ∧ r = r'.
Proof.
  rewrite !quote_escaped, !append_assoc. intros Heq.
  apply String.app_inj in Heq. rewrite <- !append_assoc in Heq.
  rewrite !(append_assoc (escaped _)) in Heq.
  by apply escaped_inj.
Qed.

Lemma feedback_type_tag_inj t t' :
  feedback_type_tag t = feedback_type_tag t' → t = t'.
Proof. by destruct t, t'. Qed.

Lemma fingerprint_text_entries body :
  fingerprint_text body
  = "{" +:+
    String.concat ","
      [Json.quote "feedback_source" +:+ ":"
         +:+ Json.quote (feedback_source (in_assimilation_metadata body));
       Json.quote "feedback_type" +:+ ":"
         +:+ Json.quote (feedback_type_tag (in_feedback_type body));
       Json.quote "raw_feedback" +:+ ":"
         +:+ Json.quote (in_raw_feedback body);
       Json.quote "source_artifact_id" +:+ ":"
         +:+ Json.quote (in_source_artifact_id body)]
    +:+ "}".
Proof. reflexivity. Qed.

(** X26. The text that is hashed for a feedback determines the four
    inputs it is built from: two bodies have the same text exactly when
    they agree on the artifact, the feedback type, the raw feedback and
    the feedback source.  Quotes and backslashes in the texts are
    escaped, so no choice of texts makes two different bodies read the
    same; equal fingerprints of different inputs are collisions of
    SHA-256. *)
Theorem fingerprint_text_determines_inputs :
  (∀ body,
     computeInputsHash (hashedInputs body)
     = Sha256.digest_hex (fingerprint_text body))
  ∧ (∀ b1 b2,
       fingerprint_text b1 = fingerprint_text b2
       ↔ in_source_artifact_id b1 = in_source_artifact_id b2
         ∧ in_feedback_type b1 = in_feedback_type b2
         ∧ in_raw_feedback b1 = in_raw_feedback b2
         ∧ feedback_source (in_assimilation_metadata b1)
           = feedback_source (in_assimilation_metadata b2)).
Proof.
  split; [reflexivity|]. intros b1 b2. split.
  - rewrite !fingerprint_text_entries. cbn [String.concat].
    intros Heq. apply String.app_inj in Heq.
    rewrite !append_assoc in Heq.
    apply String.app_inj, String.app_inj in Heq.
    apply quote_inj in Heq as [Hsource Heq].
    apply String.app_inj, String.app_inj, String.app_inj in Heq.
    apply quote_inj in Heq as [Htype Heq].
    apply String.app_inj, String.app_inj, String.app_inj in Heq.
    apply quote_inj in Heq as [Hraw Heq].
    apply String.app_inj, String.app_inj, String.app_inj in Heq.
    apply quote_inj in Heq as [Hartifact _].
    apply feedback_type_tag_inj in Htype. done.
  - intros (Hartifact & Htype & Hraw & Hsource).
    rewrite !fingerprint_text_entries. by rewrite Hartifact, Htype, Hraw, Hsource.
Qed.

End FingerprintTextFacts.
